(** * AILawer: the document-to-retrievable-knowledge pipeline

    A shallow embedding of the retrieval pipeline of the repository:

    - [src/backend/app/services/rag.py]  (class [RAGService]),
    - [src/backend/app/routes/rag.py]    (the [/rag/query] route),
    - [src/backend/app/database/json_db.py] (the document-set store),
    - [src/backend/app/services/subscription.py] (the feature gate),
    - [src/Final/main.py]                (the stand-alone pipeline),

    followed by the properties of the specification, each one proved or
    refuted on these definitions.

    Conventions.  A Python [str] is a [string]; its characters are read as
    code points below 256.  A Python [dict] built by a literal is a [PDict]
    association list in the order of the literal; the JSON collections of the
    database are finite maps keyed by identifier.  A call that may raise
    returns [Raise e] or [Return v] together with the world it leaves
    behind. *)

From Stdlib Require Import ZArith Ascii String List Lia Bool.
From stdpp Require Import gmap strings list fin_maps.

Local Open Scope nat_scope.
Set Warnings "-register-all".

(* ===================================================================== *)
(** * Python string primitives                                            *)
(* ===================================================================== *)

Module Py.

(** [c.isspace()] for a code point below 256. *)
Definition isspace (c : ascii) : bool :=
  match c with
  | "009" | "010" | "011" | "012" | "013"
  | "028" | "029" | "030" | "031" | " "
  | "133" | "160" => true
  | _ => false
  end%char.

(** Truthiness of a string: [bool(s)]. *)
Definition truthy (s : string) : bool :=
  match s with
  | EmptyString => false
  | String _ _ => true
  end.

(** [s.lstrip()] *)
Fixpoint lstrip (s : string) : string :=
  match s with
  | EmptyString => EmptyString
  | String c s' => if isspace c then lstrip s' else s
  end.

(** [s.rstrip()] *)
Fixpoint rstrip (s : string) : string :=
  match s with
  | EmptyString => EmptyString
  | String c s' =>
      match rstrip s' with
      | EmptyString => if isspace c then EmptyString else String c EmptyString
      | r => String c r
      end
  end.

(** [s.strip()] *)
Definition strip (s : string) : string := rstrip (lstrip s).

(** [s[:n]] *)
Fixpoint take (n : nat) (s : string) : string :=
  match n, s with
  | S n', String c s' => String c (take n' s')
  | _, _ => EmptyString
  end.

(** Prepends a character to the first piece of a split. *)
Definition push (c : ascii) (pieces : list string) : list string :=
  match pieces with
  | p :: ps => String c p :: ps
  | [] => [String c EmptyString]
  end.

Definition is_newline (c : ascii) : bool :=
  match c with "010"%char => true | _ => false end.

(** [s.split('\n\n')]: the occurrences of the separator are taken from
    the left and do not overlap. *)
Fixpoint split_blank (s : string) : list string :=
  match s with
  | EmptyString => [EmptyString]
  | String c1 s1 =>
      match s1 with
      | String c2 s2 =>
          if is_newline c1 && is_newline c2
          then EmptyString :: split_blank s2
          else push c1 (split_blank s1)
      | EmptyString => [String c1 EmptyString]
      end
  end.

(** The character class [[.!?]]. *)
Definition is_terminator (c : ascii) : bool :=
  match c with
  | "."%char | "!"%char | "?"%char => true
  | _ => false
  end.

(** [re.split(r'[.!?]+', s)].  [in_match] says that the previous character
    belongs to a match of the pattern, which the greedy [+] extends. *)
Fixpoint re_split_from (in_match : bool) (s : string) : list string :=
  match s with
  | EmptyString => [EmptyString]
  | String c s' =>
      if is_terminator c
      then if in_match then re_split_from true s'
           else EmptyString :: re_split_from true s'
      else push c (re_split_from false s')
  end.

Definition re_split (s : string) : list string := re_split_from false s.

(** [c * n] *)
Fixpoint replicate (n : nat) (c : ascii) : string :=
  match n with
  | O => EmptyString
  | S n' => String c (replicate n' c)
  end.

End Py.

(* ===================================================================== *)
(** * Python values and langchain documents                               *)
(* ===================================================================== *)

(** The values that the services put in the dictionaries they return. *)
Inductive pyval : Type :=
| PNone
| PBool (b : bool)
| PInt (z : Z)
| PStr (s : string)
| PList (l : list pyval)
| PDict (d : list (string * pyval)).

(** [d.get(k)] on a dictionary literal. *)
Fixpoint assoc_get (k : string) (d : list (string * pyval)) : option pyval :=
  match d with
  | [] => None
  | (k', v) :: d' => if String.eqb k k' then Some v else assoc_get k d'
  end.

Definition dict_get (k : string) (v : pyval) : option pyval :=
  match v with
  | PDict d => assoc_get k d
  | _ => None
  end.

(** [langchain.schema.Document] *)
Record Document : Type := mkDocument {
  page_content : string;
  metadata : pyval
}.

(* ===================================================================== *)
(** * The chunker: [semantic_chunk_documents]                             *)
(* ===================================================================== *)

(** [services/rag.py] lines 88-131 and [Final/main.py] lines 71-114 hold the
    same text; one model serves both. *)
Module Chunker.
Import Py.

(** The state of the paragraph loop: [current_chunk] and the shared
    accumulator [semantic_chunks]. *)
Definition loop_state : Type := (string * list Document)%type.

(** The overlap computed when a buffer is saved (lines 107-108). *)
Definition overlap_of (current_chunk : string) : string :=
  let sentences := re_split current_chunk in
  if 1 <? length sentences then strip (List.last sentences EmptyString)
  else EmptyString.

(** One iteration of [for para in paragraphs] (lines 99-118). *)
Definition para_step (meta : pyval) (st : loop_state) (para : string)
  : loop_state :=
  let '(current_chunk, semantic_chunks) := st in
  let para := strip para in
  if negb (truthy para) then st
  else if (2000 <? String.length current_chunk + String.length para)
          && truthy current_chunk
  then
    let overlap := overlap_of current_chunk in
    let semantic_chunks :=
      semantic_chunks ++ [mkDocument (strip current_chunk) meta] in
    (if truthy overlap then (overlap +:+ " ") +:+ para else para,
     semantic_chunks)
  else
    (current_chunk +:+ (if truthy current_chunk then " " +:+ para else para),
     semantic_chunks).

(** One iteration of [for doc in docs] (lines 92-125). *)
Definition doc_step (semantic_chunks : list Document) (doc : Document)
  : list Document :=
  let text := page_content doc in
  let paragraphs := split_blank text in
  let '(current_chunk, semantic_chunks) :=
    fold_left (para_step (metadata doc)) paragraphs
              (EmptyString, semantic_chunks) in
  if truthy (strip current_chunk)
  then semantic_chunks ++ [mkDocument (strip current_chunk) (metadata doc)]
  else semantic_chunks.

(** The filter of line 128. *)
Definition big_enough (chunk : Document) : bool :=
  100 <? String.length (page_content chunk).

Definition semantic_chunk_documents (docs : list Document) : list Document :=
  let semantic_chunks := fold_left doc_step docs [] in
  List.filter big_enough semantic_chunks.

(** The chunks that one page adds to an empty accumulator. *)
Definition page_chunks (doc : Document) : list Document := doc_step [] doc.

(** The paragraphs of a page as the loop sees them: trimmed, the empty
    ones skipped. *)
Definition paragraphs_of (text : string) : list string :=
  List.filter truthy (map strip (split_blank text)).

End Chunker.

(* ===================================================================== *)
(** * The world: database files, vector index, trace of effects           *)
(* ===================================================================== *)

(** An exception raised by a collaborator or by the interpreter;
    [str_exn] is Python's [str(e)]. *)
Inductive exn : Type :=
| Exception (msg : string).

Definition str_exn (e : exn) : string :=
  match e with
  | Exception msg => msg
  end.

(** The result of a call that may raise. *)
Inductive outcome (A : Type) : Type :=
| Raise (e : exn)
| Return (a : A).
Arguments Raise {A} e.
Arguments Return {A} a.

(** A record of [users.json]: the one field the feature gate reads;
    [None] stands for an absent key. *)
Record User : Type := mkUser {
  subscription_tier : option string
}.

(** A record of [document_sets.json], as built at lines 201-208 of
    [services/rag.py].  [created_at] is the clock reading, kept as an
    opaque number. *)
Record DocumentSet : Type := mkDocumentSet {
  id : string;
  user_id : string;
  file_paths : list string;
  chunk_count : nat;
  created_at : Z;
  status : string
}.

(** [JSONDatabase]: the two files of [data/] that the pipeline touches.
    Reading and writing a file is taken to succeed. *)
Record JSONDatabase : Type := mkJSONDatabase {
  users : gmap string User;
  document_sets : gmap string DocumentSet
}.

(** The vectors of the index, by index name and namespace. *)
Abbreviation VectorIndex := (gmap (string * string) (list Document)).

(** Lines written through [logger]. *)
Inductive LogRecord : Type :=
| info_loaded (pages : nat) (fp : string)
| info_generated (chunks : nat)
| info_created (chunks : nat)
| info_stored (batch_number : nat) (total_batches : Z)
| info_success (user : string)
| error_processing (e : exn)
| error_querying (e : exn).

(** What a run does to the outside, in order: calls to the collaborators
    with their result, and log lines. *)
Inductive Event : Type :=
| LoaderLoad (file_path : string) (result : outcome (list Document))
| FromDocuments (index_name namespace : string) (batch : list Document)
                (failure : option exn)
| FromExistingIndex (index_name namespace : string) (failure : option exn)
| QAInvoke (index_name namespace : string) (k : Z) (query : string)
           (result : outcome (string * list Document))
| Logged (r : LogRecord).

Record World : Type := mkWorld {
  db : JSONDatabase;
  vectors : VectorIndex;
  trace : list Event
}.

(** The collaborators that the repository calls and does not define. *)
Record Backends : Type := mkBackends {
  (** [os.path.splitext(file_path)[1].lower()] *)
  splitext_lower : string -> string;
  (** [PyPDFLoader(file_path).load()], [Docx2txtLoader(file_path).load()] *)
  pdf_load : string -> outcome (list Document);
  docx_load : string -> outcome (list Document);
  (** [PineconeVectorStore.from_documents]: [Some e] when the write of this
      batch raises [e]. *)
  from_documents_failure :
    VectorIndex -> string -> string -> list Document -> option exn;
  (** [PineconeVectorStore.from_existing_index] *)
  from_existing_index_failure : string -> string -> option exn;
  (** [qa_chain.invoke]: embeds the question, searches the namespace for the
      [k] nearest chunks and asks the language model; returns the answer
      and the source documents. *)
  qa_invoke :
    VectorIndex -> string -> string -> Z -> string ->
    outcome (string * list Document)
}.

(** What the operating system hands to one ingestion: the digits of
    [uuid.uuid4().hex] and the reading of [time.time()]. *)
Record Draw : Type := mkDraw {
  uuid4_hex : string;
  time_time : Z
}.

(** ** A state and exception monad over the world *)

Definition M (A : Type) : Type := World -> outcome A * World.

Definition ret {A} (a : A) : M A := fun w => (Return a, w).

Definition raise {A} (e : exn) : M A := fun w => (Raise e, w).

Definition bind {A B} (m : M A) (k : A -> M B) : M B :=
  fun w =>
    match m w with
    | (Return a, w') => k a w'
    | (Raise e, w') => (Raise e, w')
    end.

(** [try: m  except Exception as e: handler e] *)
Definition try_except {A} (m : M A) (handler : exn -> M A) : M A :=
  fun w =>
    match m w with
    | (Return a, w') => (Return a, w')
    | (Raise e, w') => handler e w'
    end.

Definition emit (ev : Event) : M unit :=
  fun w => (Return tt, mkWorld (db w) (vectors w) (trace w ++ [ev])).

Definition logger (r : LogRecord) : M unit := emit (Logged r).

Definition read_db : M JSONDatabase := fun w => (Return (db w), w).

Definition write_db (d : JSONDatabase) : M unit :=
  fun w => (Return tt, mkWorld d (vectors w) (trace w)).

Definition lift_outcome {A} (o : outcome A) : M A := fun w => (o, w).

Notation "'let*' x ':=' m 'in' k" := (bind m (fun x => k))
  (at level 10, x name, m at level 100, k at level 200).

(* ===================================================================== *)
(** * [database/json_db.py]: document sets and users                      *)
(* ===================================================================== *)

Module JsonDb.

Definition get_user_by_id (d : JSONDatabase) (uid : string) : option User :=
  users d !! uid.

(** [store_document_set], lines 236-242. *)
Definition store_document_set (d : JSONDatabase) (document_set : DocumentSet)
  : JSONDatabase * string :=
  let document_set_id := id document_set in
  (mkJSONDatabase (users d)
                  (<[document_set_id := document_set]> (document_sets d)),
   document_set_id).

(** [get_document_set], lines 244-247. *)
Definition get_document_set (d : JSONDatabase) (document_set_id : string)
  : option DocumentSet :=
  document_sets d !! document_set_id.

(** [get_user_document_sets], lines 249-252 (the order of the values is
    the order of the keys here). *)
Definition get_user_document_sets (d : JSONDatabase) (uid : string)
  : list DocumentSet :=
  List.filter (fun ds => String.eqb (user_id ds) uid)
              (map snd (map_to_list (document_sets d))).

(** [delete_document_set], lines 254-261. *)
Definition delete_document_set (d : JSONDatabase) (document_set_id : string)
  : JSONDatabase * bool :=
  match document_sets d !! document_set_id with
  | Some _ =>
      (mkJSONDatabase (users d) (delete document_set_id (document_sets d)),
       true)
  | None => (d, false)
  end.

End JsonDb.

(* ===================================================================== *)
(** * [services/subscription.py]: the feature gate                        *)
(* ===================================================================== *)

Module Subscription.

(** [models/schemas.py]: [class SubscriptionTier(str, Enum)]. *)
Inductive SubscriptionTier : Type := BASIC | STANDARD | PREMIUM | PLATINUM.

(** [SubscriptionTier(value)]: lookup by value, [ValueError] otherwise. *)
Definition SubscriptionTier_of (value : string) : outcome SubscriptionTier :=
  if String.eqb value "Basic" then Return BASIC
  else if String.eqb value "Standard" then Return STANDARD
  else if String.eqb value "Premium" then Return PREMIUM
  else if String.eqb value "Platinum" then Return PLATINUM
  else Raise (Exception ("'" +:+ value +:+ "' is not a valid SubscriptionTier")).

Record TierLimits : Type := mkTierLimits {
  case_study_weekly_limit : option nat;
  expert_advice_weekly_limit : option nat;
  chat_advice_limit : option nat;
  features : list string
}.

(** [TIER_LIMITS], lines 9-34. *)
Definition TIER_LIMITS (tier : SubscriptionTier) : TierLimits :=
  match tier with
  | BASIC =>
      mkTierLimits (Some 5) (Some 0) None
                   ["chat_advice"; "case_study_limited"]
  | STANDARD =>
      mkTierLimits None (Some 0) None
                   ["chat_advice"; "case_study_unlimited"]
  | PREMIUM =>
      mkTierLimits None (Some 3) None
                   ["chat_advice"; "case_study_unlimited";
                    "expert_advice_limited"]
  | PLATINUM =>
      mkTierLimits None None None
                   ["chat_advice"; "case_study_unlimited";
                    "expert_advice_unlimited"]
  end.

(** [feature in tier_features] *)
Definition contains (feature : string) (l : list string) : bool :=
  existsb (String.eqb feature) l.

(** [check_feature_access], lines 39-48. *)
Definition check_feature_access (d : JSONDatabase) (uid feature : string)
  : outcome bool :=
  match JsonDb.get_user_by_id d uid with
  | None => Return false
  | Some user =>
      match SubscriptionTier_of (default "Basic" (subscription_tier user)) with
      | Raise e => Raise e
      | Return tier =>
          let tier_features := features (TIER_LIMITS tier) in
          Return (contains feature tier_features)
      end
  end.

End Subscription.

(* ===================================================================== *)
(** * Calls to the vector store and to the question-answering chain       *)
(* ===================================================================== *)

Module Pinecone.

Section WithBackends.
Variable B : Backends.

(** [PineconeVectorStore.from_documents(batch, embeddings, namespace,
    index_name)]: the batch is in the index when the call returns. *)
Definition from_documents (index_name namespace : string)
           (batch : list Document) : M unit :=
  fun w =>
    let failure :=
      from_documents_failure B (vectors w) index_name namespace batch in
    let tr := trace w ++ [FromDocuments index_name namespace batch failure] in
    match failure with
    | Some e => (Raise e, mkWorld (db w) (vectors w) tr)
    | None =>
        let key := (index_name, namespace) in
        let stored := default [] (vectors w !! key) in
        (Return tt,
         mkWorld (db w) (<[key := stored ++ batch]> (vectors w)) tr)
    end.

(** [PineconeVectorStore.from_existing_index(index_name, embedding,
    namespace)] *)
Definition from_existing_index (index_name namespace : string) : M unit :=
  let failure := from_existing_index_failure B index_name namespace in
  let* _ := emit (FromExistingIndex index_name namespace failure) in
  match failure with
  | Some e => raise e
  | None => ret tt
  end.

(** [qa_chain.invoke({"query": query})] with a retriever built with
    [search_kwargs = {"k": k, "namespace": namespace}]. *)
Definition qa_chain_invoke (index_name namespace : string) (k : Z)
           (query : string) : M (string * list Document) :=
  fun w =>
    let result := qa_invoke B (vectors w) index_name namespace k query in
    (result,
     mkWorld (db w) (vectors w)
             (trace w ++ [QAInvoke index_name namespace k query result])).

End WithBackends.

End Pinecone.

(* ===================================================================== *)
(** * [services/rag.py]: class [RAGService]                               *)
(* ===================================================================== *)

(** The attributes that [__init__] leaves: each handle is there ([true]) or
    [None] ([false]). *)
Record RAGService : Type := mkRAGService {
  pc : bool;
  embeddings : bool;
  llm : bool;
  index_name : string
}.

(** The dictionaries of the service. *)
Definition failure_dict (error : string) : pyval :=
  PDict [("success", PBool false); ("error", PStr error)].

Module RagService.
Import Py.

Section WithBackends.
Variable B : Backends.
Variable self : RAGService.

(** [load_documents], lines 133-142. *)
Definition load_documents (file_path : string) : M (list Document) :=
  let ext := splitext_lower B file_path in
  if String.eqb ext ".pdf" then
    let result := pdf_load B file_path in
    let* _ := emit (LoaderLoad file_path result) in
    lift_outcome result
  else if String.eqb ext ".docx" then
    let result := docx_load B file_path in
    let* _ := emit (LoaderLoad file_path result) in
    lift_outcome result
  else raise (Exception ("Unsupported file format: " +:+ ext)).

(** Lines 173-177: [for fp in file_paths]. *)
Fixpoint load_all (file_paths : list string) (all_docs : list Document)
  : M (list Document) :=
  match file_paths with
  | [] => ret all_docs
  | fp :: rest =>
      let* docs := load_documents fp in
      let* _ := logger (info_loaded (length docs) fp) in
      load_all rest (all_docs ++ docs)
  end.

(** [semantic_chunk_documents] with its log line (line 130). *)
Definition semantic_chunk_documents (docs : list Document)
  : M (list Document) :=
  let semantic_chunks := Chunker.semantic_chunk_documents docs in
  let* _ := logger (info_generated (length semantic_chunks)) in
  ret semantic_chunks.

Definition from_documents (namespace : string) (batch : list Document)
  : M unit :=
  Pinecone.from_documents B (index_name self) namespace batch.

(** [range(0, n, step)] for a positive step. *)
Definition range_step (n step : nat) : list nat :=
  map (fun j => j * step) (seq 0 ((n + step - 1) / step)).

(** Lines 188-198: the body of [for i in range(0, len(chunks), batch_size)]
    run over the start indices. *)
Fixpoint store_batches (chunks : list Document) (namespace : string)
         (batch_size : nat) (total_batches : Z) (starts : list nat)
  : M unit :=
  match starts with
  | [] => ret tt
  | i :: rest =>
      let batch_chunks := firstn batch_size (skipn i chunks) in
      let batch_number := i / batch_size + 1 in
      let* _ := from_documents namespace batch_chunks in
      let* _ := logger (info_stored batch_number total_batches) in
      store_batches chunks namespace batch_size total_batches rest
  end.

(** [db.store_document_set(document_set)] *)
Definition db_store_document_set (document_set : DocumentSet) : M string :=
  let* d := read_db in
  let '(d', document_set_id) := JsonDb.store_document_set d document_set in
  let* _ := write_db d' in
  ret document_set_id.

(** The namespace of line 184. *)
Definition namespace_of (uid : string) (draw : Draw) : string :=
  "user_" +:+ uid +:+ "_" +:+ take 8 (uuid4_hex draw).

(** Lines 172-217: the body of the [try]. *)
Definition process_and_store_documents_body
           (draw : Draw) (file_paths : list string) (uid : string)
           (batch_size : Z) : M pyval :=
  let* all_docs := load_all file_paths [] in
  let* chunks := semantic_chunk_documents all_docs in
  let* _ := logger (info_created (length chunks)) in
  let namespace := namespace_of uid draw in
  let* total_batches :=
    (if Z.eqb batch_size 0
     then raise (Exception "integer division or modulo by zero")
     else ret ((Z.of_nat (length chunks) + batch_size - 1) / batch_size)%Z) in
  let starts :=
    if Z.ltb 0 batch_size
    then range_step (length chunks) (Z.to_nat batch_size)
    else [] in
  let* _ := store_batches chunks namespace (Z.to_nat batch_size)
                          total_batches starts in
  let document_set :=
    mkDocumentSet namespace uid file_paths (length chunks)
                  (time_time draw) "ready" in
  let* _ := db_store_document_set document_set in
  let* _ := logger (info_success uid) in
  ret (PDict [("success", PBool true);
              ("namespace", PStr namespace);
              ("chunks_created", PInt (Z.of_nat (length chunks)));
              ("message",
               PStr "Documents successfully processed and indexed")]).

(** Lines 171-224: the [try] statement with its handler. *)
Definition process_and_store_documents_try
           (draw : Draw) (file_paths : list string) (uid : string)
           (batch_size : Z) : M pyval :=
  try_except
    (process_and_store_documents_body draw file_paths uid batch_size)
    (fun e =>
       let* _ := logger (error_processing e) in
       ret (failure_dict ("Error processing documents: " +:+ str_exn e))).

(** [self.subscription_service.check_feature_access] on the database. *)
Definition check_feature_access (uid feature : string) : M bool :=
  let* d := read_db in
  lift_outcome (Subscription.check_feature_access d uid feature).

(** [process_and_store_documents], lines 144-224. *)
Definition process_and_store_documents
           (draw : Draw) (file_paths : list string) (uid : string)
           (batch_size : Z) : M pyval :=
  let* allowed := check_feature_access uid "document_upload" in
  if negb allowed then
    ret (failure_dict
           "Document upload not available for your subscription tier")
  else if negb (pc self) then
    ret (failure_dict
           "Pinecone not configured. Please add PINECONE_API_KEY to environment.")
  else if negb (embeddings self) then
    ret (failure_dict
           "Embeddings model not available. Please check network connection.")
  else process_and_store_documents_try draw file_paths uid batch_size.

Definition from_existing_index (namespace : string) : M unit :=
  Pinecone.from_existing_index B (index_name self) namespace.

Definition qa_chain_invoke (namespace : string) (k : Z) (query : string)
  : M (string * list Document) :=
  Pinecone.qa_chain_invoke B (index_name self) namespace k query.

(** Lines 303-307: one entry of [sources]. *)
Definition source_entry (doc : Document) : pyval :=
  PDict [("content",
          PStr (take 300 (page_content doc) +:+
                (if 300 <? String.length (page_content doc)
                 then "..." else "")));
         ("metadata", metadata doc)].

(** Lines 254-314: the body of the [try]. *)
Definition query_documents_body (query namespace uid : string) (k : Z)
  : M pyval :=
  let* d := read_db in
  match JsonDb.get_document_set d namespace with
  | None => ret (failure_dict "Document set not found or access denied")
  | Some document_set =>
      if negb (String.eqb (user_id document_set) uid) then
        ret (failure_dict "Document set not found or access denied")
      else
        let* _ := from_existing_index namespace in
        let* result := qa_chain_invoke namespace k query in
        let sources := map source_entry (snd result) in
        ret (PDict [("success", PBool true);
                    ("answer", PStr (fst result));
                    ("sources", PList sources);
                    ("namespace", PStr namespace)])
  end.

(** [query_documents], lines 226-321. *)
Definition query_documents (query namespace uid : string) (k : Z)
  : M pyval :=
  if negb (pc self) then ret (failure_dict "Pinecone not configured")
  else if negb (embeddings self) then
    ret (failure_dict "Embeddings model not available")
  else if negb (llm self) then ret (failure_dict "LLM not available")
  else
    try_except
      (query_documents_body query namespace uid k)
      (fun e =>
         let* _ := logger (error_querying e) in
         ret (failure_dict ("Error querying documents: " +:+ str_exn e))).

(** [get_user_document_sets], lines 323-325. *)
Definition get_user_document_sets (uid : string) : M (list DocumentSet) :=
  let* d := read_db in
  ret (JsonDb.get_user_document_sets d uid).

(** [delete_document_set], lines 327-349. *)
Definition delete_document_set (namespace uid : string) : M pyval :=
  try_except
    (let* d := read_db in
     match JsonDb.get_document_set d namespace with
     | None => ret (failure_dict "Document set not found or access denied")
     | Some document_set =>
         if negb (String.eqb (user_id document_set) uid) then
           ret (failure_dict "Document set not found or access denied")
         else
           let* _ := write_db (fst (JsonDb.delete_document_set d namespace)) in
           ret (PDict [("success", PBool true);
                       ("message",
                        PStr "Document set deleted successfully")])
     end)
    (fun e =>
       ret (failure_dict ("Error deleting document set: " +:+ str_exn e))).

End WithBackends.

End RagService.

(* ===================================================================== *)
(** * [routes/rag.py]: the [/rag/query] route                             *)
(* ===================================================================== *)

(** What a route hands to the web framework: a response, an
    [HTTPException] it raised, or an exception that went through it. *)
Inductive route_result : Type :=
| Response (body : pyval)
| HTTPException (status_code : Z) (detail : pyval)
| Propagated (e : exn).

(** [bool(v)] *)
Definition pyval_truthy (v : pyval) : bool :=
  match v with
  | PNone => false
  | PBool b => b
  | PInt z => negb (Z.eqb z 0)
  | PStr s => Py.truthy s
  | PList l => match l with [] => false | _ => true end
  | PDict d => match d with [] => false | _ => true end
  end.

(** [d[k]], with the [KeyError] of a missing key. *)
Definition subscript (d : pyval) (k : string) : outcome pyval :=
  match dict_get k d with
  | Some v => Return v
  | None => Raise (Exception ("'" +:+ k +:+ "'"))
  end.

Module RagRoutes.
Import Py.

Section WithBackends.
Variable B : Backends.
(** [get_rag_service()] *)
Variable service : RAGService.

(** [query_documents], lines 86-114; [current_user] is the record of the
    authenticated caller, of which the route reads ["id"]. *)
Definition query_documents (namespace query : string) (k : Z)
           (current_user_id : string) (w : World) : route_result * World :=
  if negb (truthy (strip query)) then
    (HTTPException 400 (PStr "Query cannot be empty"), w)
  else
    match RagService.query_documents B service query namespace
                                     current_user_id (Z.min k 10) w with
    | (Raise e, w') => (Propagated e, w')
    | (Return result, w') =>
        match subscript result "success" with
        | Raise e => (Propagated e, w')
        | Return success =>
            if negb (pyval_truthy success) then
              match subscript result "error" with
              | Raise e => (Propagated e, w')
              | Return error => (HTTPException 400 error, w')
              end
            else
              match subscript result "answer",
                    subscript result "sources",
                    subscript result "namespace" with
              | Return answer, Return sources, Return ns =>
                  (Response (PDict [("success", PBool true);
                                    ("answer", answer);
                                    ("sources", sources);
                                    ("namespace", ns);
                                    ("query", PStr query)]), w')
              | Raise e, _, _ => (Propagated e, w')
              | _, Raise e, _ => (Propagated e, w')
              | _, _, Raise e => (Propagated e, w')
              end
        end
    end.

End WithBackends.

End RagRoutes.

(* ===================================================================== *)
(** * [Final/main.py]: the stand-alone pipeline                           *)
(* ===================================================================== *)

Module Final.
Import Py.

Definition INDEX_NAME : string := "hugging-face-index".

Section WithBackends.
Variable B : Backends.

(** Line 210: one entry of [sources]. *)
Definition source_entry (doc : Document) : pyval :=
  PDict [("snippet",
          PStr (take 200 (page_content doc) +:+
                (if 200 <? String.length (page_content doc)
                 then "..." else "")))].

(** [retrieve_and_answer], lines 179-215. *)
Definition retrieve_and_answer (query namespace : string) : M pyval :=
  let* _ := Pinecone.from_existing_index B INDEX_NAME namespace in
  try_except
    (let* result := Pinecone.qa_chain_invoke B INDEX_NAME namespace 5 query in
     let sources := map source_entry (snd result) in
     ret (PDict [("answer", PStr (fst result));
                 ("sources", PList sources)]))
    (fun e =>
       let* _ := logger (error_querying e) in
       ret (PDict [("answer", PNone);
                   ("sources", PList []);
                   ("error", PStr (str_exn e))])).

(** The [/query] endpoint, lines 236-239. *)
Definition query_documents (namespace query : string) : M pyval :=
  let* result := retrieve_and_answer query namespace in
  ret result.

End WithBackends.

End Final.


(* ===================================================================== *)
(** * The words of the specification                                      *)
(* ===================================================================== *)

(** Section 4.1 of the specification describes the overlap seed by the
    sentence terminators of the emitted buffer; these definitions follow
    that description, to be compared with the code. *)
Module Words.
Import Py.

(** Some character of [s] is a sentence terminator. *)
Fixpoint has_terminator (s : string) : bool :=
  match s with
  | EmptyString => false
  | String c s' => is_terminator c || has_terminator s'
  end.

(** The text after the last terminator; the whole text when there is
    none. *)
Fixpoint after_last_terminator (s : string) : string :=
  match s with
  | EmptyString => EmptyString
  | String c s' =>
      if has_terminator s then after_last_terminator s' else s
  end.

(** Step 2b: the overlap seed of an emitted buffer. *)
Definition overlap_seed (emitted : string) : string :=
  if has_terminator emitted then strip (after_last_terminator emitted)
  else EmptyString.

(** Step 2c: the buffer that follows an emitted one. *)
Definition next_buffer (emitted paragraph : string) : string :=
  let overlap := overlap_seed emitted in
  if truthy overlap then overlap +:+ " " +:+ paragraph else paragraph.

End Words.


(* ===================================================================== *)
(** * The invariant of the chunker's buffer                               *)
(* ===================================================================== *)

Module Bound.
Import Py Words.

(** A buffer is either what paragraphs joined under the limit give, or a
    fresh one: an overlap and its space, free of terminators, followed by
    one paragraph. *)
Definition buffer_ok (current_chunk : string) : Prop :=
  String.length current_chunk <= 2001 \/
  exists a p, current_chunk = a +:+ p /\
              has_terminator a = false /\
              String.length a <= 2001 /\
              String.length p <= 2000.

(** No trimmed paragraph of the page is longer than 2000 characters. *)
Definition paragraphs_within (doc : Document) : Prop :=
  forall p, In p (Chunker.paragraphs_of (page_content doc)) ->
            String.length p <= 2000.

End Bound.


(* ===================================================================== *)
(** * Concrete inputs                                                     *)
(* ===================================================================== *)

Module Examples.
Import Py.

(** A blank line. *)
Definition blank : string := String "010" (String "010" EmptyString).

Definition page (text : string) : Document := mkDocument text PNone.

(** Two paragraphs of 1000 characters. *)
Definition two_paragraph_page : Document :=
  page (replicate 1000 "a" +:+ blank +:+ replicate 1000 "b").

(** The chunk that the loop makes of them: both, joined by a space. *)
Definition joined_chunk : Document :=
  page (replicate 1000 "a" +:+ " " +:+ replicate 1000 "b").

(** Paragraphs of 2, 1998 and 2000 characters, the first with a sentence
    terminator. *)
Definition overlap_page : Document :=
  page (".x" +:+ blank +:+ replicate 1998 "b" +:+ blank +:+
        replicate 2000 "c").

(** The second chunk of [overlap_page]: the overlap ["x bbb..."] of 2000
    characters, a space and the third paragraph. *)
Definition seeded_chunk : Document :=
  page ("x " +:+ replicate 1998 "b" +:+ " " +:+ replicate 2000 "c").

(** A buffer of two sentences, the second one unfinished, and the
    paragraph that does not fit after it. *)
Definition open_buffer : string :=
  "The lease ends in May. The tenant " +:+ replicate 1500 "y".

Definition next_paragraph : string := "  " +:+ replicate 900 "p" +:+ " ".

(** ** A deployment *)

(** Every upload is a PDF of two pages; a namespace of the index takes one
    write and refuses the next; the chain answers with what the namespace
    holds. *)
Definition backends : Backends := {|
  splitext_lower := fun _ => ".pdf";
  pdf_load := fun _ =>
    Return [page (replicate 150 "a"); page (replicate 150 "b")];
  docx_load := fun _ => Raise (Exception "not a docx file");
  from_documents_failure := fun v index_name ns _ =>
    match v !! (index_name, ns) with
    | Some _ => Some (Exception "upsert failed")
    | None => None
    end;
  from_existing_index_failure := fun _ _ => None;
  qa_invoke := fun v index_name ns _ _ =>
    Return ("answer", default [] (v !! (index_name, ns)))
|}.

(** The same with scanned pages that carry no text, and with a chain that
    fails. *)
Definition blank_backends : Backends := {|
  splitext_lower := fun _ => ".pdf";
  pdf_load := fun _ => Return [page "   "; page blank];
  docx_load := fun _ => Raise (Exception "not a docx file");
  from_documents_failure := fun _ _ _ _ => None;
  from_existing_index_failure := fun _ _ => None;
  qa_invoke := fun _ _ _ _ _ => Raise (Exception "model unavailable")
|}.

(** The same with an index that cannot be reached. *)
Definition offline_backends : Backends := {|
  splitext_lower := fun _ => ".pdf";
  pdf_load := fun _ => Return [page "   "];
  docx_load := fun _ => Raise (Exception "not a docx file");
  from_documents_failure := fun _ _ _ _ => None;
  from_existing_index_failure := fun _ _ => Some (Exception "index unreachable");
  qa_invoke := fun _ _ _ _ _ => Raise (Exception "model unavailable")
|}.

Definition service : RAGService :=
  mkRAGService true true true "legalai-index".

Definition draw : Draw :=
  mkDraw "0123456789abcdef0123456789abcdef" 1700000000.

Definition alice_set : DocumentSet :=
  mkDocumentSet "user_alice_89abcdef" "alice" ["uploads/user_alice/lease.pdf"]
                2 1690000000 "ready".

(** Two users; the registry is empty. *)
Definition empty_world : World :=
  mkWorld (mkJSONDatabase
             {[ "alice" := mkUser (Some "Platinum");
                "bob" := mkUser None ]}
             ∅)
          ∅ [].

(** The same, with one document set of alice in the registry and its two
    chunks in the index. *)
Definition alice_world : World :=
  mkWorld (mkJSONDatabase
             {[ "alice" := mkUser (Some "Platinum");
                "bob" := mkUser None ]}
             {[ "user_alice_89abcdef" := alice_set ]})
          {[ ("legalai-index", "user_alice_89abcdef") :=
               [page (replicate 150 "a"); page (replicate 150 "b")] ]}
          [].

End Examples.


(* ===================================================================== *)
(** * Reading a trace; the core operations as calls                       *)
(* ===================================================================== *)

(** The events that a run from [w] to [w'] added. *)
Definition new_events (w w' : World) : list Event :=
  skipn (length (trace w)) (trace w').

(** The exceptions of the batch writes that failed. *)
Fixpoint failed_writes (t : list Event) : list exn :=
  match t with
  | [] => []
  | FromDocuments _ _ _ (Some e) :: rest => e :: failed_writes rest
  | _ :: rest => failed_writes rest
  end.

(** The batches that were written. *)
Fixpoint written_batches (t : list Event) : list (list Document) :=
  match t with
  | [] => []
  | FromDocuments _ _ batch None :: rest => batch :: written_batches rest
  | _ :: rest => written_batches rest
  end.

(** The batches of lines 188-189. *)
Definition batches_of (chunks : list Document) (batch_size : Z)
  : list (list Document) :=
  if Z.ltb 0 batch_size then
    map (fun i => firstn (Z.to_nat batch_size) (skipn i chunks))
        (RagService.range_step (length chunks) (Z.to_nat batch_size))
  else [].

(** A run that leaves the database as it is and in which the batch writes
    that failed raised [fw]. *)
Definition quiet (fw : list exn) (w w' : World) : Prop :=
  db w' = db w /\
  exists new, trace w' = trace w ++ new /\ failed_writes new = fw.

(** The [k] of every retrieval. *)
Fixpoint retrieval_ks (t : list Event) : list Z :=
  match t with
  | [] => []
  | QAInvoke _ _ k _ _ :: rest => k :: retrieval_ks rest
  | _ :: rest => retrieval_ks rest
  end.

(** The exceptions that the index and the chain raised while answering. *)
Fixpoint backend_failures (t : list Event) : list exn :=
  match t with
  | [] => []
  | FromExistingIndex _ _ (Some e) :: rest => e :: backend_failures rest
  | QAInvoke _ _ _ _ (Raise e) :: rest => e :: backend_failures rest
  | _ :: rest => backend_failures rest
  end.

(** The namespaces that the calls to the vector index name. *)
Fixpoint namespaces_used (t : list Event) : list string :=
  match t with
  | [] => []
  | FromDocuments _ ns _ _ :: rest => ns :: namespaces_used rest
  | FromExistingIndex _ ns _ :: rest => ns :: namespaces_used rest
  | QAInvoke _ ns _ _ _ :: rest => ns :: namespaces_used rest
  | _ :: rest => namespaces_used rest
  end.

(** The error object that section 4.3 of the specification promises:
    [{answer: null, sources: [], error: message}]. *)
Definition structured_error (v : pyval) : Prop :=
  dict_get "answer" v = Some PNone /\
  dict_get "sources" v = Some (PList []) /\
  exists message, dict_get "error" v = Some (PStr message).

(** The error kinds of section 7 that the answering operation is to tell
    apart. *)
Inductive ErrorKind : Type := NotFound | AccessDenied | OtherError.

(** Every record of the registry is stored under its own identifier, which
    is the one that an ingestion builds for its owner (line 184 of
    [services/rag.py]). *)
Definition registry_wf (d : JSONDatabase) : Prop :=
  forall ns ds,
    document_sets d !! ns = Some ds ->
    id ds = ns /\
    exists h, String.length h = 8 /\
              ns = "user_" +:+ user_id ds +:+ "_" +:+ h.

(** The caller is not the owner of a record under this namespace: there is
    none, or it belongs to someone else. *)
Definition not_owner (d : JSONDatabase) (ns uid : string) : Prop :=
  forall ds, document_sets d !! ns = Some ds -> user_id ds <> uid.

Section AnswerRuns.
Variable B : Backends.
Variable self : RAGService.

(** The success dictionary of [query_documents]. *)
Definition answer_dict (ns : string) (result : string * list Document)
  : pyval :=
  PDict [("success", PBool true);
         ("answer", PStr (fst result));
         ("sources", PList (map RagService.source_entry (snd result)));
         ("namespace", PStr ns)].

(** What a call of [query_documents] can do. *)
Inductive answer_run (query ns uid : string) (k : Z) (w : World)
  : outcome pyval -> World -> Prop :=
| run_refused msg :
    (pc self = true -> embeddings self = true -> llm self = true ->
     not_owner (db w) ns uid /\
     msg = "Document set not found or access denied") ->
    answer_run query ns uid k w (Return (failure_dict msg)) w
| run_unreachable ds e :
    document_sets (db w) !! ns = Some ds -> user_id ds = uid ->
    from_existing_index_failure B (index_name self) ns = Some e ->
    answer_run query ns uid k w
      (Return (failure_dict ("Error querying documents: " +:+ str_exn e)))
      (mkWorld (db w) (vectors w)
         (trace w ++ [FromExistingIndex (index_name self) ns (Some e);
                      Logged (error_querying e)]))
| run_failed ds e :
    document_sets (db w) !! ns = Some ds -> user_id ds = uid ->
    from_existing_index_failure B (index_name self) ns = None ->
    qa_invoke B (vectors w) (index_name self) ns k query = Raise e ->
    answer_run query ns uid k w
      (Return (failure_dict ("Error querying documents: " +:+ str_exn e)))
      (mkWorld (db w) (vectors w)
         (trace w ++ [FromExistingIndex (index_name self) ns None;
                      QAInvoke (index_name self) ns k query (Raise e);
                      Logged (error_querying e)]))
| run_answered ds result :
    document_sets (db w) !! ns = Some ds -> user_id ds = uid ->
    from_existing_index_failure B (index_name self) ns = None ->
    qa_invoke B (vectors w) (index_name self) ns k query = Return result ->
    answer_run query ns uid k w
      (Return (answer_dict ns result))
      (mkWorld (db w) (vectors w)
         (trace w ++ [FromExistingIndex (index_name self) ns None;
                      QAInvoke (index_name self) ns k query
                               (Return result)])).

End AnswerRuns.

(** The core operations of the service.  [IngestTry] is the [try]
    statement of [process_and_store_documents], which a call reaches
    behind the subscription and configuration guards. *)
Inductive CoreCall : Type :=
| Ingest (draw : Draw) (file_paths : list string) (uid : string)
         (batch_size : Z)
| IngestTry (draw : Draw) (file_paths : list string) (uid : string)
            (batch_size : Z)
| Answer (query namespace uid : string) (k : Z)
| ListSets (uid : string)
| Delete (namespace uid : string).

(** The world that a call leaves. *)
Definition run_call (B : Backends) (self : RAGService) (c : CoreCall)
           (w : World) : World :=
  match c with
  | Ingest draw fps uid bs =>
      snd (RagService.process_and_store_documents B self draw fps uid bs w)
  | IngestTry draw fps uid bs =>
      snd (RagService.process_and_store_documents_try B self draw fps uid bs w)
  | Answer query ns uid k =>
      snd (RagService.query_documents B self query ns uid k w)
  | ListSets uid => snd (RagService.get_user_document_sets uid w)
  | Delete ns uid => snd (RagService.delete_document_set ns uid w)
  end.

(** The world after a sequence of calls. *)
Definition run_calls (B : Backends) (self : RAGService)
           (calls : list CoreCall) (w : World) : World :=
  fold_left (fun w c => run_call B self c w) calls w.

(** [uuid.uuid4().hex] has 32 digits. *)
Definition well_drawn (c : CoreCall) : Prop :=
  match c with
  | Ingest draw _ _ _ | IngestTry draw _ _ _ =>
      String.length (uuid4_hex draw) = 32
  | _ => True
  end.


(* ===================================================================== *)
(** * Measures on pages                                                   *)
(* ===================================================================== *)

Module Pages.
Import Py.

(** [" ".join(paragraphs)] *)
Definition join_spaces (paragraphs : list string) : string :=
  String.concat " " paragraphs.

(** The number of chunks that a buffer still owes: one when it holds
    text. *)
Definition occupied (current_chunk : string) : nat :=
  if truthy current_chunk then 1 else 0.

(** The characters of a list of pieces. *)
Definition total_length (pieces : list string) : nat :=
  list_sum (map String.length pieces).

End Pages.

(* ===================================================================== *)
(** * What a run leaves in the index                                      *)
(* ===================================================================== *)

(** The chunks that the index holds under a namespace. *)
Definition stored_under (v : VectorIndex) (index_name namespace : string)
  : list Document :=
  default [] (v !! (index_name, namespace)).

(** [ext] is one of the formats of [load_documents] in
    [services/rag.py]. *)
Definition supported_format (ext : string) : bool :=
  String.eqb ext ".pdf" || String.eqb ext ".docx".

(* ===================================================================== *)
(** * [routes/rag.py]: the routes of the registry                         *)
(* ===================================================================== *)

Module Posix.

Definition is_sep (c : ascii) : bool := Ascii.eqb c "/".

(** [sep in p] *)
Fixpoint has_sep (p : string) : bool :=
  match p with
  | EmptyString => false
  | String c rest => is_sep c || has_sep rest
  end.

(** [os.path.basename(p)] of [posixpath]: [p[p.rfind('/') + 1:]], what
    follows the last separator. *)
Fixpoint basename (p : string) : string :=
  match p with
  | EmptyString => EmptyString
  | String c rest =>
      if has_sep rest then basename rest
      else if is_sep c then rest
      else p
  end.

End Posix.

Module RegistryRoutes.
Import Py.

(** Lines 127-133: one entry of [formatted_sets]. *)
Definition formatted_set (ds : DocumentSet) : pyval :=
  PDict [("id", PStr (id ds));
         ("file_names",
          PList (map (fun fp => PStr (Posix.basename fp)) (file_paths ds)));
         ("chunk_count", PInt (Z.of_nat (chunk_count ds)));
         ("created_at", PInt (created_at ds));
         ("status", PStr (status ds))].

(** [get_document_sets], lines 116-139. *)
Definition get_document_sets (current_user_id : string) (w : World)
  : route_result * World :=
  match RagService.get_user_document_sets current_user_id w with
  | (Raise e, w') => (Propagated e, w')
  | (Return document_sets, w') =>
      let formatted_sets := map formatted_set document_sets in
      (Response (PDict [("success", PBool true);
                        ("document_sets", PList formatted_sets);
                        ("total",
                         PInt (Z.of_nat (length formatted_sets)))]),
       w')
  end.

(** [delete_document_set], lines 141-156. *)
Definition delete_document_set (namespace current_user_id : string)
           (w : World) : route_result * World :=
  match RagService.delete_document_set namespace current_user_id w with
  | (Raise e, w') => (Propagated e, w')
  | (Return result, w') =>
      match subscript result "success" with
      | Raise e => (Propagated e, w')
      | Return success =>
          if negb (pyval_truthy success) then
            match subscript result "error" with
            | Raise e => (Propagated e, w')
            | Return error => (HTTPException 400 error, w')
            end
          else
            (Response (PDict [("success", PBool true);
                              ("message",
                               PStr "Document set deleted successfully")]),
             w')
      end
  end.

End RegistryRoutes.

(* ===================================================================== *)
(** * [routes/rag.py]: the [/rag/upload] route                            *)
(* ===================================================================== *)

(** [fastapi.UploadFile]: the name that the client sent, if any, and the
    bytes of the file. *)
Record UploadFile : Type := mkUploadFile {
  filename : option string;
  content : string
}.

(** The files under [uploads/], by path. *)
Abbreviation Disk := (gmap string string).

(** The server: the world of the services and the disk. *)
Record Site : Type := mkSite {
  world : World;
  disk : Disk
}.

(** What the route asks of the operating system and of the web
    framework. *)
Record Host : Type := mkHost {
  (** [user_upload_dir.mkdir(parents=True, exist_ok=True)]: [Some e] when
      it raises. *)
  mkdir_failure : string -> option exn;
  (** [str(user_upload_dir / file.filename)] *)
  joinpath : string -> string -> string;
  (** [aiofiles.open(file_path, 'wb')]: [Some e] when it raises, the disk
      being as it was; otherwise the file is there and empty. *)
  open_failure : Disk -> string -> option exn;
  (** [content = await file.read()], [await f.write(content)] and the
      closing of the file, on the disk with the file opened:
      [Some (e, partial)] when one of them raises [e], [partial] being what
      the file holds then (nothing when the read failed, some part of the
      content when the write did). *)
  transfer_failure : Disk -> string -> string -> option (exn * string);
  (** [os.remove(file_path)] on a file that is there: [true] when it
      raises, so that the file stays. *)
  remove_failure : Disk -> string -> bool;
  (** [', '.join(allowed_extensions)], in the order in which the set is
      iterated. *)
  allowed_joined : string;
  (** [str(HTTPException(status_code, detail))] *)
  http_str : Z -> pyval -> string
}.

Module UploadRoute.
Import Py.

(** Line 29. *)
Definition allowed_extensions : list string := [".pdf"; ".docx"; ".doc"].

(** The paths that the route can make of the names that were sent. *)
Definition sent_path (H : Host) (dir : string) (files : list UploadFile)
           (p : string) : Prop :=
  exists file name,
    In file files /\ filename file = Some name /\ p = joinpath H dir name.

Section WithBackends.
Variable H : Host.
Variable B : Backends.
(** [get_rag_service()]: the service of the process, or the exception
    of [RAGService()] when this call is the one that builds it.
    (Building it may create the index on the side of the provider; it
    writes no vector and no record.) *)
Variable service : outcome RAGService.

(** An [HTTPException] raised inside the [try]: the handler reads its
    [str] only. *)
Definition http_exception (status_code : Z) (detail : pyval) : exn :=
  Exception (http_str H status_code detail).

(** Lines 79-83: [os.remove] on each path in turn, an exception passed
    over: that of a removal that fails, which leaves the file, or that
    of a path that holds no file any more. *)
Definition remove_all (uploaded_files : list string) (d : Disk) : Disk :=
  fold_left (fun d file_path =>
               if remove_failure H d file_path then d
               else delete file_path d)
            uploaded_files d.

(** Lines 38-55: [for file in files].  The list [uploaded_files] is
    shared with the handler, so the loop hands it back also when it
    raises.  A file whose reading or writing fails after it was opened
    stays on the disk and is not in the list. *)
Fixpoint save_files (user_upload_dir : string) (files : list UploadFile)
         (uploaded_files : list string) (d : Disk)
  : option exn * list string * Disk :=
  match files with
  | [] => (None, uploaded_files, d)
  | file :: rest =>
      match filename file with
      | None => save_files user_upload_dir rest uploaded_files d
      | Some name =>
          if negb (truthy name) then
            save_files user_upload_dir rest uploaded_files d
          else
            let file_ext := splitext_lower B name in
            if negb (existsb (String.eqb file_ext) allowed_extensions) then
              (Some (http_exception 400
                       (PStr ("Unsupported file type: " +:+ file_ext +:+
                              ". Allowed: " +:+ allowed_joined H))),
               uploaded_files, d)
            else
              let file_path := joinpath H user_upload_dir name in
              match open_failure H d file_path with
              | Some e => (Some e, uploaded_files, d)
              | None =>
                  let opened := <[file_path := ""]> d in
                  match transfer_failure H opened file_path
                                         (content file) with
                  | Some (e, partial) =>
                      (Some e, uploaded_files,
                       <[file_path := partial]> d)
                  | None =>
                      save_files user_upload_dir rest
                                 (uploaded_files ++ [file_path])
                                 (<[file_path := content file]> d)
                  end
              end
      end
  end.

(** Lines 60-75: the call of the service and the reading of its
    result. *)
Definition process_uploaded (draw : Draw) (uploaded_files : list string)
           (current_user_id : string) (w : World)
  : outcome pyval * World :=
  match service with
  | Raise e => (Raise e, w)
  | Return rag_service =>
  match RagService.process_and_store_documents
          B rag_service draw uploaded_files current_user_id 64 w with
  | (Raise e, w') => (Raise e, w')
  | (Return result, w') =>
      match subscript result "success" with
      | Raise e => (Raise e, w')
      | Return success =>
          if negb (pyval_truthy success) then
            match subscript result "error" with
            | Raise e => (Raise e, w')
            | Return error => (Raise (http_exception 400 error), w')
            end
          else
            match subscript result "namespace",
                  subscript result "chunks_created" with
            | Return ns, Return chunks_created =>
                (Return
                   (PDict [("success", PBool true);
                           ("message",
                            PStr "Documents uploaded and processed successfully");
                           ("namespace", ns);
                           ("chunks_created", chunks_created);
                           ("files_processed",
                            PInt (Z.of_nat (length uploaded_files)))]),
                 w')
            | Raise e, _ => (Raise e, w')
            | _, Raise e => (Raise e, w')
            end
      end
  end
  end.

(** Lines 33-75: the body of the [try], with [uploaded_files] as it
    stands when the body ends. *)
Definition upload_documents_body (draw : Draw) (files : list UploadFile)
           (current_user_id : string) (s : Site)
  : outcome pyval * list string * Site :=
  let user_upload_dir := "uploads/user_" +:+ current_user_id in
  match mkdir_failure H user_upload_dir with
  | Some e => (Raise e, [], s)
  | None =>
      match save_files user_upload_dir files [] (disk s) with
      | (Some e, uploaded_files, d) =>
          (Raise e, uploaded_files, mkSite (world s) d)
      | (None, uploaded_files, d) =>
          match uploaded_files with
          | [] =>
              (Raise (http_exception 400 (PStr "No valid files uploaded")),
               uploaded_files, mkSite (world s) d)
          | _ :: _ =>
              let '(r, w') :=
                process_uploaded draw uploaded_files current_user_id
                                 (world s) in
              (r, uploaded_files, mkSite w' d)
          end
      end
  end.

(** The function [upload_documents], lines 21-84, as the framework
    calls it: [current_user_id] is the ["id"] of the user that
    [get_current_user] has identified and [files] is the field of the
    form. *)
Definition upload_documents (draw : Draw) (files : list UploadFile)
           (current_user_id : string) (s : Site) : route_result * Site :=
  match upload_documents_body draw files current_user_id s with
  | (Return body, _, s') => (Response body, s')
  | (Raise e, uploaded_files, s') =>
      (HTTPException 500
         (PStr ("Error processing documents: " +:+ str_exn e)),
       mkSite (world s') (remove_all uploaded_files (disk s')))
  end.

End WithBackends.

End UploadRoute.

(* ===================================================================== *)
(** * The index along a run                                               *)
(* ===================================================================== *)

(** From [w] to [w'] the namespace gained the batches [bs], in order, and
    the other namespaces stayed as they were. *)
Definition gained (index_name namespace : string)
           (bs : list (list Document)) (w w' : World) : Prop :=
  stored_under (vectors w') index_name namespace =
    stored_under (vectors w) index_name namespace ++ List.concat bs /\
  forall key, key <> (index_name, namespace) ->
              vectors w' !! key = vectors w !! key.

(* ===================================================================== *)
(** * [services/subscription.py]: the weekly limits                       *)
(* ===================================================================== *)

(** A record of [case_studies.json] or of [bookings.json]: the two keys
    that the limits read, ["user_id"] ([None] when the key is absent) and
    ["created_at"]. *)
Record UsageRecord : Type := mkUsageRecord {
  usage_user_id : option string;
  usage_created_at : string
}.

(** The two files of [data/] that record the use of the service. *)
Record Usage : Type := mkUsage {
  case_studies : gmap string UsageRecord;
  bookings : gmap string UsageRecord
}.

(** The clock of one call. *)
Record Clock : Type := mkClock {
  (** [datetime.fromisoformat(created_at) > week_ago], where [week_ago] is
      [datetime.now() - timedelta(days=7)]; it raises on a stamp that
      does not parse. *)
  within_week : string -> outcome bool;
  (** [(datetime.now() + timedelta(days=7)).isoformat()] *)
  resets_at : string
}.

Module Limits.
Import Subscription.

(** [tier.value] *)
Definition value (tier : SubscriptionTier) : string :=
  match tier with
  | BASIC => "Basic"
  | STANDARD => "Standard"
  | PREMIUM => "Premium"
  | PLATINUM => "Platinum"
  end.

(** [get_user_case_studies] and [get_user_bookings] of
    [database/json_db.py], lines 179-182 and 221-224. *)
Definition records_of (collection : gmap string UsageRecord) (uid : string)
  : list UsageRecord :=
  List.filter (fun r => match usage_user_id r with
                        | Some owner => String.eqb owner uid
                        | None => false
                        end)
              (map snd (map_to_list collection)).

Definition get_user_case_studies (u : Usage) (uid : string)
  : list UsageRecord := records_of (case_studies u) uid.

Definition get_user_bookings (u : Usage) (uid : string)
  : list UsageRecord := records_of (bookings u) uid.

(** The comprehension of lines 67-70 and 104-107: the records of the
    last seven days, or the exception of the first stamp that does not
    parse. *)
Fixpoint recent (c : Clock) (records : list UsageRecord)
  : outcome (list UsageRecord) :=
  match records with
  | [] => Return []
  | r :: rest =>
      match within_week c (usage_created_at r) with
      | Raise e => Raise e
      | Return keep =>
          match recent c rest with
          | Raise e => Raise e
          | Return l => Return (if keep then r :: l else l)
          end
      end
  end.

(** Lines 72-81 and 109-118: the count and the dictionary. *)
Definition usage_dict (c : Clock) (weekly_limit : nat)
           (recent_records : list UsageRecord) : pyval :=
  let used_count := length recent_records in
  let remaining :=
    Z.max 0 (Z.of_nat weekly_limit - Z.of_nat used_count) in
  PDict [("allowed", PBool (0 <? remaining)%Z);
         ("remaining", PInt remaining);
         ("used", PInt (Z.of_nat used_count));
         ("limit", PInt (Z.of_nat weekly_limit));
         ("resets_at", PStr (resets_at c))].

(** [check_case_study_limit], lines 50-81. *)
Definition check_case_study_limit (d : JSONDatabase) (u : Usage) (c : Clock)
           (uid : string) : outcome pyval :=
  match JsonDb.get_user_by_id d uid with
  | None =>
      Return (PDict [("allowed", PBool false);
                     ("reason", PStr "User not found")])
  | Some user =>
      match SubscriptionTier_of (default "Basic" (subscription_tier user)) with
      | Raise e => Raise e
      | Return tier =>
          match case_study_weekly_limit (TIER_LIMITS tier) with
          | None =>
              Return (PDict [("allowed", PBool true);
                             ("remaining", PStr "unlimited")])
          | Some weekly_limit =>
              let case_studies := get_user_case_studies u uid in
              match recent c case_studies with
              | Raise e => Raise e
              | Return recent_studies =>
                  Return (usage_dict c weekly_limit recent_studies)
              end
          end
      end
  end.

(** [check_expert_advice_limit], lines 83-118. *)
Definition check_expert_advice_limit (d : JSONDatabase) (u : Usage)
           (c : Clock) (uid : string) : outcome pyval :=
  match JsonDb.get_user_by_id d uid with
  | None =>
      Return (PDict [("allowed", PBool false);
                     ("reason", PStr "User not found")])
  | Some user =>
      match SubscriptionTier_of (default "Basic" (subscription_tier user)) with
      | Raise e => Raise e
      | Return tier =>
          match expert_advice_weekly_limit (TIER_LIMITS tier) with
          | Some 0 =>
              Return (PDict [("allowed", PBool false);
                             ("reason",
                              PStr (value tier +:+
                                    " tier doesn't include expert advice"))])
          | None =>
              Return (PDict [("allowed", PBool true);
                             ("remaining", PStr "unlimited")])
          | Some weekly_limit =>
              let bookings := get_user_bookings u uid in
              match recent c bookings with
              | Raise e => Raise e
              | Return recent_bookings =>
                  Return (usage_dict c weekly_limit recent_bookings)
              end
          end
      end
  end.

(** The tier of a user, when the stored value names one. *)
Definition tier_of (d : JSONDatabase) (uid : string)
  : option SubscriptionTier :=
  match users d !! uid with
  | None => None
  | Some user =>
      match SubscriptionTier_of (default "Basic" (subscription_tier user)) with
      | Return tier => Some tier
      | Raise _ => None
      end
  end.

End Limits.

(* ===================================================================== *)
(** * More concrete inputs                                                *)
(* ===================================================================== *)

Module MoreExamples.
Import Py.

(** A deployment that tells a Word 97 file from a PDF, and whose index
    takes every write. *)
Definition mixed_backends : Backends := {|
  splitext_lower := fun file_path =>
    if String.eqb file_path "uploads/user_alice/notes.doc" then ".doc"
    else ".pdf";
  pdf_load := fun _ =>
    Return [Examples.page (replicate 150 "a");
            Examples.page (replicate 150 "b")];
  docx_load := fun _ => Raise (Exception "not a docx file");
  from_documents_failure := fun _ _ _ _ => None;
  from_existing_index_failure := fun _ _ => None;
  qa_invoke := fun v index_name ns _ _ =>
    Return ("answer", default [] (v !! (index_name, ns)))
|}.

End MoreExamples.

Module LimitExamples.

(** Stamps are read as days; day 100 is today. *)
Definition clock : Clock := {|
  within_week := fun created_at =>
    if String.eqb created_at "day 99" then Return true
    else if String.eqb created_at "day 80" then Return false
    else Raise (Exception ("Invalid isoformat string: '" +:+ created_at
                           +:+ "'"));
  resets_at := "day 107"
|}.

(** carol is a Premium user; dave is a Basic one. *)
Definition database : JSONDatabase :=
  mkJSONDatabase {[ "carol" := mkUser (Some "Premium");
                    "dave" := mkUser (Some "Basic") ]} ∅.

(** carol booked twice this week and once before; dave studied five
    cases this week. *)
Definition usage : Usage := {|
  case_studies :=
    {[ "s1" := mkUsageRecord (Some "dave") "day 99";
       "s2" := mkUsageRecord (Some "dave") "day 99";
       "s3" := mkUsageRecord (Some "dave") "day 99";
       "s4" := mkUsageRecord (Some "dave") "day 99";
       "s5" := mkUsageRecord (Some "dave") "day 99" ]};
  bookings :=
    {[ "b1" := mkUsageRecord (Some "carol") "day 99";
       "b2" := mkUsageRecord (Some "carol") "day 80";
       "b3" := mkUsageRecord (Some "carol") "day 99" ]}
|}.

End LimitExamples.


(* ===================================================================== *)
(** * Facts about the string primitives                                   *)
(* ===================================================================== *)

Module StrFacts.
Import Py Words.

Lemma app_cons c s t : String c s +:+ t = String c (s +:+ t).
Proof. reflexivity. Qed.

Lemma app_nil_l t : "" +:+ t = t.
Proof. reflexivity. Qed.

Lemma app_nil_r s : s +:+ "" = s.
Proof. induction s as [|c s IH]; [reflexivity|]. now rewrite app_cons, IH. Qed.

Lemma app_assoc s t u : (s +:+ t) +:+ u = s +:+ (t +:+ u).
Proof.
  induction s as [|c s IH]; [reflexivity|]. now rewrite !app_cons, IH.
Qed.

Lemma length_app s t :
  String.length (s +:+ t) = String.length s + String.length t.
Proof.
  induction s as [|c s IH]; [reflexivity|].
  rewrite app_cons. simpl. now rewrite IH.
Qed.

Lemma truthy_false s : truthy s = false -> s = "".
Proof. now destruct s. Qed.

Lemma lstrip_length s : String.length (lstrip s) <= String.length s.
Proof.
  induction s as [|c s IH]; simpl; [lia|].
  destruct (isspace c); simpl; lia.
Qed.

Lemma rstrip_length s : String.length (rstrip s) <= String.length s.
Proof.
  induction s as [|c s IH]; simpl; [lia|].
  destruct (rstrip s) as [|c' r]; [destruct (isspace c)|]; simpl in *; lia.
Qed.

Lemma strip_length s : String.length (strip s) <= String.length s.
Proof.
  unfold strip. pose proof (rstrip_length (lstrip s)).
  pose proof (lstrip_length s). lia.
Qed.

Lemma rstrip_idem s : rstrip (rstrip s) = rstrip s.
Proof.
  induction s as [|c s IH]; [reflexivity|]. simpl.
  destruct (rstrip s) as [|c' r] eqn:E.
  - destruct (isspace c) eqn:Ec; simpl; [reflexivity|]. now rewrite Ec.
  - simpl in *. now rewrite IH.
Qed.

Lemma lstrip_rstrip s : lstrip (rstrip s) = rstrip (lstrip s).
Proof.
  induction s as [|c s IH]; [reflexivity|].
  simpl. destruct (isspace c) eqn:Ec.
  - rewrite <- IH. destruct (rstrip s) as [|c' r]; simpl; [reflexivity|].
    now rewrite Ec.
  - simpl. destruct (rstrip s) as [|c' r]; simpl; now rewrite Ec.
Qed.

Lemma strip_rstrip s : strip (rstrip s) = strip s.
Proof. unfold strip. now rewrite lstrip_rstrip, rstrip_idem. Qed.

Lemma lstrip_idem s : lstrip (lstrip s) = lstrip s.
Proof.
  induction s as [|c s IH]; [reflexivity|].
  simpl. destruct (isspace c) eqn:Ec; [exact IH|]. simpl. now rewrite Ec.
Qed.

Lemma strip_idem s : strip (strip s) = strip s.
Proof.
  unfold strip at 2. rewrite strip_rstrip. unfold strip.
  now rewrite lstrip_idem.
Qed.


(** ** Sentence terminators *)

Lemma terminator_not_space c : is_terminator c = true -> isspace c = false.
Proof.
  destruct c as [[] [] [] [] [] [] [] []]; simpl; congruence.
Qed.

Lemma has_terminator_app s t :
  has_terminator (s +:+ t) = has_terminator s || has_terminator t.
Proof.
  induction s as [|c s IH]; [reflexivity|].
  rewrite app_cons. simpl. rewrite IH. now rewrite orb_assoc.
Qed.

Lemma has_terminator_lstrip s : has_terminator (lstrip s) = has_terminator s.
Proof.
  induction s as [|c s IH]; [reflexivity|]. simpl.
  destruct (isspace c) eqn:Ec; [|reflexivity].
  rewrite IH. destruct (is_terminator c) eqn:Et; [|reflexivity].
  apply terminator_not_space in Et. congruence.
Qed.

Lemma has_terminator_rstrip s : has_terminator (rstrip s) = has_terminator s.
Proof.
  induction s as [|c s IH]; [reflexivity|]. simpl.
  destruct (rstrip s) as [|c' r] eqn:E.
  - rewrite <- IH. simpl. destruct (isspace c) eqn:Ec; simpl.
    + destruct (is_terminator c) eqn:Et; [|reflexivity].
      apply terminator_not_space in Et. congruence.
    + now rewrite orb_false_r.
  - simpl in *. now rewrite IH.
Qed.

Lemma has_terminator_strip s : has_terminator (strip s) = has_terminator s.
Proof. unfold strip. now rewrite has_terminator_rstrip, has_terminator_lstrip. Qed.

Lemma re_split_from_nonempty b s : re_split_from b s <> [].
Proof.
  destruct s as [|c s]; simpl; [discriminate|].
  destruct (is_terminator c).
  - destruct b; [|discriminate].
    revert c. induction s as [|c' s IH]; intros c; simpl; [discriminate|].
    destruct (is_terminator c'); [apply (IH c')|].
    destruct (re_split_from false s); discriminate.
  - destruct (re_split_from false s); discriminate.
Qed.

Lemma length_push c ps : ps <> [] -> length (push c ps) = length ps.
Proof. destruct ps; [congruence|reflexivity]. Qed.

Lemma last_push c p q r d :
  List.last (push c (p :: q :: r)) d = List.last (p :: q :: r) d.
Proof. reflexivity. Qed.

(** Every piece of a split is free of terminators. *)
Lemma re_split_from_pieces b s :
  Forall (fun p => has_terminator p = false) (re_split_from b s).
Proof.
  revert b. induction s as [|c s IH]; intros b; simpl.
  - constructor; [reflexivity|constructor].
  - destruct (is_terminator c) eqn:Et.
    + destruct b; [apply IH|]. constructor; [reflexivity|apply IH].
    + specialize (IH false). destruct (re_split_from false s) as [|p ps]; simpl.
      * constructor; [simpl; now rewrite Et|constructor].
      * inversion IH; subst. constructor; [simpl; now rewrite Et|assumption].
Qed.

(** A split yields more than one piece exactly when a terminator occurs. *)
Lemma re_split_count s :
  (1 <? length (re_split s)) = has_terminator s.
Proof.
  unfold re_split. induction s as [|c s IH]; [reflexivity|]. simpl.
  destruct (is_terminator c); simpl.
  - pose proof (re_split_from_nonempty true s).
    destruct (re_split_from true s); [congruence|reflexivity].
  - rewrite length_push by apply re_split_from_nonempty. exact IH.
Qed.

Lemma re_split_no_terminator b s :
  has_terminator s = false -> re_split_from b s = [s].
Proof.
  revert b. induction s as [|c s IH]; intros b H; [reflexivity|].
  simpl in *. apply orb_false_iff in H as [Hc Hs].
  rewrite Hc. now rewrite (IH false Hs).
Qed.

Lemma after_last_none s :
  has_terminator s = false -> after_last_terminator s = s.
Proof. destruct s as [|c s]; [reflexivity|]. intros H. simpl in *. now rewrite H. Qed.

Lemma re_split_last b s :
  List.last (re_split_from b s) "" = after_last_terminator s.
Proof.
  revert b. induction s as [|c s IH]; intros b; [reflexivity|].
  cbn [re_split_from after_last_terminator has_terminator].
  destruct (is_terminator c) eqn:Et; cbn [orb].
  - destruct b; [apply IH|].
    pose proof (re_split_from_nonempty true s).
    specialize (IH true).
    destruct (re_split_from true s); [congruence|exact IH].
  - destruct (has_terminator s) eqn:Hs.
    + pose proof (re_split_count s) as Hc. unfold re_split in Hc.
      rewrite Hs in Hc. specialize (IH false).
      destruct (re_split_from false s) as [|p [|q r]]; try discriminate.
      exact IH.
    + now rewrite (re_split_no_terminator false s Hs).
Qed.

Lemma length_after_last s :
  has_terminator s = true ->
  S (String.length (after_last_terminator s)) <= String.length s.
Proof.
  induction s as [|c s IH]; [discriminate|]. intros H.
  cbn [after_last_terminator]. rewrite H. simpl in *.
  destruct (has_terminator s) eqn:Hs.
  - specialize (IH eq_refl). lia.
  - rewrite (after_last_none s Hs). lia.
Qed.

Lemma after_last_no_terminator s :
  has_terminator (after_last_terminator s) = false.
Proof.
  induction s as [|c s IH]; [reflexivity|].
  cbn [after_last_terminator].
  destruct (has_terminator (String c s)) eqn:H; [exact IH|exact H].
Qed.

(** A prefix without terminators stays in the first piece. *)
Lemma after_last_app a p :
  has_terminator a = false -> has_terminator p = true ->
  after_last_terminator (a +:+ p) = after_last_terminator p.
Proof.
  induction a as [|c a IH]; intros Ha Hp; [reflexivity|].
  rewrite app_cons. cbn [after_last_terminator has_terminator].
  simpl in Ha. apply orb_false_iff in Ha as [Hc Ha].
  rewrite has_terminator_app, Hp, orb_true_r, orb_true_r.
  now apply IH.
Qed.

Lemma after_last_lstrip s :
  has_terminator s = true ->
  after_last_terminator (lstrip s) = after_last_terminator s.
Proof.
  induction s as [|c s IH]; [reflexivity|]. intros H.
  cbn [lstrip]. destruct (isspace c) eqn:Ec; [|reflexivity].
  cbn [after_last_terminator]. rewrite H.
  apply IH. simpl in H. destruct (is_terminator c) eqn:Et; [|exact H].
  apply terminator_not_space in Et. congruence.
Qed.

Lemma rstrip_cons_nonspace c s :
  isspace c = false -> rstrip (String c s) = String c (rstrip s).
Proof. intros H. simpl. destruct (rstrip s); [now rewrite H|reflexivity]. Qed.

Lemma rstrip_cons_nonempty c s :
  rstrip s <> "" -> rstrip (String c s) = String c (rstrip s).
Proof. intros H. simpl. destruct (rstrip s); [congruence|reflexivity]. Qed.

Lemma has_terminator_nonempty s : has_terminator s = true -> s <> "".
Proof. destruct s; [discriminate|discriminate]. Qed.

Lemma after_last_rstrip s :
  has_terminator s = true ->
  after_last_terminator (rstrip s) = rstrip (after_last_terminator s).
Proof.
  induction s as [|c s IH]; [reflexivity|]. intros H.
  cbn [after_last_terminator]. rewrite H.
  destruct (has_terminator s) eqn:Hs.
  - rewrite rstrip_cons_nonempty.
    + cbn [after_last_terminator has_terminator].
      rewrite has_terminator_rstrip, Hs, orb_true_r. now apply IH.
    + apply has_terminator_nonempty. now rewrite has_terminator_rstrip.
  - simpl in H. rewrite Hs, orb_false_r in H.
    rewrite rstrip_cons_nonspace by now apply terminator_not_space.
    cbn [after_last_terminator has_terminator]. rewrite H. cbn [orb].
    rewrite !after_last_none; try reflexivity; try assumption.
    now rewrite has_terminator_rstrip.
Qed.

Lemma after_last_strip s :
  has_terminator s = true ->
  strip (after_last_terminator (strip s)) = strip (after_last_terminator s).
Proof.
  intros H. unfold strip at 2.
  rewrite after_last_rstrip by now rewrite has_terminator_lstrip.
  rewrite strip_rstrip. now rewrite after_last_lstrip.
Qed.

End StrFacts.



(* ===================================================================== *)
(** * The chunker: order and independence of pages                        *)
(* ===================================================================== *)

Module ChunkerFacts.
Import Py Words StrFacts Chunker.

Lemma para_step_acc meta cc acc out para :
  para_step meta (cc, acc ++ out) para =
  (fst (para_step meta (cc, out) para),
   acc ++ snd (para_step meta (cc, out) para)).
Proof.
  unfold para_step.
  destruct (negb (truthy (strip para))); [reflexivity|].
  destruct ((2000 <? String.length cc + String.length (strip para))
            && truthy cc); simpl; [|reflexivity].
  now rewrite <- List.app_assoc.
Qed.

Lemma fold_para_step_acc meta paras cc acc out :
  fold_left (para_step meta) paras (cc, acc ++ out) =
  (fst (fold_left (para_step meta) paras (cc, out)),
   acc ++ snd (fold_left (para_step meta) paras (cc, out))).
Proof.
  revert cc out. induction paras as [|p paras IH]; intros cc out; [reflexivity|].
  cbn [fold_left]. rewrite para_step_acc.
  destruct (para_step meta (cc, out) p) as [cc' out'] eqn:E.
  cbn [fst snd]. apply IH.
Qed.

Lemma doc_step_acc acc doc : doc_step acc doc = acc ++ page_chunks doc.
Proof.
  unfold page_chunks, doc_step.
  pose proof (fold_para_step_acc (metadata doc)
                (split_blank (page_content doc)) "" acc []) as H.
  rewrite List.app_nil_r in H. rewrite H.
  destruct (fold_left (para_step (metadata doc))
              (split_blank (page_content doc)) ("", [])) as [cc out].
  simpl. destruct (truthy (strip cc)); [|reflexivity].
  now rewrite List.app_assoc.
Qed.

Lemma fold_doc_step docs acc :
  fold_left doc_step docs acc = acc ++ List.concat (map page_chunks docs).
Proof.
  revert acc. induction docs as [|d docs IH]; intros acc; simpl.
  - now rewrite List.app_nil_r.
  - rewrite IH, doc_step_acc. now rewrite List.app_assoc.
Qed.

Lemma semantic_chunk_documents_concat docs :
  semantic_chunk_documents docs =
  List.concat (map (fun d => List.filter big_enough (page_chunks d)) docs).
Proof.
  unfold semantic_chunk_documents. rewrite fold_doc_step. simpl.
  induction docs as [|d docs IH]; [reflexivity|].
  simpl. now rewrite List.filter_app, IH.
Qed.

Lemma semantic_chunk_documents_single d :
  semantic_chunk_documents [d] = List.filter big_enough (page_chunks d).
Proof.
  rewrite semantic_chunk_documents_concat. simpl. apply List.app_nil_r.
Qed.

Lemma semantic_chunk_documents_app A B :
  semantic_chunk_documents (A ++ B) =
  semantic_chunk_documents A ++ semantic_chunk_documents B.
Proof.
  rewrite !semantic_chunk_documents_concat.
  now rewrite List.map_app, List.concat_app.
Qed.

End ChunkerFacts.


Module OverlapFacts.
Import Py Words StrFacts Chunker.

(** The overlap of the code is the overlap seed of the specification. *)
Lemma overlap_of_seed cc : overlap_of cc = overlap_seed cc.
Proof.
  unfold overlap_of, overlap_seed.
  rewrite re_split_count. unfold re_split. now rewrite re_split_last.
Qed.

Lemma overlap_seed_strip cc : overlap_seed (strip cc) = overlap_seed cc.
Proof.
  unfold overlap_seed. rewrite has_terminator_strip.
  destruct (has_terminator cc) eqn:H; [|reflexivity].
  now apply after_last_strip.
Qed.

Lemma after_last_ends_at_terminator s c :
  is_terminator c = true -> after_last_terminator (s +:+ String c "") = "".
Proof.
  intros Hc. induction s as [|c' s IH].
  - simpl. now rewrite Hc.
  - rewrite app_cons. cbn [after_last_terminator has_terminator].
    rewrite has_terminator_app. simpl. rewrite Hc. simpl.
    rewrite orb_true_r, orb_true_r. exact IH.
Qed.

Lemma overlap_seed_ends_at_terminator s c :
  is_terminator c = true -> overlap_seed (s +:+ String c "") = "".
Proof.
  intros Hc. unfold overlap_seed.
  rewrite after_last_ends_at_terminator by assumption.
  now destruct (has_terminator (s +:+ String c "")).
Qed.

Lemma overlap_seed_no_terminator s : has_terminator (overlap_seed s) = false.
Proof.
  unfold overlap_seed. destruct (has_terminator s); [|reflexivity].
  rewrite has_terminator_strip. apply after_last_no_terminator.
Qed.

Lemma overlap_seed_length s :
  overlap_seed s = "" \/ S (String.length (overlap_seed s)) <= String.length s.
Proof.
  unfold overlap_seed. destruct (has_terminator s) eqn:H; [right|now left].
  pose proof (strip_length (after_last_terminator s)).
  pose proof (length_after_last s H). lia.
Qed.

(** A prefix without terminators does not reach the overlap: it takes
    it from what follows, or there is none. *)
Lemma overlap_seed_app a p :
  has_terminator a = false -> overlap_seed (a +:+ p) = overlap_seed p.
Proof.
  intros Ha. unfold overlap_seed.
  rewrite has_terminator_app, Ha. simpl.
  destruct (has_terminator p) eqn:Hp; [|reflexivity].
  now rewrite after_last_app.
Qed.

End OverlapFacts.


Module BoundFacts.
Import Py Words StrFacts Chunker ChunkerFacts OverlapFacts Bound.

Lemma buffer_ok_empty : buffer_ok "".
Proof. left. simpl. lia. Qed.

Lemma buffer_ok_length cc : buffer_ok cc -> String.length cc <= 4001.
Proof.
  intros [H|(a & p & -> & _ & Ha & Hp)]; [lia|].
  rewrite length_app. lia.
Qed.

Lemma buffer_ok_overlap cc :
  buffer_ok cc -> String.length (overlap_seed cc) <= 2000.
Proof.
  intros [H|(a & p & -> & Hterm & Ha & Hp)].
  - destruct (overlap_seed_length cc) as [->|Hl]; simpl; lia.
  - rewrite overlap_seed_app by assumption.
    destruct (overlap_seed_length p) as [->|Hl]; simpl; lia.
Qed.

(** What one iteration can add to the accumulator. *)
Lemma para_step_emits meta cc out para :
  snd (para_step meta (cc, out) para) = out \/
  snd (para_step meta (cc, out) para) = out ++ [mkDocument (strip cc) meta].
Proof.
  unfold para_step.
  destruct (negb (truthy (strip para))); [now left|].
  destruct ((2000 <? String.length cc + String.length (strip para))
            && truthy cc); [now right|now left].
Qed.

Lemma para_step_buffer_ok meta cc out para :
  buffer_ok cc -> String.length (strip para) <= 2000 ->
  buffer_ok (fst (para_step meta (cc, out) para)).
Proof.
  intros Hcc Hpara. unfold para_step.
  destruct (negb (truthy (strip para))); [exact Hcc|].
  destruct (2000 <? String.length cc + String.length (strip para)) eqn:Hlt;
    cbn [andb].
  - destruct (truthy cc) eqn:Ht; cbn [fst].
    + rewrite overlap_of_seed.
      destruct (truthy (overlap_seed cc)) eqn:Hov; cbv iota; [|left; lia].
      right. exists (overlap_seed cc +:+ " "), (strip para).
      split; [reflexivity|]. split; [|split; [|exact Hpara]].
      * rewrite has_terminator_app, overlap_seed_no_terminator. reflexivity.
      * rewrite length_app. pose proof (buffer_ok_overlap cc Hcc). simpl. lia.
    + apply truthy_false in Ht. subst cc. left. cbn [truthy].
      rewrite app_nil_l. lia.
  - cbn [fst]. apply Nat.ltb_ge in Hlt. left.
    rewrite length_app. destruct (truthy cc); [rewrite length_app; simpl|]; lia.
Qed.

(** The chunks that the paragraph loop adds are trimmed buffers that the
    invariant [I] covers, as long as every iteration keeps [I]. *)
Lemma fold_para_step_emits (I R : string -> Prop) meta :
  (forall cc out para, R para -> I cc ->
                       I (fst (para_step meta (cc, out) para))) ->
  forall paras cc out,
    Forall R paras -> I cc ->
    I (fst (fold_left (para_step meta) paras (cc, out))) /\
    forall d, In d (snd (fold_left (para_step meta) paras (cc, out))) ->
              In d out \/ exists cc', I cc' /\ d = mkDocument (strip cc') meta.
Proof.
  intros Hstep paras. induction paras as [|p paras IH]; intros cc out HR HI.
  - cbn [fold_left fst snd]. split; [exact HI|]. intros d Hd. now left.
  - inversion HR as [|? ? Hp Hps]; subst. cbn [fold_left].
    pose proof (Hstep cc out p Hp HI) as HI'.
    pose proof (para_step_emits meta cc out p) as Hout.
    destruct (para_step meta (cc, out) p) as [cc1 out1]. cbn [fst snd] in *.
    destruct (IH cc1 out1 Hps HI') as [Hfin Hin]. split; [exact Hfin|].
    intros d Hd. destruct (Hin d Hd) as [Hd1|Hd1]; [|now right].
    destruct Hout as [->| ->]; [now left|].
    apply List.in_app_or in Hd1 as [Hd1|[<-|[]]]; [now left|].
    right. now exists cc.
Qed.

Lemma page_chunks_emits (I R : string -> Prop) doc :
  (forall cc out para, R para -> I cc ->
                       I (fst (para_step (metadata doc) (cc, out) para))) ->
  Forall R (split_blank (page_content doc)) -> I "" ->
  forall d, In d (page_chunks doc) ->
            exists cc', I cc' /\ d = mkDocument (strip cc') (metadata doc).
Proof.
  intros Hstep HR HI d Hd. unfold page_chunks, doc_step in Hd.
  destruct (fold_para_step_emits I R (metadata doc) Hstep
              (split_blank (page_content doc)) "" [] HR HI) as [Hfin Hin].
  destruct (fold_left (para_step (metadata doc))
              (split_blank (page_content doc)) ("", [])) as [cc out].
  cbn [fst snd] in *.
  assert (Hcase : In d out \/ d = mkDocument (strip cc) (metadata doc)).
  { destruct (truthy (strip cc)); [|now left].
    apply List.in_app_or in Hd as [Hd|[<-|[]]]; [now left|now right]. }
  destruct Hcase as [Hd'| ->]; [|now exists cc].
  destruct (Hin d Hd') as [[]|H]. exact H.
Qed.

(** Every chunk of the output comes from one page of the input. *)
Lemma in_semantic_chunk_documents docs chunk :
  In chunk (semantic_chunk_documents docs) ->
  big_enough chunk = true /\
  exists doc, In doc docs /\ In chunk (page_chunks doc).
Proof.
  rewrite semantic_chunk_documents_concat. intros H.
  apply List.in_concat in H as (group & Hgroup & Hin).
  apply List.in_map_iff in Hgroup as (doc & <- & Hdoc).
  apply List.filter_In in Hin as [Hin Hbig].
  split; [exact Hbig|]. now exists doc.
Qed.

Lemma paragraphs_within_split doc :
  paragraphs_within doc ->
  Forall (fun para => String.length (strip para) <= 2000)
         (split_blank (page_content doc)).
Proof.
  intros H. apply List.Forall_forall. intros para Hpara.
  destruct (truthy (strip para)) eqn:Ht.
  - apply H. unfold paragraphs_of. apply List.filter_In. split; [|exact Ht].
    apply List.in_map_iff. now exists para.
  - apply truthy_false in Ht. rewrite Ht. simpl. lia.
Qed.

Lemma paragraphs_within_dec doc :
  forallb (fun p => String.length p <=? 2000)
          (paragraphs_of (page_content doc)) = true ->
  paragraphs_within doc.
Proof.
  intros H p Hp. rewrite List.forallb_forall in H.
  apply Nat.leb_le. now apply H.
Qed.

End BoundFacts.



(* ===================================================================== *)
(** * The chunker: the properties of the specification                    *)
(* ===================================================================== *)

Section ChunkerProperties.
Import Py Words StrFacts Chunker ChunkerFacts OverlapFacts Bound BoundFacts.

(** C7. The chunker treats each page on its own and keeps the order of its
    input: the chunks of [A ++ B] are those of [A] followed by those of [B];
    the output is the concatenation, in page order, of the chunks of each
    single page in the order the page emitted them; and picking the pages in
    any order [sigma] picks the per-page groups of chunks in that order. *)
Theorem chunker_order_preserved :
  (forall A B : list Document,
      semantic_chunk_documents (A ++ B) =
      semantic_chunk_documents A ++ semantic_chunk_documents B) /\
  (forall docs : list Document,
      semantic_chunk_documents docs =
      List.concat (map (fun d => semantic_chunk_documents [d]) docs)) /\
  (forall (docs : list Document) (d0 : Document) (sigma : list nat),
      semantic_chunk_documents (map (fun i => nth i docs d0) sigma) =
      List.concat
        (map (fun i => nth i (map (fun d => semantic_chunk_documents [d]) docs)
                           (semantic_chunk_documents [d0])) sigma)).
Proof.
  assert (Hconcat : forall docs,
             semantic_chunk_documents docs =
             List.concat (map (fun d => semantic_chunk_documents [d]) docs)).
  { intros docs. rewrite semantic_chunk_documents_concat.
    apply (f_equal (@List.concat Document)).
    apply List.map_ext. intros d. now rewrite semantic_chunk_documents_single. }
  split; [exact semantic_chunk_documents_app|].
  split; [exact Hconcat|].
  intros docs d0 sigma. rewrite Hconcat, List.map_map.
    apply (f_equal (@List.concat Document)).
    apply List.map_ext. intros i.
    now rewrite (List.map_nth (fun d => semantic_chunk_documents [d])).
Qed.

(** C4. When the paragraph loop saves a non-empty buffer because the next
    paragraph would bring it over 2000 characters, it emits the trimmed
    buffer and starts the next one from the overlap seed of the
    specification: the trimmed text after the last sentence terminator of
    the emitted buffer when it has one, nothing otherwise, followed by a
    space and the paragraph when the seed is not empty.  An emitted buffer
    that ends at a terminator leaves no overlap: the next buffer is the
    paragraph alone.  The overlap that the code takes from the pieces of
    [re.split] is that seed, whether the buffer is split before or after it
    is trimmed. *)
Theorem overlap_seed_starts_next_buffer
        (meta : pyval) (current_chunk : string) (out : list Document)
        (para : string) :
  truthy (strip para) = true ->
  truthy current_chunk = true ->
  2000 < String.length current_chunk + String.length (strip para) ->
  let emitted := strip current_chunk in
  para_step meta (current_chunk, out) para =
    (next_buffer emitted (strip para), out ++ [mkDocument emitted meta]) /\
  overlap_of current_chunk = overlap_of emitted /\
  overlap_of emitted = overlap_seed emitted /\
  (forall s c, emitted = s +:+ String c "" -> is_terminator c = true ->
               para_step meta (current_chunk, out) para =
                 (strip para, out ++ [mkDocument emitted meta])).
Proof.
  intros Hpara Hcc Hlen emitted.
  assert (Hov : overlap_of current_chunk = overlap_seed emitted).
  { unfold emitted. now rewrite overlap_seed_strip, overlap_of_seed. }
  assert (Hstep : para_step meta (current_chunk, out) para =
                  (next_buffer emitted (strip para),
                   out ++ [mkDocument emitted meta])).
  { unfold para_step. rewrite Hpara, Hcc. cbn [negb].
    apply Nat.ltb_lt in Hlen. rewrite Hlen. cbn [andb].
    unfold next_buffer. rewrite Hov.
    destruct (truthy (overlap_seed emitted)); [|reflexivity].
    now rewrite app_assoc. }
  split; [exact Hstep|].
  split; [now rewrite Hov, overlap_of_seed|].
  split; [apply overlap_of_seed|].
  intros s c Hs Hc. rewrite Hstep. unfold next_buffer.
  rewrite Hs, overlap_seed_ends_at_terminator by assumption. reflexivity.
Qed.


(** A buffer of two sentences is saved: the next one starts with the
    unfinished second sentence. *)
Lemma overlap_seed_starts_next_buffer_witness :
  para_step PNone (Examples.open_buffer, []) Examples.next_paragraph =
    ("The tenant " +:+ replicate 1500 "y" +:+ " " +:+ replicate 900 "p",
     [mkDocument Examples.open_buffer PNone]).
Proof.
  assert (Hlen : 2000 < String.length Examples.open_buffer +
                        String.length (strip Examples.next_paragraph)).
  { apply Nat.ltb_lt. vm_compute. reflexivity. }
  destruct (overlap_seed_starts_next_buffer
              PNone Examples.open_buffer [] Examples.next_paragraph
              eq_refl eq_refl Hlen) as (Hstep & _).
  rewrite Hstep. vm_compute. reflexivity.
Defined.

(** C1, as the code has it.  Every chunk that the chunker returns is
    trimmed and longer than 100 characters.  When no trimmed paragraph of
    the input is longer than 2000 characters, every chunk has at most 4001
    characters: the limit of 2000 is tested on the sum of the lengths of the
    buffer and of the paragraph before they are joined, and counts neither
    the joining space nor the overlap that starts a buffer. *)
Theorem chunk_size_bounds (docs : list Document) (chunk : Document) :
  In chunk (semantic_chunk_documents docs) ->
  100 < String.length (page_content chunk) /\
  strip (page_content chunk) = page_content chunk /\
  ((forall doc, In doc docs -> paragraphs_within doc) ->
   String.length (page_content chunk) <= 4001).
Proof.
  intros Hin.
  apply in_semantic_chunk_documents in Hin as (Hbig & doc & Hdoc & Hchunk).
  split; [now apply Nat.ltb_lt|].
  destruct (page_chunks_emits (fun _ => True) (fun _ => True) doc) with (d := chunk)
    as (cc & _ & ->); auto.
  { apply List.Forall_forall. auto. }
  cbn [page_content metadata]. split; [apply strip_idem|].
  intros Hwithin.
  destruct (page_chunks_emits buffer_ok
              (fun para => String.length (strip para) <= 2000) doc)
    with (d := mkDocument (strip cc) (metadata doc))
    as (cc' & Hok & Heq).
  - intros c o p Hp Hc. now apply para_step_buffer_ok.
  - apply paragraphs_within_split. now apply Hwithin.
  - apply buffer_ok_empty.
  - exact Hchunk.
  - injection Heq as Heq. rewrite Heq.
    pose proof (strip_length cc'). pose proof (buffer_ok_length cc' Hok). lia.
Qed.

(** The chunk of two joined paragraphs of 1000 characters is within these
    bounds. *)
Lemma chunk_size_bounds_witness :
  100 < String.length (page_content Examples.joined_chunk) /\
  strip (page_content Examples.joined_chunk) =
    page_content Examples.joined_chunk /\
  String.length (page_content Examples.joined_chunk) <= 4001.
Proof.
  assert (Hin : In Examples.joined_chunk
                   (semantic_chunk_documents [Examples.two_paragraph_page])).
  { vm_compute. left. reflexivity. }
  destruct (chunk_size_bounds _ _ Hin) as (Hlow & Htrim & Hhigh).
  split; [exact Hlow|]. split; [exact Htrim|].
  apply Hhigh. intros doc [<-|[]].
  apply paragraphs_within_dec. vm_compute. reflexivity.
Defined.

(** C1, as stated, fails: a page of two paragraphs of 1000 characters, none
    over 2000, is returned as one chunk of 2001 characters. *)
Lemma chunk_over_2000 :
  paragraphs_within Examples.two_paragraph_page /\
  semantic_chunk_documents [Examples.two_paragraph_page] =
    [Examples.joined_chunk] /\
  String.length (page_content Examples.joined_chunk) = 2001.
Proof.
  split; [apply paragraphs_within_dec; vm_compute; reflexivity|].
  split; vm_compute; reflexivity.
Qed.

(** The bound of 4001 is reached: the overlap of a buffer of 2001
    characters has 2000, and a paragraph of 2000 follows it. *)
Example chunk_of_4001 :
  paragraphs_within Examples.overlap_page /\
  In Examples.seeded_chunk
     (semantic_chunk_documents [Examples.overlap_page]) /\
  String.length (page_content Examples.seeded_chunk) = 4001.
Proof.
  split; [apply paragraphs_within_dec; vm_compute; reflexivity|].
  split; [vm_compute; right; left; reflexivity|vm_compute; reflexivity].
Qed.

End ChunkerProperties.


(* ===================================================================== *)
(** * Facts about runs                                                    *)
(* ===================================================================== *)

Module MonadFacts.

Lemma bind_inv {A C} (m : M A) (k : A -> M C) w o w' :
  bind m k w = (o, w') ->
  (exists a w1, m w = (Return a, w1) /\ k a w1 = (o, w')) \/
  (exists e, m w = (Raise e, w') /\ o = Raise e).
Proof.
  unfold bind. destruct (m w) as [[e|a] w1]; intros H.
  - right. exists e. now inversion H.
  - left. now exists a, w1.
Qed.

Lemma failed_writes_app t1 t2 :
  failed_writes (t1 ++ t2) = failed_writes t1 ++ failed_writes t2.
Proof.
  induction t1 as [|ev t1 IH]; [reflexivity|].
  destruct ev as [| ? ? ? [e|] | | |]; simpl; now rewrite IH.
Qed.

Lemma retrieval_ks_app t1 t2 :
  retrieval_ks (t1 ++ t2) = retrieval_ks t1 ++ retrieval_ks t2.
Proof.
  induction t1 as [|ev t1 IH]; [reflexivity|].
  destruct ev; simpl; now rewrite IH.
Qed.

Lemma new_events_app w w' new :
  trace w' = trace w ++ new -> new_events w w' = new.
Proof.
  intros H. unfold new_events. rewrite H.
  rewrite List.skipn_app, List.skipn_all, Nat.sub_diag. reflexivity.
Qed.

Lemma quiet_refl w : quiet [] w w.
Proof. split; [reflexivity|]. exists []. now rewrite List.app_nil_r. Qed.

Lemma quiet_trans f1 f2 w w1 w2 :
  quiet f1 w w1 -> quiet f2 w1 w2 -> quiet (f1 ++ f2) w w2.
Proof.
  intros [Hd1 (n1 & Ht1 & Hf1)] [Hd2 (n2 & Ht2 & Hf2)].
  split; [congruence|]. exists (n1 ++ n2).
  rewrite Ht2, Ht1, List.app_assoc, failed_writes_app. now subst.
Qed.

Lemma quiet_emit ev w o w' :
  failed_writes [ev] = [] -> emit ev w = (o, w') -> o = Return tt /\ quiet [] w w'.
Proof.
  intros Hev H. unfold emit in H. inversion H; subst. split; [reflexivity|].
  split; [reflexivity|]. now exists [ev].
Qed.

Lemma bind_return {A C} (m : M A) (k : A -> M C) w a w1 :
  m w = (Return a, w1) -> bind m k w = k a w1.
Proof. intros H. unfold bind. now rewrite H. Qed.

Lemma bind_raise {A C} (m : M A) (k : A -> M C) w e w1 :
  m w = (Raise e, w1) -> bind m k w = (Raise e, w1).
Proof. intros H. unfold bind. now rewrite H. Qed.

End MonadFacts.


Module IngestFacts.
Import MonadFacts RagService.

Section WithBackends.
Variable B : Backends.
Variable self : RAGService.

Lemma logger_run r w : logger r w = (Return tt, mkWorld (db w) (vectors w) (trace w ++ [Logged r])).
Proof. reflexivity. Qed.

Lemma logger_quiet r w o w' :
  logger r w = (o, w') -> o = Return tt /\ quiet [] w w'.
Proof. apply quiet_emit. reflexivity. Qed.

Lemma load_documents_quiet fp w o w' :
  load_documents B fp w = (o, w') -> quiet [] w w'.
Proof.
  unfold load_documents.
  destruct (String.eqb (splitext_lower B fp) ".pdf");
    [|destruct (String.eqb (splitext_lower B fp) ".docx")].
  - unfold bind, emit, lift_outcome. intros H. inversion H; subst.
    split; [reflexivity|]. eexists. split; reflexivity.
  - unfold bind, emit, lift_outcome. intros H. inversion H; subst.
    split; [reflexivity|]. eexists. split; reflexivity.
  - unfold raise. intros H. inversion H; subst. apply quiet_refl.
Qed.

Lemma load_all_quiet fps all_docs w o w' :
  load_all B fps all_docs w = (o, w') -> quiet [] w w'.
Proof.
  revert all_docs w. induction fps as [|fp fps IH]; intros all_docs w H.
  - inversion H; subst. apply quiet_refl.
  - cbn [load_all] in H.
    apply bind_inv in H as [(docs & w1 & H1 & H)|(e & H1 & ->)].
    + apply bind_inv in H as [([] & w2 & H2 & H)|(e & H2 & ->)].
      * apply load_documents_quiet in H1. apply logger_quiet in H2 as [_ H2].
        apply IH in H.
        exact (quiet_trans [] [] _ _ _ H1 (quiet_trans [] [] _ _ _ H2 H)).
      * apply logger_quiet in H2 as [H2 _]. discriminate.
    + now apply load_documents_quiet in H1.
Qed.

Lemma from_documents_quiet ns batch w o w' :
  from_documents B self ns batch w = (o, w') ->
  quiet match o with Raise e => [e] | Return _ => [] end w w'.
Proof.
  unfold from_documents, Pinecone.from_documents.
  destruct (from_documents_failure B (vectors w) (index_name self) ns batch)
    as [e|] eqn:E; intros H; inversion H; subst;
    (split; [reflexivity|]); eexists; (split; [reflexivity|]);
    simpl; reflexivity.
Qed.

Lemma store_batches_quiet chunks ns bs total starts w o w' :
  store_batches B self chunks ns bs total starts w = (o, w') ->
  quiet match o with Raise e => [e] | Return _ => [] end w w'.
Proof.
  revert w. induction starts as [|i starts IH]; intros w H.
  - inversion H; subst. apply quiet_refl.
  - cbn [store_batches] in H.
    apply bind_inv in H as [([] & w1 & H1 & H)|(e & H1 & ->)].
    + apply from_documents_quiet in H1.
      apply bind_inv in H as [([] & w2 & H2 & H)|(e & H2 & ->)].
      * apply logger_quiet in H2 as [_ H2]. apply IH in H.
        exact (quiet_trans [] _ _ _ _ H1 (quiet_trans [] _ _ _ _ H2 H)).
      * apply logger_quiet in H2 as [H2 _]. discriminate.
    + now apply from_documents_quiet in H1.
Qed.

Lemma semantic_chunk_documents_run docs w :
  semantic_chunk_documents docs w =
  (Return (Chunker.semantic_chunk_documents docs),
   mkWorld (db w) (vectors w)
           (trace w ++ [Logged (info_generated
                          (length (Chunker.semantic_chunk_documents docs)))])).
Proof. reflexivity. Qed.

(** The body of the [try]: when it raises, the database is as before,
    and the exception is that of the batch write that failed, if one
    did; when it returns, no batch write has failed. *)
Lemma body_outcome draw fps uid bs w o w' :
  process_and_store_documents_body B self draw fps uid bs w = (o, w') ->
  match o with
  | Raise e => quiet [] w w' \/ quiet [e] w w'
  | Return _ =>
      (exists n,
          db w' = fst (JsonDb.store_document_set
                         (db w)
                         (mkDocumentSet (namespace_of uid draw) uid fps n
                                        (time_time draw) "ready"))) /\
      exists new, trace w' = trace w ++ new /\ failed_writes new = []
  end.
Proof.
  unfold process_and_store_documents_body. intros H.
  apply bind_inv in H as [(docs & w1 & H1 & H)|(e & H1 & ->)];
    [|left; now apply load_all_quiet in H1].
  apply load_all_quiet in H1.
  apply bind_inv in H as [(chunks & w2 & H2 & H)|(e & H2 & ->)];
    [|rewrite semantic_chunk_documents_run in H2; discriminate].
  rewrite semantic_chunk_documents_run in H2. inversion H2; subst chunks w2.
  clear H2.
  apply bind_inv in H as [([] & w3 & H3 & H)|(e & H3 & ->)];
    [|apply logger_quiet in H3 as [H3 _]; discriminate].
  apply logger_quiet in H3 as [_ H3].
  assert (Hq : quiet [] w w3).
  { refine (quiet_trans [] [] _ _ _ H1 (quiet_trans [] [] _ _ _ _ H3)).
    split; [reflexivity|]. eexists. split; reflexivity. }
  clear H1 H3.
  apply bind_inv in H as [(total & w4 & H4 & H)|(e & H4 & ->)].
  - assert (w4 = w3) as ->.
    { destruct (Z.eqb bs 0); inversion H4; reflexivity. }
    clear H4.
    apply bind_inv in H as [([] & w5 & H5 & H)|(e & H5 & ->)].
    + apply store_batches_quiet in H5.
      apply bind_inv in H as [(sid & w6 & H6 & H)|(e & H6 & ->)];
        [|discriminate].
      inversion H6; subst sid w6. clear H6.
      apply bind_inv in H as [([] & w7 & H7 & H)|(e & H7 & ->)];
        [|apply logger_quiet in H7 as [H7 _]; discriminate].
      inversion H7; subst w7. inversion H; subst o w'. cbn [trace db].
      destruct (quiet_trans _ _ _ _ _ Hq H5) as [Hdb (new & Ht & Hf)].
      split; [eexists; now rewrite Hdb|].
      exists (new ++ [Logged (info_success uid)]).
      rewrite Ht, List.app_assoc, failed_writes_app, Hf. split; reflexivity.
    + apply store_batches_quiet in H5. right.
      exact (quiet_trans [] [e] _ _ _ Hq H5).
  - left. destruct (Z.eqb bs 0); inversion H4; subst. exact Hq.
Qed.

(** The [try] statement never raises; a failed batch write makes it
    return the error of that write and leave the database as it was. *)
Lemma try_outcome draw fps uid bs w o w' :
  process_and_store_documents_try B self draw fps uid bs w = (o, w') ->
  (exists d, o = Return d) /\
  exists new,
    trace w' = trace w ++ new /\
    forall e, In e (failed_writes new) ->
              o = Return (failure_dict
                            ("Error processing documents: " +:+ str_exn e)) /\
              db w' = db w.
Proof.
  unfold process_and_store_documents_try, try_except. intros H.
  destruct (process_and_store_documents_body B self draw fps uid bs w)
    as [[e|d] w1] eqn:Hbody; apply body_outcome in Hbody.
  - unfold bind, logger, emit, ret in H. inversion H; subst o w'. clear H.
    split; [eauto|]. cbn [db trace].
    destruct Hbody as [[Hd (new & Ht & Hf)]|[Hd (new & Ht & Hf)]];
      exists (new ++ [Logged (error_processing e)]);
      rewrite Ht, List.app_assoc, failed_writes_app, Hf;
      (split; [reflexivity|]); cbn; intros e' He'.
    + destruct He'.
    + destruct He' as [<-|[]]. now split.
  - inversion H; subst o w'. split; [eauto|].
    destruct Hbody as (_ & new & Ht & Hf). exists new. split; [exact Ht|].
    rewrite Hf. intros e [].
Qed.

(** What the [try] statement does to the database: nothing, or the
    record of the generated namespace. *)
Lemma try_database draw fps uid bs w o w' :
  process_and_store_documents_try B self draw fps uid bs w = (o, w') ->
  db w' = db w \/
  exists n,
    db w' = fst (JsonDb.store_document_set
                   (db w)
                   (mkDocumentSet (namespace_of uid draw) uid fps n
                                  (time_time draw) "ready")).
Proof.
  unfold process_and_store_documents_try, try_except. intros H.
  destruct (process_and_store_documents_body B self draw fps uid bs w)
    as [[e|d] w1] eqn:Hbody; apply body_outcome in Hbody.
  - unfold bind, logger, emit, ret in H. inversion H; subst o w'.
    cbn [db]. left. now destruct Hbody as [[Hd _]|[Hd _]].
  - inversion H; subst o w'. right. now destruct Hbody as [Hn _].
Qed.

End WithBackends.
End IngestFacts.


Module GateFacts.
Import MonadFacts RagService IngestFacts.

Lemma range_step_zero step : 0 < step -> range_step 0 step = [].
Proof.
  intros H. unfold range_step.
  replace ((0 + step - 1) / step) with 0; [reflexivity|].
  symmetry. apply Nat.div_small. lia.
Qed.

(** No tier of [TIER_LIMITS] lists the feature that the ingestion asks
    for. *)
Lemma document_upload_in_no_tier tier :
  Subscription.contains "document_upload"
    (Subscription.features (Subscription.TIER_LIMITS tier)) = false.
Proof. destruct tier; reflexivity. Qed.

Lemma check_feature_access_document_upload d uid :
  Subscription.check_feature_access d uid "document_upload" <> Return true.
Proof.
  unfold Subscription.check_feature_access.
  destruct (JsonDb.get_user_by_id d uid) as [user|]; [|discriminate].
  destruct (Subscription.SubscriptionTier_of _) as [e|tier]; [discriminate|].
  now rewrite document_upload_in_no_tier.
Qed.

Lemma namespaces_used_app t1 t2 :
  namespaces_used (t1 ++ t2) = namespaces_used t1 ++ namespaces_used t2.
Proof.
  induction t1 as [|ev t1 IH]; [reflexivity|].
  destruct ev; simpl; now rewrite IH.
Qed.

(** Loading touches neither the index nor a namespace. *)
Lemma load_all_index B fps all_docs w o w' :
  load_all B fps all_docs w = (o, w') ->
  vectors w' = vectors w /\
  exists new, trace w' = trace w ++ new /\ namespaces_used new = [].
Proof.
  revert all_docs w. induction fps as [|fp fps IH]; intros all_docs w H.
  - inversion H; subst. split; [reflexivity|]. exists [].
    now rewrite List.app_nil_r.
  - cbn [load_all] in H.
    assert (Hone : forall o1 w1, load_documents B fp w = (o1, w1) ->
              vectors w1 = vectors w /\
              exists new, trace w1 = trace w ++ new /\ namespaces_used new = []).
    { intros o1 w1. unfold load_documents.
      destruct (String.eqb (splitext_lower B fp) ".pdf");
        [|destruct (String.eqb (splitext_lower B fp) ".docx")];
        unfold bind, emit, lift_outcome, raise; intros H1; inversion H1; subst;
        (split; [reflexivity|]).
      - eexists. split; reflexivity.
      - eexists. split; reflexivity.
      - exists []. now rewrite List.app_nil_r. }
    apply bind_inv in H as [(docs & w1 & H1 & H)|(e & H1 & ->)];
      [|now apply Hone in H1].
    apply Hone in H1 as [Hv1 (n1 & Ht1 & Hn1)].
    apply bind_inv in H as [([] & w2 & H2 & H)|(e & H2 & ->)];
      [|rewrite logger_run in H2; discriminate].
    rewrite logger_run in H2. inversion H2; subst w2. clear H2.
    apply IH in H as [Hv (n & Ht & Hn)]. cbn [vectors trace] in *.
    split; [congruence|].
    exists (n1 ++ [Logged (info_loaded (length docs) fp)] ++ n).
    rewrite Ht, Ht1, !namespaces_used_app, Hn1, Hn.
    split; [now rewrite <- !List.app_assoc|reflexivity].
Qed.

(** The gate is the first thing that [process_and_store_documents]
    does. *)
Lemma process_and_store_documents_gate
      B self draw file_paths uid batch_size w :
  process_and_store_documents B self draw file_paths uid batch_size w =
  match Subscription.check_feature_access (db w) uid "document_upload" with
  | Raise e => (Raise e, w)
  | Return false =>
      (Return (failure_dict
                 "Document upload not available for your subscription tier"),
       w)
  | Return true =>
      if negb (pc self) then
        (Return (failure_dict
                   "Pinecone not configured. Please add PINECONE_API_KEY to environment."),
         w)
      else if negb (embeddings self) then
        (Return (failure_dict
                   "Embeddings model not available. Please check network connection."),
         w)
      else process_and_store_documents_try B self draw file_paths uid
                                           batch_size w
  end.
Proof.
  unfold process_and_store_documents, check_feature_access, bind, read_db,
    lift_outcome, ret.
  destruct (Subscription.check_feature_access (db w) uid "document_upload")
    as [e|[|]]; cbn [negb]; try reflexivity.
  destruct (pc self); [|reflexivity]. now destruct (embeddings self).
Qed.

End GateFacts.


Module QueryFacts.
Import MonadFacts RagService.

Section WithBackends.
Variable B : Backends.
Variable self : RAGService.

Lemma body_denied query ns uid k w :
  not_owner (db w) ns uid ->
  query_documents_body B self query ns uid k w =
  (Return (failure_dict "Document set not found or access denied"), w).
Proof.
  intros H. unfold query_documents_body, bind, read_db, JsonDb.get_document_set.
  destruct (document_sets (db w) !! ns) as [ds|] eqn:E; [|reflexivity].
  destruct (String.eqb_spec (user_id ds) uid) as [Heq|Hne]; [|reflexivity].
  now destruct (H ds E).
Qed.

Lemma query_denied query ns uid k w :
  not_owner (db w) ns uid ->
  exists msg,
    query_documents B self query ns uid k w = (Return (failure_dict msg), w) /\
    (pc self = true -> embeddings self = true -> llm self = true ->
     msg = "Document set not found or access denied").
Proof.
  intros H. unfold query_documents.
  destruct (pc self); [|eexists; split; [reflexivity|discriminate]].
  destruct (embeddings self);
    [|eexists; split; [reflexivity|intros _ ?; discriminate]].
  destruct (llm self);
    [|eexists; split; [reflexivity|intros _ _ ?; discriminate]].
  cbn [negb]. unfold try_except. rewrite body_denied by assumption.
  eexists. split; reflexivity.
Qed.

(** The error of a call that is not the owner's: the configuration
    error of the first handle that is missing, else the one message of
    the ownership check. *)
Lemma query_denied_message query ns uid k w :
  not_owner (db w) ns uid ->
  query_documents B self query ns uid k w =
  (Return
     (failure_dict
        (if negb (pc self) then "Pinecone not configured"
         else if negb (embeddings self) then
                "Embeddings model not available"
         else if negb (llm self) then "LLM not available"
         else "Document set not found or access denied")),
   w).
Proof.
  intros H. unfold query_documents.
  destruct (pc self); [|reflexivity].
  destruct (embeddings self); [|reflexivity].
  destruct (llm self); [|reflexivity].
  cbn [negb]. unfold try_except. now rewrite body_denied.
Qed.

End WithBackends.
End QueryFacts.



Module AnswerFacts.
Import MonadFacts RagService QueryFacts.

Section WithBackends.
Variable B : Backends.
Variable self : RAGService.

Lemma query_documents_run query ns uid k w r w' :
  query_documents B self query ns uid k w = (r, w') ->
  answer_run B self query ns uid k w r w'.
Proof.
  unfold query_documents. intros H.
  destruct (pc self) eqn:Hpc;
    [|inversion H; subst; apply run_refused; intros; congruence].
  destruct (embeddings self) eqn:Hemb;
    [|inversion H; subst; apply run_refused; intros; congruence].
  destruct (llm self) eqn:Hllm;
    [|inversion H; subst; apply run_refused; intros; congruence].
  cbn [negb] in H.
  unfold try_except, query_documents_body, bind, read_db,
    JsonDb.get_document_set, from_existing_index,
    Pinecone.from_existing_index, qa_chain_invoke,
    Pinecone.qa_chain_invoke, bind, emit, raise, ret, logger, emit in H.
  destruct (document_sets (db w) !! ns) as [ds|] eqn:Hds.
  2:{ inversion H; subst. apply run_refused. intros _ _ _.
      split; [|reflexivity]. intros ds Hds'. congruence. }
  destruct (String.eqb_spec (user_id ds) uid) as [Hown|Hown];
    cbn [negb] in H.
  2:{ inversion H; subst. apply run_refused. intros _ _ _.
      split; [|reflexivity]. intros ds' Hds'. congruence. }
  destruct (from_existing_index_failure B (index_name self) ns)
    as [e|] eqn:Hfei.
  - inversion H; subst r w'. cbn [db vectors trace].
    rewrite <- List.app_assoc. now apply (run_unreachable _ _ _ _ _ _ _ ds e).
  - cbn [vectors db trace] in H.
    destruct (qa_invoke B (vectors w) (index_name self) ns k query)
      as [e|result] eqn:Hqa; inversion H; subst r w'; cbn [db vectors trace];
      rewrite <- !List.app_assoc.
    + now apply (run_failed _ _ _ _ _ _ _ ds e).
    + now apply (run_answered _ _ _ _ _ _ _ ds result).
Qed.

End WithBackends.
End AnswerFacts.

Module FinalFacts.
Import MonadFacts.

Section WithBackends.
Variable B : Backends.

Lemma retrieve_and_answer_offline query ns w e :
  from_existing_index_failure B Final.INDEX_NAME ns = Some e ->
  Final.retrieve_and_answer B query ns w =
  (Raise e,
   mkWorld (db w) (vectors w)
           (trace w ++ [FromExistingIndex Final.INDEX_NAME ns (Some e)])).
Proof.
  intros H. unfold Final.retrieve_and_answer, Pinecone.from_existing_index,
    bind, emit, raise.
  now rewrite H.
Qed.

Lemma retrieve_and_answer_online query ns w :
  from_existing_index_failure B Final.INDEX_NAME ns = None ->
  let result := qa_invoke B (vectors w) Final.INDEX_NAME ns 5 query in
  Final.retrieve_and_answer B query ns w =
  match result with
  | Raise e =>
      (Return (PDict [("answer", PNone);
                      ("sources", PList []);
                      ("error", PStr (str_exn e))]),
       mkWorld (db w) (vectors w)
               (trace w ++ [FromExistingIndex Final.INDEX_NAME ns None;
                            QAInvoke Final.INDEX_NAME ns 5 query result;
                            Logged (error_querying e)]))
  | Return res =>
      (Return (PDict [("answer", PStr (fst res));
                      ("sources",
                       PList (map Final.source_entry (snd res)))]),
       mkWorld (db w) (vectors w)
               (trace w ++ [FromExistingIndex Final.INDEX_NAME ns None;
                            QAInvoke Final.INDEX_NAME ns 5 query result]))
  end.
Proof.
  intros H result. unfold Final.retrieve_and_answer,
    Pinecone.from_existing_index, Pinecone.qa_chain_invoke, try_except,
    bind, emit, raise, ret, logger, emit.
  rewrite H. cbn [db vectors trace]. fold result.
  destruct result as [e|res]; cbn [db vectors trace];
    now rewrite <- !List.app_assoc.
Qed.

Lemma retrieve_and_answer_ks query ns w :
  Forall (fun k => (k <= 10)%Z)
         (retrieval_ks
            (new_events w (snd (Final.retrieve_and_answer B query ns w)))).
Proof.
  destruct (from_existing_index_failure B Final.INDEX_NAME ns) as [e|] eqn:H.
  - rewrite (retrieve_and_answer_offline _ _ _ _ H). cbn [snd].
    erewrite new_events_app by reflexivity. constructor.
  - rewrite (retrieve_and_answer_online _ _ _ H).
    destruct (qa_invoke B (vectors w) Final.INDEX_NAME ns 5 query);
      cbn [snd]; (erewrite new_events_app by reflexivity);
      cbn; repeat constructor; lia.
Qed.

End WithBackends.
End FinalFacts.


Module RetrievalFacts.
Import MonadFacts.

Lemma answer_run_ks B self query ns uid k w r w' :
  answer_run B self query ns uid k w r w' ->
  Forall (fun k' => k' = k) (retrieval_ks (new_events w w')) /\
  Forall (fun n => n = ns) (namespaces_used (new_events w w')).
Proof.
  intros H. destruct H.
  - unfold new_events. rewrite List.skipn_all. split; constructor.
  - erewrite new_events_app by reflexivity. cbn. split; repeat constructor.
  - erewrite new_events_app by reflexivity. cbn. split; repeat constructor.
  - erewrite new_events_app by reflexivity. cbn. split; repeat constructor.
Qed.

End RetrievalFacts.


Module RegistryFacts.
Import Py StrFacts MonadFacts RagService IngestFacts GateFacts AnswerFacts.

Lemma take_length n s : String.length (take n s) = Nat.min n (String.length s).
Proof.
  revert s. induction n as [|n IH]; intros [|c s]; simpl; try reflexivity.
  now rewrite IH.
Qed.

Lemma app_inv_head a x y : a +:+ x = a +:+ y -> x = y.
Proof.
  induction a as [|c a IH]; [easy|]. rewrite !app_cons. intros H.
  injection H as H. now apply IH.
Qed.

(** Two texts that end in suffixes of one length and are equal have equal
    fronts. *)
Lemma app_inj_suffix u1 u2 t1 t2 :
  String.length t1 = String.length t2 ->
  u1 +:+ t1 = u2 +:+ t2 -> u1 = u2.
Proof.
  revert u2. induction u1 as [|c u1 IH]; intros [|c2 u2] Hlen H.
  - reflexivity.
  - rewrite app_nil_l in H. subst t1. rewrite app_cons in Hlen. simpl in Hlen.
    rewrite length_app in Hlen. lia.
  - rewrite app_nil_l in H. subst t2. rewrite app_cons in Hlen. simpl in Hlen.
    rewrite length_app in Hlen. lia.
  - rewrite !app_cons in H. injection H as -> H. f_equal. now apply (IH u2).
Qed.

(** The namespace names its owner. *)
Lemma namespace_names_owner u1 u2 h1 h2 :
  String.length h1 = String.length h2 ->
  "user_" +:+ u1 +:+ "_" +:+ h1 = "user_" +:+ u2 +:+ "_" +:+ h2 ->
  u1 = u2.
Proof.
  intros Hlen H. apply app_inv_head in H.
  apply (app_inj_suffix u1 u2 ("_" +:+ h1) ("_" +:+ h2)); [|exact H].
  rewrite !length_app. simpl. lia.
Qed.

Lemma registry_wf_store d draw fps uid n t status :
  registry_wf d -> String.length (uuid4_hex draw) = 32 ->
  registry_wf (fst (JsonDb.store_document_set
                      d (mkDocumentSet (namespace_of uid draw) uid fps n t
                                       status))).
Proof.
  intros Hwf Hhex ns ds. unfold JsonDb.store_document_set. cbn.
  rewrite lookup_insert. case_decide as Hns.
  - intros Hds. inversion Hds; subst ds ns. cbn. split; [reflexivity|].
    exists (take 8 (uuid4_hex draw)). split; [|reflexivity].
    rewrite take_length, Hhex. reflexivity.
  - apply Hwf.
Qed.

(** In a well-formed registry the namespace tells the owner. *)
Lemma registry_wf_owner d d' ns ds ds' :
  registry_wf d -> registry_wf d' ->
  document_sets d !! ns = Some ds -> document_sets d' !! ns = Some ds' ->
  user_id ds' = user_id ds.
Proof.
  intros Hwf Hwf' Hds Hds'.
  destruct (Hwf ns ds Hds) as [_ (h & Hh & Hname)].
  destruct (Hwf' ns ds' Hds') as [_ (h' & Hh' & Hname')].
  rewrite Hname in Hname' at 1.
  symmetry. apply (namespace_names_owner _ _ h h'); [congruence|exact Hname'].
Qed.

Lemma registry_wf_delete d ns :
  registry_wf d -> registry_wf (fst (JsonDb.delete_document_set d ns)).
Proof.
  intros Hwf key ds. unfold JsonDb.delete_document_set.
  destruct (document_sets d !! ns); cbn; [|apply Hwf].
  rewrite lookup_delete. case_decide; [discriminate|apply Hwf].
Qed.

Lemma delete_document_set_database ns uid w :
  db (snd (delete_document_set ns uid w)) = db w \/
  db (snd (delete_document_set ns uid w)) =
    fst (JsonDb.delete_document_set (db w) ns).
Proof.
  unfold delete_document_set, try_except, bind, read_db, write_db, ret,
    JsonDb.get_document_set.
  destruct (document_sets (db w) !! ns) as [ds|]; [|now left].
  destruct (negb (String.eqb (user_id ds) uid)); [now left|now right].
Qed.

Section WithBackends.
Variable B : Backends.
Variable self : RAGService.

(** Every core operation keeps the registry well formed. *)
Lemma run_call_wf c w :
  registry_wf (db w) -> well_drawn c ->
  registry_wf (db (run_call B self c w)).
Proof.
  intros Hwf Hdrawn.
  assert (Htry : forall draw fps uid bs o w1,
            String.length (uuid4_hex draw) = 32 ->
            process_and_store_documents_try B self draw fps uid bs w
              = (o, w1) ->
            registry_wf (db w1)).
  { intros draw fps uid bs o w1 Hhex Hrun.
    apply try_database in Hrun as [Hdb|(n & Hdb)]; rewrite Hdb;
      [exact Hwf|now apply registry_wf_store]. }
  destruct c as [draw fps uid bs|draw fps uid bs|query ns' uid k
                |uid|ns' uid]; cbn [run_call well_drawn] in *.
  - rewrite process_and_store_documents_gate.
    destruct (Subscription.check_feature_access (db w) uid "document_upload")
      as [e|[|]]; try exact Hwf.
    destruct (negb (pc self)); [exact Hwf|].
    destruct (negb (embeddings self)); [exact Hwf|].
    destruct (process_and_store_documents_try B self draw fps uid bs w)
      as [o w1] eqn:Hrun. now apply (Htry draw fps uid bs o w1).
  - destruct (process_and_store_documents_try B self draw fps uid bs w)
      as [o w1] eqn:Hrun. now apply (Htry draw fps uid bs o w1).
  - destruct (query_documents B self query ns' uid k w) as [r w1] eqn:Hrun.
    apply query_documents_run in Hrun. cbn [snd]. now destruct Hrun.
  - exact Hwf.
  - destruct (delete_document_set_database ns' uid w) as [Hdb|Hdb];
      rewrite Hdb; [exact Hwf|now apply registry_wf_delete].
Qed.

Lemma run_calls_wf cs w :
  registry_wf (db w) -> Forall well_drawn cs ->
  registry_wf (db (run_calls B self cs w)).
Proof.
  revert w. induction cs as [|c cs IH]; intros w Hwf Hcs; [exact Hwf|].
  inversion Hcs; subst. cbn [run_calls fold_left].
  apply IH; [now apply run_call_wf|assumption].
Qed.

End WithBackends.

Lemma registry_wf_empty d : document_sets d = ∅ -> registry_wf d.
Proof. intros H ns ds. rewrite H, lookup_empty. discriminate. Qed.

Lemma registry_wf_alice : registry_wf (db Examples.alice_world).
Proof.
  intros ns ds Hds. cbn in Hds.
  apply lookup_singleton_Some in Hds as [<- <-].
  split; [reflexivity|]. exists "89abcdef". split; reflexivity.
Qed.

End RegistryFacts.



Module BatchFacts.
Import MonadFacts RagService IngestFacts GateFacts.

Lemma written_batches_app t1 t2 :
  written_batches (t1 ++ t2) = written_batches t1 ++ written_batches t2.
Proof.
  induction t1 as [|ev t1 IH]; [reflexivity|].
  destruct ev as [| ? ? ? [e|] | | |]; simpl; now rewrite IH.
Qed.

Lemma ceil_div_succ len n :
  0 < n -> 0 < len -> (len + n - 1) / n = S ((len - n + n - 1) / n).
Proof.
  intros Hn Hlen. destruct (Nat.le_gt_cases n len) as [Hle|Hgt].
  - replace (len + n - 1) with ((len - n + n - 1) + 1 * n) by lia.
    rewrite Nat.div_add by lia. lia.
  - replace (len - n) with 0 by lia.
    rewrite (Nat.div_small (0 + n - 1) n) by lia.
    symmetry. apply (Nat.div_unique _ _ _ (len - 1)); lia.
Qed.

(** The batches are the chunks, cut in order. *)
Lemma batches_partition (l : list Document) n :
  0 < n ->
  List.concat (map (fun i => firstn n (skipn i l)) (range_step (length l) n))
  = l.
Proof.
  intros Hn. remember (length l) as len eqn:Hlen.
  revert l Hlen. induction len as [len IH] using lt_wf_ind. intros l Hlen.
  destruct l as [|x l'].
  - subst len. unfold range_step. cbn [length].
    rewrite (Nat.div_small (0 + n - 1) n) by lia. reflexivity.
  - set (l := x :: l') in *. assert (Hpos : 0 < len) by (subst len; cbn; lia).
    unfold range_step. rewrite (ceil_div_succ len n Hn Hpos).
    rewrite <- List.cons_seq, <- List.seq_shift. cbn [map List.concat].
    rewrite !List.map_map. cbn [Nat.mul skipn].
    transitivity (firstn n l ++ skipn n l); [|apply List.firstn_skipn].
    apply (f_equal (app (firstn n l))).
    specialize (IH (len - n) ltac:(lia) (skipn n l)).
    rewrite List.length_skipn in IH. specialize (IH ltac:(lia)).
    unfold range_step in IH. rewrite List.map_map in IH.
    etransitivity; [|exact IH]. apply (f_equal (@List.concat Document)).
    apply List.map_ext. intros j.
    now rewrite List.skipn_skipn, (Nat.add_comm (j * n) n).
Qed.

(** With a positive batch size, the batches put together are the
    chunks. *)
Lemma batches_of_concat chunks batch_size :
  (0 < batch_size)%Z -> List.concat (batches_of chunks batch_size) = chunks.
Proof.
  intros H. unfold batches_of.
  destruct (Z.ltb_spec 0 batch_size) as [_|Hle]; [|lia].
  apply batches_partition. lia.
Qed.

Section WithBackends.
Variable B : Backends.
Variable self : RAGService.

Lemma store_batches_written chunks ns bs total starts w w' :
  store_batches B self chunks ns bs total starts w = (Return tt, w') ->
  exists new,
    trace w' = trace w ++ new /\
    written_batches new =
      map (fun i => firstn bs (skipn i chunks)) starts.
Proof.
  revert w. induction starts as [|i starts IH]; intros w H.
  - inversion H; subst. exists []. now rewrite List.app_nil_r.
  - cbn [store_batches] in H.
    apply bind_inv in H as [([] & w1 & H1 & H)|(e & H1 & ?)];
      [|discriminate].
    apply bind_inv in H as [([] & w2 & H2 & H)|(e & H2 & ?)];
      [|discriminate].
    rewrite logger_run in H2. inversion H2; subst w2. clear H2.
    apply IH in H as (new & Ht & Hw). cbn [trace] in Ht.
    unfold from_documents, Pinecone.from_documents in H1.
    destruct (from_documents_failure B (vectors w) (index_name self) ns
                (firstn bs (skipn i chunks))) as [e|] eqn:E;
      inversion H1; subst w1. cbn [trace] in Ht.
    eexists. split.
    + rewrite Ht, <- !List.app_assoc. reflexivity.
    + cbn. now rewrite Hw.
Qed.

Lemma no_namespace_no_batch t :
  namespaces_used t = [] -> written_batches t = [].
Proof.
  induction t as [|ev t IH]; [reflexivity|].
  destruct ev as [| ? ? ? [e|] | | |]; simpl; try discriminate; exact IH.
Qed.

(** A run of the body that returns has loaded every file, written every
    batch of the chunks, in order, and stored the record. *)
Lemma body_return draw fps uid bs w d w' :
  process_and_store_documents_body B self draw fps uid bs w
    = (Return d, w') ->
  exists docs w1,
    load_all B fps [] w = (Return docs, w1) /\
    let chunks := Chunker.semantic_chunk_documents docs in
    d = PDict [("success", PBool true);
               ("namespace", PStr (namespace_of uid draw));
               ("chunks_created", PInt (Z.of_nat (length chunks)));
               ("message",
                PStr "Documents successfully processed and indexed")] /\
    db w' = fst (JsonDb.store_document_set
                   (db w)
                   (mkDocumentSet (namespace_of uid draw) uid fps
                                  (length chunks) (time_time draw)
                                  "ready")) /\
    written_batches (new_events w w') = batches_of chunks bs.
Proof.
  unfold process_and_store_documents_body. intros H.
  apply bind_inv in H as [(docs & w1 & H1 & H)|(e & H1 & ?)];
    [|discriminate].
  exists docs, w1. split; [exact H1|]. cbv zeta.
  pose proof (load_all_quiet B _ _ _ _ _ H1) as [Hdb1 _].
  apply load_all_index in H1 as [_ (n1 & Ht1 & Hn1)].
  apply no_namespace_no_batch in Hn1.
  rewrite (bind_return _ _ _ _ _ (semantic_chunk_documents_run _ w1)) in H.
  set (chunks := Chunker.semantic_chunk_documents docs) in *.
  apply bind_inv in H as [([] & w3 & H3 & H)|(e & H3 & ?)];
    [|discriminate].
  rewrite logger_run in H3. inversion H3; subst w3. clear H3.
  apply bind_inv in H as [(total & w4 & H4 & H)|(e & H4 & ?)];
    [|discriminate].
  assert (w4 = mkWorld (db w1) (vectors w1)
                  ((trace w1 ++ [Logged (info_generated (length chunks))])
                     ++ [Logged (info_created (length chunks))])) as ->.
  { destruct (Z.eqb bs 0); inversion H4; reflexivity. }
  clear H4.
  apply bind_inv in H as [([] & w5 & H5 & H)|(e & H5 & ?)];
    [|discriminate].
  pose proof (store_batches_quiet B self _ _ _ _ _ _ _ _ H5) as [Hdb5 _].
  apply store_batches_written in H5 as (n5 & Ht5 & Hw5).
  cbn [trace db] in Ht5, Hdb5.
  cbv [db_store_document_set bind read_db write_db ret logger emit
         JsonDb.store_document_set] in H.
  inversion H; subst d w'. clear H. cbn [db trace].
  split; [reflexivity|]. split.
  { unfold JsonDb.store_document_set. cbn [fst]. now rewrite Hdb5, Hdb1. }
  erewrite new_events_app.
  2:{ cbn [trace]. rewrite Ht5, Ht1, <- !List.app_assoc. reflexivity. }
  rewrite !written_batches_app, Hn1, Hw5. cbn [written_batches app].
  rewrite List.app_nil_r. unfold batches_of.
  destruct (Z.ltb 0 bs); reflexivity.
Qed.

(** What the [try] statement makes of the body. *)
Lemma try_return draw fps uid bs w r w' :
  process_and_store_documents_try B self draw fps uid bs w = (r, w') ->
  db w' = db w \/
  exists d, r = Return d /\
            process_and_store_documents_body B self draw fps uid bs w
              = (Return d, w').
Proof.
  unfold process_and_store_documents_try, try_except. intros H.
  destruct (process_and_store_documents_body B self draw fps uid bs w)
    as [[e|d] w1] eqn:Hbody.
  - left. apply body_outcome in Hbody.
    unfold bind, logger, emit, ret in H. inversion H; subst r w'.
    cbn [db]. now destruct Hbody as [[Hd _]|[Hd _]].
  - right. inversion H; subst r w'. now exists d.
Qed.

End WithBackends.
End BatchFacts.


(* ===================================================================== *)
(** * The service: the properties of the specification                    *)
(* ===================================================================== *)

Section ServiceProperties.
Import MonadFacts RagService IngestFacts GateFacts QueryFacts AnswerFacts
  FinalFacts RetrievalFacts RegistryFacts BatchFacts.


(** C3.  Take an ingestion at [process_and_store_documents] or, behind its
    guards, at the [try] statement.  When a batch write to the vector index
    raises, the ingestion returns an error result that carries the message
    of that write, and the database is what it was: no record is stored,
    the list of document sets of every owner is unchanged, and, the
    generated namespace being absent from the registry before the call, it
    is absent after it and a later query against it is refused without any
    retrieval.  Read the other way: when the registry has changed, every
    file was loaded, no write failed, and the batches of the chunks were
    all written, in order. *)
Theorem failed_batch_registers_nothing
        (B : Backends) (self : RAGService)
        (entry : Draw -> list string -> string -> Z -> M pyval)
        (draw : Draw) (file_paths : list string) (uid : string)
        (batch_size : Z) (w w' : World) (r : outcome pyval) :
  In entry [process_and_store_documents B self;
            process_and_store_documents_try B self] ->
  entry draw file_paths uid batch_size w = (r, w') ->
  (forall e, In e (failed_writes (new_events w w')) ->
     let ns := namespace_of uid draw in
     r = Return (failure_dict ("Error processing documents: " +:+ str_exn e)) /\
     db w' = db w /\
     (forall owner, JsonDb.get_user_document_sets (db w') owner =
                    JsonDb.get_user_document_sets (db w) owner) /\
     (document_sets (db w) !! ns = None ->
      JsonDb.get_document_set (db w') ns = None /\
      forall query owner k,
      exists msg,
        query_documents B self query ns owner k w' =
          (Return (failure_dict msg), w') /\
        (pc self = true -> embeddings self = true -> llm self = true ->
         msg = "Document set not found or access denied"))) /\
  (document_sets (db w') <> document_sets (db w) ->
   failed_writes (new_events w w') = [] /\
   exists docs w1,
     load_all B file_paths [] w = (Return docs, w1) /\
     written_batches (new_events w w') =
       batches_of (Chunker.semantic_chunk_documents docs) batch_size).
Proof.
  intros Hentry Hrun.
  assert (Htry : w' = w \/
                 process_and_store_documents_try
                   B self draw file_paths uid batch_size w = (r, w')).
  { destruct Hentry as [<-|[<-|[]]]; [|now right].
    rewrite process_and_store_documents_gate in Hrun.
    destruct (Subscription.check_feature_access (db w) uid "document_upload")
      as [e|[|]]; [left; now inversion Hrun| |left; now inversion Hrun].
    destruct (negb (pc self)); [left; now inversion Hrun|].
    destruct (negb (embeddings self)); [left; now inversion Hrun|].
    now right. }
  clear Hentry Hrun. destruct Htry as [->|Hrun].
  { unfold new_events. rewrite List.skipn_all. cbn [failed_writes].
    split; [intros e []|]. intros Hchanged. now destruct Hchanged. }
  destruct (try_outcome B self _ _ _ _ _ _ _ Hrun) as [_ (new & Ht & Hfail)].
  rewrite (new_events_app w w' new Ht) in *.
  split.
  - intros e He ns. destruct (Hfail e He) as [Hr Hdb].
    split; [exact Hr|]. split; [exact Hdb|]. split.
    + intros owner. now rewrite Hdb.
    + intros Hfresh.
      assert (Hnone : document_sets (db w') !! ns = None) by now rewrite Hdb.
      split; [exact Hnone|]. intros query owner k.
      apply query_denied. intros ds Hds. congruence.
  - intros Hchanged. split.
    + destruct (failed_writes new) as [|e rest]; [reflexivity|].
      destruct (Hfail e (or_introl eq_refl)) as [_ Hdb].
      now rewrite Hdb in Hchanged.
    + destruct (try_return B self _ _ _ _ _ _ _ Hrun) as [Hdb|(d & _ & Hbody)];
        [now rewrite Hdb in Hchanged|].
      apply body_return in Hbody as (docs & w1 & Hload & _ & _ & Hwritten).
      exists docs, w1. split; [exact Hload|].
      now rewrite (new_events_app w w' new Ht) in Hwritten.
Qed.

(** With batches of one chunk and an index that refuses the second write,
    the ingestion of a file of two chunks fails and registers nothing. *)
Lemma failed_batch_registers_nothing_witness :
  fst (process_and_store_documents_try
         Examples.backends Examples.service Examples.draw
         ["uploads/user_alice/lease.pdf"] "alice" 1 Examples.empty_world) =
    Return (failure_dict "Error processing documents: upsert failed") /\
  db (snd (process_and_store_documents_try
             Examples.backends Examples.service Examples.draw
             ["uploads/user_alice/lease.pdf"] "alice" 1 Examples.empty_world)) =
    db Examples.empty_world.
Proof.
  destruct (process_and_store_documents_try
              Examples.backends Examples.service Examples.draw
              ["uploads/user_alice/lease.pdf"] "alice" 1 Examples.empty_world)
    as [r w'] eqn:Hrun.
  destruct (failed_batch_registers_nothing
              Examples.backends Examples.service
              (process_and_store_documents_try
                 Examples.backends Examples.service)
              Examples.draw ["uploads/user_alice/lease.pdf"] "alice" 1
              Examples.empty_world w' r) as [H _].
  - right. left. reflexivity.
  - exact Hrun.
  - destruct (H (Exception "upsert failed")) as (Hr & Hdb & _).
    + assert (Hw : w' = snd (process_and_store_documents_try
                Examples.backends Examples.service Examples.draw
                ["uploads/user_alice/lease.pdf"] "alice" 1
                Examples.empty_world)) by now rewrite Hrun.
      rewrite Hw. vm_compute. left. reflexivity.
    + split; [exact Hr|exact Hdb].
Defined.

(** The steps of the ingestion (lines 171-217), entered at the [try]
    statement: when the files load and give no chunk, they succeed for
    every batch size but zero, write nothing to the index, store the
    record of the fresh namespace with a chunk count of 0 and the status
    ["ready"], and return a success with [chunks_created = 0]. *)
Theorem empty_ingestion_succeeds
        (B : Backends) (self : RAGService) (draw : Draw)
        (file_paths : list string) (uid : string) (batch_size : Z)
        (w w1 : World) (docs : list Document) :
  load_all B file_paths [] w = (Return docs, w1) ->
  Chunker.semantic_chunk_documents docs = [] ->
  batch_size <> 0%Z ->
  let ns := namespace_of uid draw in
  exists w',
    process_and_store_documents_try B self draw file_paths uid batch_size w =
      (Return (PDict [("success", PBool true);
                      ("namespace", PStr ns);
                      ("chunks_created", PInt 0);
                      ("message",
                       PStr "Documents successfully processed and indexed")]),
       w') /\
    JsonDb.get_document_set (db w') ns =
      Some (mkDocumentSet ns uid file_paths 0 (time_time draw) "ready") /\
    vectors w' = vectors w /\
    namespaces_used (new_events w w') = [].
Proof.
  intros Hload Hempty Hbs ns.
  assert (Hstarts :
            (if Z.ltb 0 batch_size
             then range_step 0 (Z.to_nat batch_size) else []) = []).
  { destruct (Z.ltb_spec 0 batch_size); [|reflexivity].
    apply range_step_zero. lia. }
  unfold process_and_store_documents_try, try_except,
    process_and_store_documents_body.
  rewrite (bind_return _ _ _ _ _ Hload).
  rewrite (bind_return _ _ _ _ _ (semantic_chunk_documents_run docs w1)).
  rewrite Hempty. cbn [length]. rewrite Hstarts.
  apply Z.eqb_neq in Hbs. rewrite Hbs.
  eexists. split; [reflexivity|].
  destruct (load_all_index B _ _ _ _ _ Hload) as [Hv (new & Ht & Hn)].
  split; [|split].
  - unfold JsonDb.get_document_set. cbn. apply lookup_insert_eq.
  - cbn. exact Hv.
  - erewrite new_events_app.
    2:{ cbn. rewrite Ht, <- !List.app_assoc. reflexivity. }
    rewrite namespaces_used_app, Hn. reflexivity.
Qed.

(** The upload of a scan without text, taken at the [try] statement. *)
Lemma empty_ingestion_succeeds_witness :
  let ns := "user_alice_01234567" in
  exists w',
    process_and_store_documents_try
      Examples.blank_backends Examples.service Examples.draw
      ["uploads/user_alice/scan.pdf"] "alice" 64 Examples.empty_world =
      (Return (PDict [("success", PBool true);
                      ("namespace", PStr ns);
                      ("chunks_created", PInt 0);
                      ("message",
                       PStr "Documents successfully processed and indexed")]),
       w') /\
    JsonDb.get_document_set (db w') ns =
      Some (mkDocumentSet ns "alice" ["uploads/user_alice/scan.pdf"] 0
                          1700000000 "ready").
Proof.
  destruct (empty_ingestion_succeeds
              Examples.blank_backends Examples.service Examples.draw
              ["uploads/user_alice/scan.pdf"] "alice" 64 Examples.empty_world
              (snd (load_all Examples.blank_backends
                             ["uploads/user_alice/scan.pdf"] []
                             Examples.empty_world))
              [Examples.page "   "; Examples.page Examples.blank])
    as (w' & Hrun & Hset & _).
  - reflexivity.
  - reflexivity.
  - discriminate.
  - exists w'. split; [exact Hrun|exact Hset].
Defined.


(** The gate refuses every owner: with the table of [TIER_LIMITS] as it is,
    a call of [process_and_store_documents] returns the error of the gate,
    or raises the [ValueError] of an unknown tier, and leaves the world as
    it found it. *)
Lemma ingestion_always_refused
      (B : Backends) (self : RAGService) (draw : Draw)
      (file_paths : list string) (uid : string) (batch_size : Z) (w : World) :
  process_and_store_documents B self draw file_paths uid batch_size w =
    (Return (failure_dict
               "Document upload not available for your subscription tier"),
     w) \/
  exists e,
    process_and_store_documents B self draw file_paths uid batch_size w =
      (Raise e, w).
Proof.
  rewrite process_and_store_documents_gate.
  pose proof (check_feature_access_document_upload (db w) uid) as Hno.
  destruct (Subscription.check_feature_access (db w) uid "document_upload")
    as [e|[|]]; [right; now exists e|congruence|now left].
Qed.

(** C10.  When the feature gate answers that the owner has no access to
    ["document_upload"], the ingestion returns the error of the gate and
    leaves the world as it found it: no loader is called, no chunk is made,
    no vector is written, no record is stored, nothing is logged.  The gate
    comes before the checks of the handles: the error is the same with or
    without them. *)
Theorem subscription_gate_first
        (B : Backends) (self : RAGService) (draw : Draw)
        (file_paths : list string) (uid : string) (batch_size : Z)
        (w : World) :
  Subscription.check_feature_access (db w) uid "document_upload"
    = Return false ->
  process_and_store_documents B self draw file_paths uid batch_size w =
    (Return (failure_dict
               "Document upload not available for your subscription tier"),
     w).
Proof.
  intros Hgate. rewrite process_and_store_documents_gate.
  now rewrite Hgate.
Qed.

(** bob, of the Basic tier, is refused and the world is untouched. *)
Lemma subscription_gate_first_witness :
  process_and_store_documents
    Examples.backends Examples.service Examples.draw
    ["uploads/user_bob/will.pdf"] "bob" 64 Examples.alice_world =
    (Return (failure_dict
               "Document upload not available for your subscription tier"),
     Examples.alice_world).
Proof.
  apply (subscription_gate_first
           Examples.backends Examples.service Examples.draw
           ["uploads/user_bob/will.pdf"] "bob" 64 Examples.alice_world).
  vm_compute. reflexivity.
Defined.


(** C2, as the code has it.  A call of [query_documents] for a namespace
    that the registry does not hold, or holds for another owner, returns an
    error result and leaves the world as it found it: no handle on the
    index is made, no question is embedded, nothing is searched.  With the
    three handles in place the error is the same in both cases,
    ["Document set not found or access denied"]; otherwise it is the
    configuration error of the first handle that is missing, in the order
    index, embeddings, language model.  A call that succeeds names a
    namespace that the registry holds for the caller, and every call to
    the index names that namespace and no other. *)
Theorem ownership_check_precedes_retrieval
        (B : Backends) (self : RAGService) (query ns uid : string) (k : Z)
        (w w' : World) (r : outcome pyval) :
  query_documents B self query ns uid k w = (r, w') ->
  (not_owner (db w) ns uid ->
   w' = w /\
   exists msg,
     r = Return (failure_dict msg) /\
     (pc self = true -> embeddings self = true -> llm self = true ->
      msg = "Document set not found or access denied") /\
     (pc self = false -> msg = "Pinecone not configured") /\
     (pc self = true -> embeddings self = false ->
      msg = "Embeddings model not available") /\
     (pc self = true -> embeddings self = true -> llm self = false ->
      msg = "LLM not available")) /\
  (forall d, r = Return d -> dict_get "success" d = Some (PBool true) ->
             exists ds, document_sets (db w) !! ns = Some ds /\
                        user_id ds = uid) /\
  Forall (fun n => n = ns) (namespaces_used (new_events w w')).
Proof.
  intros Hrun. pose proof Hrun as Hcall. apply query_documents_run in Hrun.
  split; [|split; [|now apply (answer_run_ks _ _ _ _ _ _ _ _ _ Hrun)]].
  - intros Hdenied.
    rewrite (query_denied_message B self query ns uid k w Hdenied) in Hcall.
    inversion Hcall; subst r w'. split; [reflexivity|].
    eexists. split; [reflexivity|].
    destruct (pc self), (embeddings self), (llm self); cbn [negb];
      repeat split; intros; try reflexivity; discriminate.
  - intros d Hd Hsuccess.
    destruct Hrun as [msg Hmsg|ds e Hds Hown|ds e Hds Hown|ds res Hds Hown];
      inversion Hd; subst d; try discriminate Hsuccess.
    now exists ds.
Qed.

(** bob asks about the namespace of alice. *)
Lemma ownership_check_precedes_retrieval_witness :
  query_documents Examples.backends Examples.service
                  "Who signs the lease?" "user_alice_89abcdef" "bob" 5
                  Examples.alice_world =
  (Return (failure_dict "Document set not found or access denied"),
   Examples.alice_world).
Proof.
  destruct (query_documents Examples.backends Examples.service
              "Who signs the lease?" "user_alice_89abcdef" "bob" 5
              Examples.alice_world) as [r w'] eqn:Hrun.
  destruct (ownership_check_precedes_retrieval _ _ _ _ _ _ _ _ _ Hrun)
    as (Hdenied & _ & _).
  destruct Hdenied as (-> & msg & -> & Hmsg & _).
  - intros ds Hds. vm_compute in Hds. inversion Hds; subst ds. discriminate.
  - now rewrite (Hmsg eq_refl eq_refl eq_refl).
Defined.

(** C2, as stated, fails: the answer to a caller who names a namespace that
    does not exist and the answer to a caller who names the namespace of
    someone else are the same object, so that no reading of the result
    makes the first [NotFound] and the second [AccessDenied]. *)
Lemma not_found_is_access_denied :
  let ns := "user_alice_89abcdef" in
  let absent :=
    fst (query_documents Examples.backends Examples.service
                         "Who signs the lease?" ns "bob" 5
                         Examples.empty_world) in
  let foreign :=
    fst (query_documents Examples.backends Examples.service
                         "Who signs the lease?" ns "bob" 5
                         Examples.alice_world) in
  document_sets (db Examples.empty_world) !! ns = None /\
  document_sets (db Examples.alice_world) !! ns = Some Examples.alice_set /\
  user_id Examples.alice_set <> "bob" /\
  absent = Return (failure_dict "Document set not found or access denied") /\
  foreign = absent /\
  ~ exists kind : outcome pyval -> ErrorKind,
      kind absent = NotFound /\ kind foreign = AccessDenied.
Proof.
  intros ns absent foreign.
  assert (Ha : absent =
               Return (failure_dict "Document set not found or access denied"))
    by (vm_compute; reflexivity).
  assert (Hf : foreign = absent) by (vm_compute; reflexivity).
  split; [vm_compute; reflexivity|]. split; [vm_compute; reflexivity|].
  split; [discriminate|]. split; [exact Ha|]. split; [exact Hf|].
  intros (kind & Hk1 & Hk2). rewrite Hf in Hk2. congruence.
Qed.

(** C5, as the code has it.  [RAGService.query_documents] never raises:
    when the index or the chain (question embedding, search, language
    model) fails while it answers, it returns
    [{success: False, error: "Error querying documents: " + message}].
    [retrieve_and_answer] of [Final/main.py], once it holds the handle on
    the index, returns [{answer: None, sources: [], error: message}] when
    the chain fails. *)
Theorem answering_failures_are_returned (B : Backends) :
  (forall self query ns uid k w r w',
      query_documents B self query ns uid k w = (r, w') ->
      (exists d, r = Return d) /\
      forall e, In e (backend_failures (new_events w w')) ->
                r = Return (failure_dict
                              ("Error querying documents: " +:+ str_exn e))) /\
  (forall query ns w e,
      from_existing_index_failure B Final.INDEX_NAME ns = None ->
      qa_invoke B (vectors w) Final.INDEX_NAME ns 5 query = Raise e ->
      fst (Final.retrieve_and_answer B query ns w) =
        Return (PDict [("answer", PNone);
                       ("sources", PList []);
                       ("error", PStr (str_exn e))]) /\
      structured_error (PDict [("answer", PNone);
                               ("sources", PList []);
                               ("error", PStr (str_exn e))])).
Proof.
  split.
  - intros self query ns uid k w r w' Hrun.
    apply query_documents_run in Hrun.
    destruct Hrun as [msg Hmsg|ds e Hds Hown Hfei|ds e Hds Hown Hfei Hqa
                     |ds res Hds Hown Hfei Hqa].
    + split; [eauto|]. unfold new_events. rewrite List.skipn_all.
      intros e [].
    + split; [eauto|]. erewrite new_events_app by reflexivity.
      intros e' [<-|[]]. reflexivity.
    + split; [eauto|]. erewrite new_events_app by reflexivity.
      intros e' [<-|[]]. reflexivity.
    + split; [eauto|]. erewrite new_events_app by reflexivity.
      intros e' [].
  - intros query ns w e Hfei Hqa. split.
    + rewrite (retrieve_and_answer_online B query ns w Hfei). cbv zeta.
      now rewrite Hqa.
    + repeat split. now exists (str_exn e).
Qed.

(** The language model is unavailable: what either implementation
    returns. *)
Lemma answering_failures_are_returned_witness :
  fst (query_documents Examples.blank_backends Examples.service
                       "Who signs the lease?" "user_alice_89abcdef" "alice" 5
                       Examples.alice_world) =
    Return (failure_dict "Error querying documents: model unavailable") /\
  fst (Final.retrieve_and_answer Examples.blank_backends
                                 "Who signs the lease?" "user_alice_89abcdef"
                                 Examples.alice_world) =
    Return (PDict [("answer", PNone);
                   ("sources", PList []);
                   ("error", PStr "model unavailable")]).
Proof.
  destruct (answering_failures_are_returned Examples.blank_backends)
    as [Hservice Hfinal].
  split.
  - destruct (query_documents Examples.blank_backends Examples.service
                "Who signs the lease?" "user_alice_89abcdef" "alice" 5
                Examples.alice_world) as [r w'] eqn:Hrun.
    destruct (Hservice _ _ _ _ _ _ _ _ Hrun) as [_ Hfail].
    apply (Hfail (Exception "model unavailable")).
    assert (Hw : w' = snd (query_documents Examples.blank_backends
                Examples.service "Who signs the lease?" "user_alice_89abcdef"
                "alice" 5 Examples.alice_world)) by now rewrite Hrun.
    rewrite Hw. vm_compute. left. reflexivity.
  - apply (Hfinal "Who signs the lease?" "user_alice_89abcdef"
                  Examples.alice_world (Exception "model unavailable"));
      reflexivity.
Defined.

(** C5, as stated, fails: the language model fails while the service answers
    the owner of a namespace, and the object that the service returns has
    no [answer] and no [sources]. *)
Lemma service_error_is_not_structured :
  let r := fst (query_documents Examples.blank_backends Examples.service
                  "Who signs the lease?" "user_alice_89abcdef" "alice" 5
                  Examples.alice_world) in
  r = Return (failure_dict "Error querying documents: model unavailable") /\
  dict_get "answer"
           (failure_dict "Error querying documents: model unavailable") = None /\
  ~ structured_error
      (failure_dict "Error querying documents: model unavailable").
Proof.
  split; [vm_compute; reflexivity|]. split; [reflexivity|].
  intros (Hanswer & _). discriminate Hanswer.
Qed.

(** In [Final/main.py] the handle on the index is made before the [try]:
    when that call raises, [retrieve_and_answer] raises. *)
Example retrieve_and_answer_raises :
  fst (Final.retrieve_and_answer Examples.offline_backends
                                 "Who signs the lease?" "user_alice_89abcdef"
                                 Examples.alice_world) =
  Raise (Exception "index unreachable").
Proof. reflexivity. Qed.

(** C8.  Through the route [/rag/query], whatever [k] the request carries,
    and through the [/query] endpoint of [Final/main.py], every retrieval
    asks the index for at most 10 chunks. *)
Theorem retrieval_k_at_most_10 :
  (forall B service ns query k uid w,
      Forall (fun k' => (k' <= 10)%Z)
             (retrieval_ks
                (new_events w (snd (RagRoutes.query_documents
                                      B service ns query k uid w))))) /\
  (forall B ns query w,
      Forall (fun k' => (k' <= 10)%Z)
             (retrieval_ks
                (new_events w (snd (Final.query_documents B ns query w))))).
Proof.
  split.
  - intros B service ns query k uid w. unfold RagRoutes.query_documents.
    destruct (negb (Py.truthy (Py.strip query))).
    { cbn [snd]. unfold new_events. rewrite List.skipn_all. constructor. }
    destruct (query_documents B service query ns uid (Z.min k 10) w)
      as [r w'] eqn:Hrun.
    assert (Hks : Forall (fun k' => (k' <= 10)%Z)
                         (retrieval_ks (new_events w w'))).
    { apply query_documents_run in Hrun. apply answer_run_ks in Hrun as [Hks _].
      eapply List.Forall_impl; [|exact Hks]. intros k' ->. lia. }
    destruct r as [e|result]; [exact Hks|].
    destruct (subscript result "success") as [e|success]; [exact Hks|].
    destruct (negb (pyval_truthy success)).
    + destruct (subscript result "error"); exact Hks.
    + destruct (subscript result "answer"), (subscript result "sources"),
        (subscript result "namespace"); exact Hks.
  - intros B ns query w. unfold Final.query_documents.
    pose proof (retrieve_and_answer_ks B query ns w) as H.
    unfold bind. destruct (Final.retrieve_and_answer B query ns w) as [[e|d] w'];
      exact H.
Qed.

(** The method of the service takes the [k] it is given: the bound is the
    route's. *)
Example service_takes_any_k :
  retrieval_ks
    (new_events Examples.alice_world
       (snd (query_documents Examples.backends Examples.service
               "Who signs the lease?" "user_alice_89abcdef" "alice" 50
               Examples.alice_world))) = [50%Z].
Proof. vm_compute. reflexivity. Qed.


(** C9.  The registry is keyed by namespace: storing a record puts it under
    its own identifier and touches no other key.  From a registry in which
    every record sits under the namespace that an ingestion built for its
    owner (the empty registry is one), no sequence of core operations
    changes the owner of a record: whatever the registry holds under the
    namespace afterwards has the owner it had. *)
Theorem owner_never_changes
        (B : Backends) (self : RAGService) (calls : list CoreCall) (w : World)
        (ns : string) (ds : DocumentSet) :
  registry_wf (db w) ->
  Forall well_drawn calls ->
  document_sets (db w) !! ns = Some ds ->
  let w' := run_calls B self calls w in
  registry_wf (db w') /\
  (forall ds', document_sets (db w') !! ns = Some ds' ->
               user_id ds' = user_id ds) /\
  (forall (d : JSONDatabase) (document_set : DocumentSet),
      let d' := fst (JsonDb.store_document_set d document_set) in
      document_sets d' !! id document_set = Some document_set /\
      forall key, key <> id document_set ->
                  document_sets d' !! key = document_sets d !! key).
Proof.
  intros Hwf Hdrawn Hds w'.
  assert (Hwf' : registry_wf (db w')) by now apply run_calls_wf.
  split; [exact Hwf'|]. split.
  - intros ds' Hds'. exact (registry_wf_owner _ _ _ _ _ Hwf Hwf' Hds Hds').
  - intros d document_set d'. subst d'. unfold JsonDb.store_document_set. cbn.
    split; [apply lookup_insert_eq|]. intros key Hkey.
    now apply lookup_insert_ne.
Qed.

(** Whatever bob tries, the document set of alice stays hers. *)
Lemma owner_never_changes_witness :
  exists ds',
    document_sets
      (db (run_calls Examples.backends Examples.service
             [Delete "user_alice_89abcdef" "bob";
              IngestTry Examples.draw ["uploads/user_bob/will.pdf"] "bob" 64;
              Answer "Who signs the lease?" "user_alice_89abcdef" "bob" 5;
              ListSets "bob";
              Ingest Examples.draw ["uploads/user_bob/will.pdf"] "bob" 64]
             Examples.alice_world))
      !! "user_alice_89abcdef" = Some ds' /\
    user_id ds' = "alice".
Proof.
  destruct (owner_never_changes
              Examples.backends Examples.service
              [Delete "user_alice_89abcdef" "bob";
               IngestTry Examples.draw ["uploads/user_bob/will.pdf"] "bob" 64;
               Answer "Who signs the lease?" "user_alice_89abcdef" "bob" 5;
               ListSets "bob";
               Ingest Examples.draw ["uploads/user_bob/will.pdf"] "bob" 64]
              Examples.alice_world "user_alice_89abcdef" Examples.alice_set)
    as (_ & Hown & _).
  - exact registry_wf_alice.
  - repeat constructor.
  - vm_compute. reflexivity.
  - exists Examples.alice_set.
    assert (Hds : document_sets
              (db (run_calls Examples.backends Examples.service
                     [Delete "user_alice_89abcdef" "bob";
                      IngestTry Examples.draw ["uploads/user_bob/will.pdf"]
                                "bob" 64;
                      Answer "Who signs the lease?" "user_alice_89abcdef"
                             "bob" 5;
                      ListSets "bob";
                      Ingest Examples.draw ["uploads/user_bob/will.pdf"]
                             "bob" 64]
                     Examples.alice_world))
              !! "user_alice_89abcdef" = Some Examples.alice_set)
      by (vm_compute; reflexivity).
    split; [exact Hds|]. exact (Hown _ Hds).
Defined.

End ServiceProperties.


(* ===================================================================== *)
(** * The chunker: pages that fit in one chunk                            *)
(* ===================================================================== *)

Module PageFacts.
Import Py Words StrFacts Chunker ChunkerFacts OverlapFacts Bound BoundFacts Pages.

Lemma truthy_app a b : truthy (a +:+ b) = truthy a || truthy b.
Proof. destruct a; [reflexivity|]. now rewrite app_cons. Qed.

Lemma truthy_strip s : truthy (strip s) = true -> truthy s = true.
Proof.
  intros H. destruct s; [discriminate|reflexivity].
Qed.

Lemma para_step_strip meta st raw :
  para_step meta st raw = para_step meta st (strip raw).
Proof. destruct st as [cc out]. unfold para_step. now rewrite strip_idem. Qed.

Lemma para_step_skip meta st raw :
  truthy (strip raw) = false -> para_step meta st raw = st.
Proof. intros H. destruct st as [cc out]. unfold para_step. now rewrite H. Qed.

(** The loop over the raw pieces of a page is the loop over its
    paragraphs. *)
Lemma fold_paragraphs meta raws st :
  fold_left (para_step meta) raws st =
  fold_left (para_step meta) (List.filter truthy (map strip raws)) st.
Proof.
  revert st. induction raws as [|raw raws IH]; intros st; [reflexivity|].
  cbn [fold_left map List.filter].
  destruct (truthy (strip raw)) eqn:H.
  - cbn [fold_left]. rewrite <- para_step_strip. apply IH.
  - rewrite para_step_skip by assumption. apply IH.
Qed.

Lemma paragraphs_of_stripped text :
  Forall (fun p => strip p = p /\ truthy p = true) (paragraphs_of text).
Proof.
  unfold paragraphs_of. apply List.Forall_forall. intros p Hp.
  apply List.filter_In in Hp as [Hp Ht]. split; [|exact Ht].
  apply List.in_map_iff in Hp as (raw & <- & _). apply strip_idem.
Qed.

Lemma para_step_count meta cc out p :
  strip p = p -> truthy p = true ->
  let st' := para_step meta (cc, out) p in
  truthy (fst st') = true /\
  length (snd st') + 1 <= length out + occupied cc + 1.
Proof.
  intros Hs Hp. unfold para_step. rewrite Hs, Hp. cbn [negb].
  destruct ((2000 <? String.length cc + String.length p) && truthy cc) eqn:E.
  - apply andb_true_iff in E as [_ Hcc]. cbn [fst snd]. split.
    + destruct (truthy (overlap_of cc)); [|exact Hp].
      rewrite truthy_app, Hp. apply orb_true_r.
    + rewrite List.length_app. unfold occupied. rewrite Hcc. cbn. lia.
  - cbn [fst snd]. split; [|lia].
    rewrite truthy_app. destruct (truthy cc); [reflexivity|exact Hp].
Qed.

Lemma fold_para_step_count meta ps cc out :
  Forall (fun p => strip p = p /\ truthy p = true) ps ->
  let st' := fold_left (para_step meta) ps (cc, out) in
  length (snd st') + occupied (fst st') <=
  length out + occupied cc + length ps.
Proof.
  revert cc out. induction ps as [|p ps IH]; intros cc out H; cbn [fold_left].
  - cbn. lia.
  - inversion H as [|? ? [Hs Hp] Hps]; subst.
    destruct (para_step_count meta cc out p Hs Hp) as [Ht Hl].
    destruct (para_step meta (cc, out) p) as [cc1 out1]. cbn [fst snd] in *.
    specialize (IH cc1 out1 Hps). cbv zeta in IH.
    unfold occupied in IH at 2. rewrite Ht in IH. cbn [length]. lia.
Qed.

Lemma page_chunks_count doc :
  length (page_chunks doc) <= length (paragraphs_of (page_content doc)).
Proof.
  unfold page_chunks, doc_step. rewrite fold_paragraphs.
  fold (paragraphs_of (page_content doc)).
  pose proof (fold_para_step_count (metadata doc) _ "" []
                (paragraphs_of_stripped (page_content doc))) as H.
  cbv zeta in H.
  destruct (fold_left (para_step (metadata doc))
              (paragraphs_of (page_content doc)) ("", [])) as [cc out].
  cbn [fst snd length] in H. unfold occupied in H. cbn [truthy] in H.
  destruct (truthy (strip cc)) eqn:Ht.
  - apply truthy_strip in Ht. rewrite Ht in H.
    rewrite List.length_app. cbn. lia.
  - destruct (truthy cc); lia.
Qed.


(** *** Joining trimmed paragraphs *)

Lemma lstrip_fixed s : String.length (lstrip s) = String.length s -> lstrip s = s.
Proof.
  destruct s as [|c s]; [reflexivity|]. simpl.
  destruct (isspace c); [|reflexivity].
  intros H. pose proof (lstrip_length s). simpl in H. lia.
Qed.

Lemma strip_fixed s : strip s = s -> lstrip s = s /\ rstrip s = s.
Proof.
  intros H. assert (Hl : lstrip s = s).
  { apply lstrip_fixed. pose proof (lstrip_length s).
    pose proof (rstrip_length (lstrip s)). unfold strip in H.
    rewrite H in *. lia. }
  split; [exact Hl|]. unfold strip in H. now rewrite Hl in H.
Qed.

Lemma lstrip_app a b : truthy a = true -> lstrip a = a -> lstrip (a +:+ b) = a +:+ b.
Proof.
  destruct a as [|c a]; [discriminate|]. intros _ H. rewrite app_cons.
  simpl in *. destruct (isspace c); [|reflexivity].
  pose proof (lstrip_length a). rewrite H in *. simpl in *. lia.
Qed.

Lemma rstrip_app a b :
  truthy b = true -> rstrip b = b -> rstrip (a +:+ b) = a +:+ b.
Proof.
  intros Hb H. induction a as [|c a IH]; [exact H|].
  rewrite app_cons. rewrite rstrip_cons_nonempty; [now rewrite IH|].
  rewrite IH. destruct a; [now destruct b|discriminate].
Qed.

Lemma strip_app a b :
  truthy a = true -> truthy b = true -> lstrip a = a -> rstrip b = b ->
  strip (a +:+ b) = a +:+ b.
Proof.
  intros Ha Hb Hla Hrb. unfold strip.
  rewrite lstrip_app by assumption. now apply rstrip_app.
Qed.

(** [" ".join(ps)] *)
Lemma join_spaces_cons p q ps :
  join_spaces (p :: q :: ps) = p +:+ " " +:+ join_spaces (q :: ps).
Proof. reflexivity. Qed.

Lemma join_spaces_stripped ps :
  Forall (fun p => strip p = p /\ truthy p = true) ps ->
  strip (join_spaces ps) = join_spaces ps /\
  (ps <> [] -> truthy (join_spaces ps) = true).
Proof.
  induction ps as [|p [|q ps] IH]; intros H.
  - split; [reflexivity|congruence].
  - inversion H as [|? ? [Hs Hp] _]; subst. now split.
  - inversion H as [|? ? [Hs Hp] Hps]; subst.
    destruct (IH Hps) as [IHs IHt]. specialize (IHt ltac:(discriminate)).
    rewrite join_spaces_cons. split.
    + apply strip_fixed in Hs as [Hl _]. apply strip_fixed in IHs as [_ IHr].
      apply strip_app; try assumption.
      * rewrite truthy_app, IHt. apply orb_true_r.
      * now apply rstrip_app.
    + intros _. rewrite truthy_app, Hp. reflexivity.
Qed.

(** A buffer that never meets the limit is the paragraphs joined. *)
Lemma fold_para_step_join meta ps cc out :
  Forall (fun p => strip p = p /\ truthy p = true) ps ->
  truthy cc = true ->
  String.length (join_spaces (cc :: ps)) <= 2001 ->
  fold_left (para_step meta) ps (cc, out) = (join_spaces (cc :: ps), out).
Proof.
  revert cc. induction ps as [|p ps IH]; intros cc H Hcc Hlen; [reflexivity|].
  inversion H as [|? ? [Hs Hp] Hps]; subst. cbn [fold_left].
  assert (Hstep : para_step meta (cc, out) p = (cc +:+ " " +:+ p, out)).
  { unfold para_step. rewrite Hs, Hp, Hcc. cbn [negb].
    replace (2000 <? String.length cc + String.length p) with false;
      [reflexivity|].
    symmetry. apply Nat.ltb_ge. rewrite join_spaces_cons in Hlen.
    rewrite !length_app in Hlen. simpl in Hlen.
    assert (String.length p <= String.length (join_spaces (p :: ps))).
    { destruct ps; [reflexivity|]. rewrite join_spaces_cons, length_app. lia. }
    lia. }
  rewrite Hstep. rewrite IH.
  - f_equal. rewrite !join_spaces_cons.
    destruct ps; [reflexivity|]. rewrite !join_spaces_cons.
    now rewrite !app_assoc.
  - exact Hps.
  - rewrite truthy_app, Hcc. reflexivity.
  - replace (join_spaces ((cc +:+ " " +:+ p) :: ps))
      with (join_spaces (cc :: p :: ps)); [exact Hlen|].
    rewrite !join_spaces_cons.
    destruct ps; [reflexivity|]. rewrite !join_spaces_cons.
    now rewrite !app_assoc.
Qed.

(** The chunks of a page with one paragraph, or whose paragraphs joined
    hold in 2001 characters. *)
Lemma page_chunks_join doc :
  let ps := paragraphs_of (page_content doc) in
  length ps <= 1 \/ String.length (join_spaces ps) <= 2001 ->
  page_chunks doc =
  if truthy (join_spaces ps) then [mkDocument (join_spaces ps) (metadata doc)]
  else [].
Proof.
  intros ps Hsmall. unfold page_chunks, doc_step. rewrite fold_paragraphs.
  fold (paragraphs_of (page_content doc)). fold ps.
  pose proof (paragraphs_of_stripped (page_content doc)) as Hps. fold ps in Hps.
  destruct ps as [|p ps']; [reflexivity|].
  inversion Hps as [|? ? [Hs Hp] Hps']; subst. cbn [fold_left].
  assert (Hfirst : para_step (metadata doc) ("", []) p = (p, [])).
  { unfold para_step. rewrite Hs, Hp. cbn [negb truthy].
    rewrite andb_false_r. reflexivity. }
  rewrite Hfirst.
  assert (Hlen : String.length (join_spaces (p :: ps')) <= 2001 \/ ps' = []).
  { destruct Hsmall as [H|H]; [right|now left].
    destruct ps'; [reflexivity|]. cbn in H. lia. }
  assert (Hfold : fold_left (para_step (metadata doc)) ps' (p, []) =
                  (join_spaces (p :: ps'), [])).
  { destruct Hlen as [Hlen| ->]; [|reflexivity].
    now apply fold_para_step_join. }
  rewrite Hfold.
  destruct (join_spaces_stripped (p :: ps') Hps) as [Hstrip Htruthy].
  rewrite Hstrip, (Htruthy ltac:(discriminate)). reflexivity.
Qed.


(** *** The paragraphs joined are no longer than the page *)

Lemma total_length_cons p ps :
  total_length (p :: ps) = String.length p + total_length ps.
Proof. reflexivity. Qed.

Lemma split_blank_step c1 c2 s2 :
  split_blank (String c1 (String c2 s2)) =
  if is_newline c1 && is_newline c2 then "" :: split_blank s2
  else push c1 (split_blank (String c2 s2)).
Proof. reflexivity. Qed.

Lemma push_nonempty c ps : push c ps <> [].
Proof. destruct ps; discriminate. Qed.

Lemma split_blank_nonempty s : split_blank s <> [].
Proof.
  destruct s as [|c1 [|c2 s2]]; [discriminate|discriminate|].
  rewrite split_blank_step.
  destruct (is_newline c1 && is_newline c2); [discriminate|].
  apply push_nonempty.
Qed.

Lemma push_measure c ps :
  ps <> [] ->
  total_length (push c ps) = S (total_length ps) /\
  length (push c ps) = length ps.
Proof. destruct ps; [congruence|]. intros _. now split. Qed.

Lemma split_blank_length s :
  total_length (split_blank s) + 2 * (length (split_blank s) - 1)
  = String.length s.
Proof.
  remember (String.length s) as n eqn:Hn. revert s Hn.
  induction n as [n IH] using lt_wf_ind. intros s Hn.
  destruct s as [|c1 [|c2 s2]]; [now subst|now subst|].
  rewrite split_blank_step.
  destruct (is_newline c1 && is_newline c2).
  - specialize (IH (String.length s2) ltac:(subst; simpl; lia) s2 eq_refl).
    pose proof (split_blank_nonempty s2).
    destruct (split_blank s2) as [|x xs] eqn:E; [congruence|].
    subst n. unfold total_length in *. cbn in *. lia.
  - specialize (IH (String.length (String c2 s2)) ltac:(subst; simpl; lia)
                   (String c2 s2) eq_refl).
    destruct (push_measure c1 (split_blank (String c2 s2))
                (split_blank_nonempty _)) as [Ht Hl].
    rewrite Ht, Hl. subst n. simpl String.length in *. lia.
Qed.

Lemma join_spaces_length qs :
  String.length (join_spaces qs) <= total_length qs + (length qs - 1).
Proof.
  induction qs as [|p [|q qs] IH]; [cbn; lia|cbn; lia|].
  rewrite join_spaces_cons, !length_app. unfold total_length in *.
  cbn in *. lia.
Qed.

Lemma paragraphs_measure raws :
  total_length (List.filter truthy (map strip raws)) <= total_length raws /\
  length (List.filter truthy (map strip raws)) <= length raws.
Proof.
  induction raws as [|r raws [IHt IHl]]; [now split|].
  cbn [map List.filter]. pose proof (strip_length r).
  destruct (truthy (strip r)); cbn [map length] in *;
    rewrite !total_length_cons; lia.
Qed.

Lemma join_paragraphs_length text :
  String.length (join_spaces (paragraphs_of text)) <= String.length text.
Proof.
  unfold paragraphs_of.
  pose proof (join_spaces_length
                (List.filter truthy (map strip (split_blank text)))).
  destruct (paragraphs_measure (split_blank text)).
  pose proof (split_blank_length text). lia.
Qed.

(** What the filter leaves of a page that is not split. *)
Lemma small_page_filtered doc :
  let ps := paragraphs_of (page_content doc) in
  length ps <= 1 \/ String.length (join_spaces ps) <= 2001 ->
  List.filter big_enough (page_chunks doc) =
  if 100 <? String.length (join_spaces ps)
  then [mkDocument (join_spaces ps) (metadata doc)]
  else [].
Proof.
  intros ps H. rewrite (page_chunks_join doc H). fold ps.
  destruct (truthy (join_spaces ps)) eqn:Ht.
  - cbn [List.filter]. unfold big_enough. cbn [page_content].
    now destruct (100 <? String.length (join_spaces ps)).
  - apply truthy_false in Ht. rewrite Ht. reflexivity.
Qed.

End PageFacts.


(* ===================================================================== *)
(** * The chunker: what a page turns into                                 *)
(* ===================================================================== *)

Section PageProperties.
Import Py Words StrFacts Chunker ChunkerFacts OverlapFacts Bound BoundFacts.
Import Pages PageFacts.

(** X1. A chunk never mixes pages: every chunk of the output is a chunk
    of one page of the input taken alone, and carries the metadata of
    that page. *)
Theorem chunk_comes_from_one_page (docs : list Document) (chunk : Document) :
  In chunk (semantic_chunk_documents docs) ->
  exists doc,
    In doc docs /\
    metadata chunk = metadata doc /\
    In chunk (semantic_chunk_documents [doc]).
Proof.
  intros Hin.
  apply in_semantic_chunk_documents in Hin as (Hbig & doc & Hdoc & Hchunk).
  exists doc. split; [exact Hdoc|]. split.
  - destruct (page_chunks_emits (fun _ => True) (fun _ => True) doc)
      with (d := chunk) as (cc & _ & ->); auto.
    apply List.Forall_forall. auto.
  - rewrite semantic_chunk_documents_single. apply List.filter_In. now split.
Qed.

(** Of two pages with their page numbers, the chunk of the second one
    carries the second number. *)
Lemma chunk_comes_from_one_page_witness :
  let first := mkDocument (replicate 150 "a") (PDict [("page", PInt 0)]) in
  let second := mkDocument (replicate 150 "b") (PDict [("page", PInt 1)]) in
  exists doc,
    In doc [first; second] /\
    metadata second = metadata doc /\
    In second (semantic_chunk_documents [doc]).
Proof.
  apply (chunk_comes_from_one_page
           [mkDocument (replicate 150 "a") (PDict [("page", PInt 0)]);
            mkDocument (replicate 150 "b") (PDict [("page", PInt 1)])]
           (mkDocument (replicate 150 "b") (PDict [("page", PInt 1)]))).
  vm_compute. right. left. reflexivity.
Defined.

(** X2. The chunker never makes more chunks than the pages have
    paragraphs (the pieces between blank lines that are not blank). *)
Theorem chunks_at_most_paragraphs (docs : list Document) :
  length (semantic_chunk_documents docs) <=
  list_sum (map (fun doc => length (paragraphs_of (page_content doc))) docs).
Proof.
  rewrite semantic_chunk_documents_concat.
  induction docs as [|doc docs IH]; [reflexivity|].
  cbn [map List.concat]. rewrite List.length_app.
  change (list_sum (?x :: ?l)) with (x + list_sum l).
  pose proof (List.filter_length_le big_enough (page_chunks doc)).
  pose proof (page_chunks_count doc). lia.
Qed.

(** X3. A page of one paragraph, or whose paragraphs joined by single
    spaces take at most 2001 characters, is never split: it gives the
    joined text as its only chunk when that has more than 100 characters,
    and no chunk otherwise. *)
Theorem small_page_is_one_chunk (doc : Document) :
  let ps := paragraphs_of (page_content doc) in
  length ps <= 1 \/ String.length (join_spaces ps) <= 2001 ->
  semantic_chunk_documents [doc] =
  if 100 <? String.length (join_spaces ps)
  then [mkDocument (join_spaces ps) (metadata doc)]
  else [].
Proof.
  intros ps H. rewrite semantic_chunk_documents_single.
  now apply small_page_filtered.
Qed.

(** Two paragraphs of 1000 characters give one chunk of 2001. *)
Lemma small_page_is_one_chunk_witness :
  semantic_chunk_documents [Examples.two_paragraph_page] =
  [Examples.joined_chunk].
Proof.
  assert (Hs : length (paragraphs_of
                         (page_content Examples.two_paragraph_page)) <= 1 \/
               String.length
                 (join_spaces
                    (paragraphs_of
                       (page_content Examples.two_paragraph_page))) <= 2001).
  { right. apply Nat.leb_le. vm_compute. reflexivity. }
  rewrite (small_page_is_one_chunk Examples.two_paragraph_page Hs).
  vm_compute. reflexivity.
Defined.

(** X4. A page of at most 100 characters leaves no chunk at all: its
    text is dropped from the index. *)
Theorem short_page_is_dropped (doc : Document) :
  String.length (page_content doc) <= 100 ->
  semantic_chunk_documents [doc] = [].
Proof.
  intros H. pose proof (join_paragraphs_length (page_content doc)) as Hj.
  rewrite semantic_chunk_documents_single.
  rewrite small_page_filtered by (right; lia).
  replace (100 <? _) with false; [reflexivity|].
  symmetry. apply Nat.ltb_ge. lia.
Qed.

(** A page of exactly 100 characters. *)
Lemma short_page_is_dropped_witness :
  semantic_chunk_documents [Examples.page (replicate 100 "a")] = [].
Proof.
  apply short_page_is_dropped.
  apply Nat.leb_le. vm_compute. reflexivity.
Defined.

End PageProperties.


(* ===================================================================== *)
(** * Ingestion: what reaches the index                                   *)
(* ===================================================================== *)

Module IndexFacts.
Import Py MonadFacts RagService IngestFacts GateFacts BatchFacts.

Lemma gained_refl idx ns w : gained idx ns [] w w.
Proof. split; [now rewrite List.app_nil_r|reflexivity]. Qed.

Lemma gained_trans idx ns b1 b2 w w1 w2 :
  gained idx ns b1 w w1 -> gained idx ns b2 w1 w2 ->
  gained idx ns (b1 ++ b2) w w2.
Proof.
  intros [H1 K1] [H2 K2]. split.
  - rewrite H2, H1, List.concat_app, List.app_assoc. reflexivity.
  - intros key Hk. rewrite K2, K1 by assumption. reflexivity.
Qed.

Lemma gained_same idx ns w w' :
  vectors w' = vectors w -> gained idx ns [] w w'.
Proof. intros H. split; rewrite H; [now rewrite List.app_nil_r|reflexivity]. Qed.

Section WithBackends.
Variable B : Backends.
Variable self : RAGService.

(** One write: the batch is appended under the namespace, or the index
    is as before and the exception is raised. *)
Lemma from_documents_run ns batch w o w' :
  from_documents B self ns batch w = (o, w') ->
  db w' = db w /\
  match o with
  | Return _ =>
      trace w' = trace w ++ [FromDocuments (index_name self) ns batch None] /\
      gained (index_name self) ns [batch] w w'
  | Raise e =>
      trace w' =
        trace w ++ [FromDocuments (index_name self) ns batch (Some e)] /\
      vectors w' = vectors w
  end.
Proof.
  unfold from_documents, Pinecone.from_documents.
  destruct (from_documents_failure B (vectors w) (index_name self) ns batch)
    as [e|] eqn:E; intros H; inversion H; subst; cbn [db trace vectors].
  - now repeat split.
  - split; [reflexivity|]. split; [reflexivity|]. split.
    + unfold stored_under. cbn [vectors List.concat].
      rewrite lookup_insert_eq. cbn. now rewrite List.app_nil_r.
    + intros key Hk. cbn [vectors]. now rewrite lookup_insert_ne.
Qed.

(** The loop over the batches writes them in order and stops at the
    first write that fails. *)
Lemma store_batches_run chunks ns bs total starts w o w' :
  store_batches B self chunks ns bs total starts w = (o, w') ->
  let batch := fun i => firstn bs (skipn i chunks) in
  exists j new,
    trace w' = trace w ++ new /\
    written_batches new = map batch (firstn j starts) /\
    db w' = db w /\
    gained (index_name self) ns (map batch (firstn j starts)) w w' /\
    match o with
    | Return _ => j = length starts /\ failed_writes new = []
    | Raise e => j < length starts /\ failed_writes new = [e]
    end.
Proof.
  intros H batch. revert w H.
  induction starts as [|i starts IH]; intros w H.
  - inversion H; subst. exists 0, []. rewrite List.app_nil_r.
    repeat split; try reflexivity. apply gained_refl.
  - cbn [store_batches] in H.
    apply bind_inv in H as [([] & w1 & H1 & H)|(e & H1 & ->)].
    + apply from_documents_run in H1 as (Hd1 & Ht1 & Hg1).
      apply bind_inv in H as [([] & w2 & H2 & H)|(e & H2 & ?)];
        [|rewrite logger_run in H2; discriminate].
      rewrite logger_run in H2. inversion H2; subst w2. clear H2.
      apply IH in H as (j & new & Ht & Hw & Hd & Hg & Ho).
      cbn [trace db] in Ht, Hd.
      exists (S j),
        ([FromDocuments (index_name self) ns (batch i) None;
          Logged (info_stored (i / bs + 1) total)] ++ new).
      split; [rewrite Ht, Ht1, <- !List.app_assoc; reflexivity|].
      split; [cbn; now rewrite Hw|].
      split; [congruence|]. split.
      * cbn [firstn map].
        apply (gained_trans _ _ [batch i] _ _ _ _ Hg1).
        destruct Hg as [Hg Hk]. split; [exact Hg|exact Hk].
      * destruct o as [e|[]]; cbn [length]; destruct Ho as [Hj Hf];
          (split; [lia|exact Hf]).
    + apply from_documents_run in H1 as (Hd1 & Ht1 & Hv1).
      exists 0, [FromDocuments (index_name self) ns (batch i) (Some e)].
      repeat split; try assumption; try reflexivity.
      * cbn. now rewrite Hv1, List.app_nil_r.
      * intros key _. now rewrite Hv1.
      * cbn [length]. lia.
Qed.

Lemma map_firstn {X Y} (f : X -> Y) j l :
  map f (firstn j l) = firstn j (map f l).
Proof. symmetry. apply List.firstn_map. Qed.

(** The batches that the body of the [try] wrote are the first ones of
    the chunks, and they are what the namespace gained. *)
Lemma body_index draw fps uid bs w o w' :
  process_and_store_documents_body B self draw fps uid bs w = (o, w') ->
  let ns := namespace_of uid draw in
  (exists e, fst (load_all B fps [] w) = Raise e /\ o = Raise e /\
             vectors w' = vectors w /\
             namespaces_used (new_events w w') = [] /\
             failed_writes (new_events w w') = []) \/
  (exists docs,
      fst (load_all B fps [] w) = Return docs /\
      let chunks := Chunker.semantic_chunk_documents docs in
      exists j,
        written_batches (new_events w w') =
          firstn j (batches_of chunks bs) /\
        gained (index_name self) ns (firstn j (batches_of chunks bs)) w w' /\
        match o with
        | Return _ => j = length (batches_of chunks bs)
        | Raise _ => True
        end /\
        (failed_writes (new_events w w') <> [] -> (0 < bs)%Z)).
Proof.
  intros H ns. unfold process_and_store_documents_body in H.
  fold ns in H.
  apply bind_inv in H as [(docs & w1 & H1 & H)|(e & H1 & ->)].
  2:{ left. exists e. rewrite H1. split; [reflexivity|].
      split; [reflexivity|].
      pose proof (load_all_quiet B _ _ _ _ _ H1) as [_ (n0 & Ht0 & Hf0)].
      apply load_all_index in H1 as [Hv (n1 & Ht1 & Hn1)].
      split; [exact Hv|]. rewrite (new_events_app _ _ _ Ht1).
      split; [exact Hn1|].
      rewrite Ht1 in Ht0. apply List.app_inv_head in Ht0. now subst n0. }
  right. exists docs. rewrite H1. split; [reflexivity|]. cbv zeta.
  pose proof (load_all_quiet B _ _ _ _ _ H1) as [Hdb1 (n0 & Ht0 & Hf1)].
  apply load_all_index in H1 as [Hv1 (n1 & Ht1 & Hn1)].
  assert (n0 = n1) as ->
      by (rewrite Ht1 in Ht0; now apply List.app_inv_head in Ht0).
  clear Ht0.
  apply no_namespace_no_batch in Hn1.
  rewrite (bind_return _ _ _ _ _ (semantic_chunk_documents_run _ w1)) in H.
  set (chunks := Chunker.semantic_chunk_documents docs) in *.
  apply bind_inv in H as [([] & w3 & H3 & H)|(e & H3 & ?)];
    [|rewrite logger_run in H3; discriminate].
  rewrite logger_run in H3. inversion H3; subst w3. clear H3.
  cbn [db vectors trace] in H.
  set (w3 := mkWorld _ _ _) in H.
  assert (Hstarts :
            map (fun i => firstn (Z.to_nat bs) (skipn i chunks))
                (if Z.ltb 0 bs
                 then range_step (length chunks) (Z.to_nat bs) else [])
            = batches_of chunks bs).
  { unfold batches_of. now destruct (Z.ltb 0 bs). }
  assert (Hw3 : new_events w w3 =
                n1 ++ [Logged (info_generated (length chunks));
                       Logged (info_created (length chunks))]).
  { apply new_events_app. subst w3. cbn [trace].
    rewrite Ht1, <- !List.app_assoc. reflexivity. }
  assert (Hg3 : gained (index_name self) ns [] w w3).
  { apply gained_same. subst w3. exact Hv1. }
  apply bind_inv in H as [(total & w4 & H4 & H)|(e & H4 & ->)].
  2:{ exists 0. destruct (Z.eqb bs 0); inversion H4; subst w'.
      rewrite Hw3, written_batches_app, failed_writes_app, Hn1, Hf1.
      cbn [firstn].
      split; [reflexivity|]. split; [exact Hg3|]. split; [exact I|].
      intros Hne. now contradiction Hne. }
  assert (w4 = w3) as ->.
  { destruct (Z.eqb bs 0); inversion H4; reflexivity. }
  clear H4.
  apply bind_inv in H as [([] & w5 & H5 & H)|(e & H5 & ->)].
  - apply store_batches_run in H5
      as (j & new & Ht5 & Hw5 & Hd5 & Hg5 & -> & Hf5).
    rewrite List.firstn_all in Hw5, Hg5. rewrite Hstarts in Hw5, Hg5.
    cbv [db_store_document_set bind read_db write_db ret logger emit
           JsonDb.store_document_set] in H.
    inversion H; subst o w'. clear H.
    exists (length (batches_of chunks bs)). rewrite List.firstn_all.
    erewrite new_events_app.
    2:{ cbn [trace]. rewrite Ht5. subst w3. cbn [trace].
        rewrite Ht1, <- !List.app_assoc. reflexivity. }
    split; [|split; [|split]].
    + rewrite !written_batches_app, Hn1, Hw5. cbn [written_batches app].
      now rewrite List.app_nil_r.
    + destruct (gained_trans _ _ _ _ _ _ _ Hg3 Hg5) as [Ha Hb].
      split; [exact Ha|exact Hb].
    + rewrite <- Hstarts. now rewrite List.length_map.
    + rewrite !failed_writes_app, Hf1, Hf5. cbn. intros Hne.
      now contradiction Hne.
  - apply store_batches_run in H5
      as (j & new & Ht5 & Hw5 & Hd5 & Hg5 & Hj & Hf5).
    rewrite map_firstn, Hstarts in Hw5, Hg5.
    exists j. split; [|split; [|split; [exact I|]]].
    + erewrite new_events_app.
      2:{ rewrite Ht5. subst w3. cbn [trace].
          rewrite Ht1, <- !List.app_assoc. reflexivity. }
      rewrite !written_batches_app, Hn1, Hw5. cbn [written_batches app].
      reflexivity.
    + exact (gained_trans _ _ _ _ _ _ _ Hg3 Hg5).
    + intros _. destruct (Z.ltb_spec 0 bs) as [Hp|Hle]; [exact Hp|].
      cbn [length] in Hj. lia.
Qed.

(** What the [try] statement adds to a run of its body: nothing when
    the body returns, one log line and the error result when it
    raises. *)
Lemma try_of_body draw fps uid bs w r w' :
  process_and_store_documents_try B self draw fps uid bs w = (r, w') ->
  exists o wb,
    process_and_store_documents_body B self draw fps uid bs w = (o, wb) /\
    match o with
    | Return d => r = Return d /\ w' = wb
    | Raise e =>
        r = Return (failure_dict
                      ("Error processing documents: " +:+ str_exn e)) /\
        db w' = db w /\ vectors w' = vectors wb /\
        new_events w w' = new_events w wb ++ [Logged (error_processing e)]
    end.
Proof.
  unfold process_and_store_documents_try, try_except. intros H.
  destruct (process_and_store_documents_body B self draw fps uid bs w)
    as [[e|d] wb] eqn:Hbody.
  - exists (Raise e), wb. split; [reflexivity|].
    apply body_outcome in Hbody.
    assert (Hq : db wb = db w /\ exists new, trace wb = trace w ++ new).
    { destruct Hbody as [[Hd (new & Ht & _)]|[Hd (new & Ht & _)]];
        (split; [exact Hd|now exists new]). }
    destruct Hq as [Hd (new & Ht)].
    unfold bind, logger, emit, ret in H. inversion H; subst r w'.
    cbn [db vectors]. repeat split; try assumption.
    rewrite (new_events_app w wb new Ht).
    apply new_events_app. cbn [trace]. now rewrite Ht, List.app_assoc.
  - exists (Return d), wb. split; [reflexivity|].
    inversion H; subst. now split.
Qed.

(** A file of another format among the paths makes the loading raise. *)
Lemma load_all_unsupported fps all_docs w fp :
  In fp fps -> supported_format (splitext_lower B fp) = false ->
  exists e, fst (load_all B fps all_docs w) = Raise e.
Proof.
  intros Hin Hfmt. revert all_docs w.
  induction fps as [|fp0 fps IH]; intros all_docs w; [destruct Hin|].
  cbn [load_all].
  destruct (load_documents B fp0 w) as [[e|docs] w1] eqn:H1.
  - exists e. now rewrite (bind_raise _ _ _ _ _ H1).
  - rewrite (bind_return _ _ _ _ _ H1).
    rewrite (bind_return _ _ _ _ _ (logger_run _ _)).
    destruct Hin as [->|Hin]; [|now apply IH].
    exfalso. unfold load_documents, supported_format in *.
    apply orb_false_iff in Hfmt as [Hp Hd]. rewrite Hp, Hd in H1.
    discriminate.
Qed.

End WithBackends.
End IndexFacts.


(* ===================================================================== *)
(** * Ingestion: success, rejection and partial writes                    *)
(* ===================================================================== *)

Section IngestionProperties.
Import Py MonadFacts RagService IngestFacts GateFacts BatchFacts IndexFacts.

(** X5. No user can ingest through [process_and_store_documents]: the
    feature ["document_upload"] that its gate asks for is in the list of
    no tier.  Every call leaves the world as it found it, and either
    returns the error of the gate or, for a user whose stored tier is not
    one of the four, raises the [ValueError] of the tier. *)
Theorem ingestion_refuses_every_user
        (B : Backends) (self : RAGService) (draw : Draw)
        (file_paths : list string) (uid : string) (batch_size : Z)
        (w : World) :
  (forall tier,
      Subscription.contains "document_upload"
        (Subscription.features (Subscription.TIER_LIMITS tier)) = false) /\
  exists r,
    process_and_store_documents B self draw file_paths uid batch_size w =
      (r, w) /\
    match r with
    | Return d =>
        d = failure_dict
              "Document upload not available for your subscription tier"
    | Raise e =>
        exists user stored,
          users (db w) !! uid = Some user /\
          subscription_tier user = Some stored /\
          Subscription.SubscriptionTier_of stored = Raise e
    end.
Proof.
  split; [exact document_upload_in_no_tier|].
  rewrite process_and_store_documents_gate.
  unfold Subscription.check_feature_access, JsonDb.get_user_by_id.
  destruct (users (db w) !! uid) as [user|] eqn:Huser;
    [|eexists; split; reflexivity].
  destruct (Subscription.SubscriptionTier_of
              (default "Basic" (subscription_tier user)))
    as [e|tier] eqn:Htier.
  - exists (Raise e). split; [reflexivity|].
    destruct (subscription_tier user) as [stored|] eqn:Hstored;
      [|discriminate].
    now exists user, stored.
  - rewrite document_upload_in_no_tier. eexists. split; reflexivity.
Qed.

(** X6. An ingestion that succeeds with a positive batch size has put
    every chunk of the loaded pages in the index, under its new
    namespace, after what the namespace held and in the order of the
    chunker; it has touched no other namespace; and the record it
    registers and the result it returns count exactly these chunks. *)
Theorem successful_ingestion_indexes_every_chunk
        (B : Backends) (self : RAGService) (draw : Draw)
        (file_paths : list string) (uid : string) (batch_size : Z)
        (w w' : World) (d : pyval) :
  (0 < batch_size)%Z ->
  process_and_store_documents_try B self draw file_paths uid batch_size w =
    (Return d, w') ->
  dict_get "success" d = Some (PBool true) ->
  let ns := namespace_of uid draw in
  exists docs,
    fst (load_all B file_paths [] w) = Return docs /\
    let chunks := Chunker.semantic_chunk_documents docs in
    stored_under (vectors w') (index_name self) ns =
      stored_under (vectors w) (index_name self) ns ++ chunks /\
    (forall key, key <> (index_name self, ns) ->
                 vectors w' !! key = vectors w !! key) /\
    JsonDb.get_document_set (db w') ns =
      Some (mkDocumentSet ns uid file_paths (length chunks)
                          (time_time draw) "ready") /\
    dict_get "chunks_created" d = Some (PInt (Z.of_nat (length chunks))).
Proof.
  intros Hbs Hrun Hsuccess ns.
  apply try_of_body in Hrun as (o & wb & Hbody & Ho).
  destruct o as [e|d0].
  { destruct Ho as (Hr & _). inversion Hr; subst d. discriminate. }
  destruct Ho as (Hr & ->). inversion Hr; subst d0. clear Hr.
  pose proof (body_index B self _ _ _ _ _ _ _ Hbody) as Hindex.
  cbv zeta in Hindex.
  destruct Hindex as [(e & _ & He & _)|(docs & Hload & j & _ & Hg & -> & _)];
    [discriminate|].
  exists docs. split; [exact Hload|]. cbv zeta.
  rewrite List.firstn_all in Hg. destruct Hg as [Hs Hk].
  rewrite (batches_of_concat _ _ Hbs) in Hs.
  split; [exact Hs|]. split; [exact Hk|].
  apply body_return in Hbody as (docs' & w1 & Hload' & -> & Hdb & _).
  rewrite Hload' in Hload. inversion Hload; subst docs'.
  split; [|reflexivity].
  rewrite Hdb. unfold JsonDb.get_document_set, JsonDb.store_document_set.
  cbn [fst document_sets id]. apply lookup_insert_eq.
Qed.

(** One upload of two pages, written in one batch. *)
Lemma successful_ingestion_indexes_every_chunk_witness :
  let w' := snd (process_and_store_documents_try
                   Examples.backends Examples.service Examples.draw
                   ["uploads/user_alice/lease.pdf"] "alice" 64
                   Examples.empty_world) in
  stored_under (vectors w') "legalai-index" "user_alice_01234567" =
    [Examples.page (replicate 150 "a"); Examples.page (replicate 150 "b")] /\
  JsonDb.get_document_set (db w') "user_alice_01234567" =
    Some (mkDocumentSet "user_alice_01234567" "alice"
                        ["uploads/user_alice/lease.pdf"] 2 1700000000
                        "ready").
Proof.
  destruct (successful_ingestion_indexes_every_chunk
              Examples.backends Examples.service Examples.draw
              ["uploads/user_alice/lease.pdf"] "alice" 64
              Examples.empty_world
              (snd (process_and_store_documents_try
                      Examples.backends Examples.service Examples.draw
                      ["uploads/user_alice/lease.pdf"] "alice" 64
                      Examples.empty_world))
              (PDict [("success", PBool true);
                      ("namespace", PStr "user_alice_01234567");
                      ("chunks_created", PInt 2);
                      ("message",
                       PStr "Documents successfully processed and indexed")])
              eq_refl)
    as (docs & Hload & Hstored & _ & Hset & _).
  - vm_compute. reflexivity.
  - reflexivity.
  - vm_compute in Hload. inversion Hload; subst docs. clear Hload.
    split; [exact Hstored|exact Hset].
Defined.

(** X7. A path whose extension is neither [.pdf] nor [.docx] fails the
    whole ingestion, whatever the other files are: the result is an
    error, nothing is registered, and the index is neither written nor
    called. *)
Theorem unsupported_file_fails_whole_ingestion
        (B : Backends) (self : RAGService) (draw : Draw)
        (file_paths : list string) (uid : string) (batch_size : Z)
        (w : World) (fp : string) :
  In fp file_paths ->
  supported_format (splitext_lower B fp) = false ->
  exists msg w',
    process_and_store_documents_try B self draw file_paths uid batch_size w =
      (Return (failure_dict ("Error processing documents: " +:+ msg)), w') /\
    db w' = db w /\
    vectors w' = vectors w /\
    namespaces_used (new_events w w') = [].
Proof.
  intros Hin Hfmt.
  destruct (load_all_unsupported B file_paths [] w fp Hin Hfmt) as [e He].
  destruct (process_and_store_documents_try B self draw file_paths uid
              batch_size w) as [r w'] eqn:Hrun.
  apply try_of_body in Hrun as (o & wb & Hbody & Ho).
  pose proof (body_index B self _ _ _ _ _ _ _ Hbody) as Hindex.
  cbv zeta in Hindex.
  destruct Hindex as [(e' & _ & -> & Hv & Hn & _)|(docs & Hload & _)];
    [|rewrite He in Hload; discriminate].
  destruct Ho as (-> & Hdb & Hv' & Hnew).
  exists (str_exn e'), w'. split; [reflexivity|]. split; [exact Hdb|].
  split; [congruence|].
  rewrite Hnew, namespaces_used_app, Hn. reflexivity.
Qed.

(** A PDF uploaded together with a Word 97 file: neither is indexed. *)
Lemma unsupported_file_fails_whole_ingestion_witness :
  exists w',
    process_and_store_documents_try
      MoreExamples.mixed_backends Examples.service Examples.draw
      ["uploads/user_alice/lease.pdf"; "uploads/user_alice/notes.doc"]
      "alice" 64 Examples.empty_world =
      (Return (failure_dict
                 "Error processing documents: Unsupported file format: .doc"),
       w') /\
    db w' = db Examples.empty_world /\
    vectors w' = vectors Examples.empty_world.
Proof.
  destruct (unsupported_file_fails_whole_ingestion
              MoreExamples.mixed_backends Examples.service Examples.draw
              ["uploads/user_alice/lease.pdf"; "uploads/user_alice/notes.doc"]
              "alice" 64 Examples.empty_world
              "uploads/user_alice/notes.doc")
    as (msg & w' & Hrun & Hdb & Hv & _).
  - right. left. reflexivity.
  - reflexivity.
  - exists w'. split; [|split; [exact Hdb|exact Hv]].
    rewrite Hrun. f_equal.
    assert (Hfst : fst (process_and_store_documents_try
              MoreExamples.mixed_backends Examples.service Examples.draw
              ["uploads/user_alice/lease.pdf"; "uploads/user_alice/notes.doc"]
              "alice" 64 Examples.empty_world) =
            Return (failure_dict
                 "Error processing documents: Unsupported file format: .doc"))
      by (vm_compute; reflexivity).
    rewrite Hrun in Hfst. exact Hfst.
Defined.

(** X8. A batch write that fails is not undone: the batches written
    before it stay in the index under the new namespace, they are the
    first chunks of the upload in order, and no record of the registry
    names them. *)
Theorem failed_ingestion_keeps_written_batches
        (B : Backends) (self : RAGService) (draw : Draw)
        (file_paths : list string) (uid : string) (batch_size : Z)
        (w w' : World) (r : outcome pyval) (e : exn) :
  process_and_store_documents_try B self draw file_paths uid batch_size w =
    (r, w') ->
  In e (failed_writes (new_events w w')) ->
  let ns := namespace_of uid draw in
  let written := List.concat (written_batches (new_events w w')) in
  exists docs rest,
    fst (load_all B file_paths [] w) = Return docs /\
    Chunker.semantic_chunk_documents docs = written ++ rest /\
    stored_under (vectors w') (index_name self) ns =
      stored_under (vectors w) (index_name self) ns ++ written /\
    db w' = db w.
Proof.
  intros Hrun He ns written.
  pose proof (try_outcome B self _ _ _ _ _ _ _ Hrun) as [_ (new & Ht & Hf)].
  rewrite (new_events_app _ _ _ Ht) in He.
  destruct (Hf e He) as [_ Hdb]. clear Hf.
  rewrite <- (new_events_app _ _ _ Ht) in He.
  apply try_of_body in Hrun as (o & wb & Hbody & Ho).
  pose proof (body_outcome B self _ _ _ _ _ _ _ Hbody) as Hq.
  pose proof (body_index B self _ _ _ _ _ _ _ Hbody) as Hindex.
  cbv zeta in Hindex.
  assert (Hnew : written_batches (new_events w w') =
                 written_batches (new_events w wb) /\
                 failed_writes (new_events w w') =
                 failed_writes (new_events w wb) /\
                 vectors w' = vectors wb).
  { destruct o as [e0|d0].
    - destruct Ho as (_ & _ & Hv & Hn). rewrite Hn.
      rewrite written_batches_app, failed_writes_app. cbn.
      now rewrite !List.app_nil_r.
    - destruct Ho as (_ & ->). now repeat split. }
  destruct Hnew as (Hwn & Hfn & Hvn).
  destruct Hindex
    as [(e' & _ & _ & _ & _ & Hnone)|(docs & Hload & j & Hw & Hg & _ & Hpos)].
  { exfalso. rewrite Hfn, Hnone in He. destruct He. }
  assert (Hbs : (0 < batch_size)%Z).
  { apply Hpos. rewrite <- Hfn. intros Hnil. rewrite Hnil in He.
    destruct He. }
  set (chunks := Chunker.semantic_chunk_documents docs) in *.
  exists docs, (List.concat (skipn j (batches_of chunks batch_size))).
  split; [exact Hload|]. subst written. rewrite Hwn, Hw.
  split; [|split; [|exact Hdb]].
  - rewrite <- List.concat_app, List.firstn_skipn.
    symmetry. now apply batches_of_concat.
  - rewrite Hvn. apply Hg.
Qed.

(** Two chunks written one by one into a namespace that takes a single
    write: the first stays, and the registry is as before. *)
Lemma failed_ingestion_keeps_written_batches_witness :
  let w' := snd (process_and_store_documents_try
                   Examples.backends Examples.service Examples.draw
                   ["uploads/user_alice/lease.pdf"] "alice" 1
                   Examples.empty_world) in
  stored_under (vectors w') "legalai-index" "user_alice_01234567" =
    [Examples.page (replicate 150 "a")] /\
  db w' = db Examples.empty_world.
Proof.
  destruct (failed_ingestion_keeps_written_batches
              Examples.backends Examples.service Examples.draw
              ["uploads/user_alice/lease.pdf"] "alice" 1
              Examples.empty_world
              (snd (process_and_store_documents_try
                      Examples.backends Examples.service Examples.draw
                      ["uploads/user_alice/lease.pdf"] "alice" 1
                      Examples.empty_world))
              (fst (process_and_store_documents_try
                      Examples.backends Examples.service Examples.draw
                      ["uploads/user_alice/lease.pdf"] "alice" 1
                      Examples.empty_world))
              (Exception "upsert failed"))
    as (docs & rest & _ & _ & Hstored & Hdb).
  - apply surjective_pairing.
  - vm_compute. left. reflexivity.
  - split; [|exact Hdb].
    etransitivity; [exact Hstored|]. vm_compute. reflexivity.
Defined.

(** X9. The batch size is not checked.  With a negative one the
    ingestion of files that load succeeds without a single write to the
    index: the set is registered, with the number of chunks that were
    made, over a namespace that holds none of them.  With zero it ends in
    an error result and registers nothing. *)
Theorem nonpositive_batch_size_indexes_nothing
        (B : Backends) (self : RAGService) (draw : Draw)
        (file_paths : list string) (uid : string) (batch_size : Z)
        (w w1 : World) (docs : list Document) :
  load_all B file_paths [] w = (Return docs, w1) ->
  (batch_size <= 0)%Z ->
  let ns := namespace_of uid draw in
  let chunks := Chunker.semantic_chunk_documents docs in
  exists r w',
    process_and_store_documents_try B self draw file_paths uid batch_size w =
      (Return r, w') /\
    vectors w' = vectors w /\
    namespaces_used (new_events w w') = [] /\
    ((batch_size < 0)%Z ->
     r = PDict [("success", PBool true);
                ("namespace", PStr ns);
                ("chunks_created", PInt (Z.of_nat (length chunks)));
                ("message",
                 PStr "Documents successfully processed and indexed")] /\
     JsonDb.get_document_set (db w') ns =
       Some (mkDocumentSet ns uid file_paths (length chunks)
                           (time_time draw) "ready")) /\
    (batch_size = 0%Z ->
     (exists msg,
         r = failure_dict ("Error processing documents: " +:+ msg)) /\
     db w' = db w).
Proof.
  intros Hload Hbs ns chunks.
  pose proof (load_all_quiet B _ _ _ _ _ Hload) as [Hdb1 _].
  destruct (load_all_index B _ _ _ _ _ Hload) as [Hv (new & Ht & Hn)].
  unfold process_and_store_documents_try, try_except,
    process_and_store_documents_body.
  rewrite (bind_return _ _ _ _ _ Hload).
  rewrite (bind_return _ _ _ _ _ (semantic_chunk_documents_run docs w1)).
  fold chunks. fold ns.
  destruct (Z.ltb_spec 0 batch_size) as [Hpos|_]; [lia|].
  destruct (Z.eqb_spec batch_size 0) as [Hz|Hnz].
  - eexists _, _. split; [reflexivity|]. cbn [vectors db].
    split; [exact Hv|]. split; [|split; [lia|]].
    + erewrite new_events_app.
      2:{ cbn. rewrite Ht, <- !List.app_assoc. reflexivity. }
      rewrite namespaces_used_app, Hn. reflexivity.
    + intros _. split; [|exact Hdb1]. eexists. reflexivity.
  - eexists _, _. split; [reflexivity|]. cbn [vectors db].
    split; [exact Hv|]. split; [|split; [|lia]].
    + erewrite new_events_app.
      2:{ cbn. rewrite Ht, <- !List.app_assoc. reflexivity. }
      rewrite namespaces_used_app, Hn. reflexivity.
    + intros _. split; [reflexivity|].
      unfold JsonDb.get_document_set. cbn. apply lookup_insert_eq.
Qed.

(** A lease of two chunks ingested with batch size -1: two chunks are
    registered and none is in the index. *)
Lemma nonpositive_batch_size_indexes_nothing_witness :
  exists w',
    process_and_store_documents_try
      Examples.backends Examples.service Examples.draw
      ["uploads/user_alice/lease.pdf"] "alice" (-1) Examples.empty_world =
      (Return (PDict [("success", PBool true);
                      ("namespace", PStr "user_alice_01234567");
                      ("chunks_created", PInt 2);
                      ("message",
                       PStr "Documents successfully processed and indexed")]),
       w') /\
    vectors w' = vectors Examples.empty_world /\
    stored_under (vectors w') "legalai-index" "user_alice_01234567" = [].
Proof.
  destruct (nonpositive_batch_size_indexes_nothing
              Examples.backends Examples.service Examples.draw
              ["uploads/user_alice/lease.pdf"] "alice" (-1)
              Examples.empty_world
              (snd (load_all Examples.backends
                             ["uploads/user_alice/lease.pdf"] []
                             Examples.empty_world))
              [Examples.page (replicate 150 "a");
               Examples.page (replicate 150 "b")])
    as (r & w' & Hrun & Hv & _ & Hneg & _).
  - reflexivity.
  - lia.
  - destruct (Hneg ltac:(lia)) as [-> _].
    exists w'. split; [exact Hrun|]. split; [exact Hv|].
    rewrite Hv. reflexivity.
Defined.

End IngestionProperties.



(* ===================================================================== *)
(** * Answering and the registry: what the routes see                     *)
(* ===================================================================== *)

Module RouteFacts.
Import Py StrFacts MonadFacts RagService QueryFacts AnswerFacts RegistryFacts.

Lemma take_all n s : String.length s <= n -> take n s = s.
Proof.
  revert n. induction s as [|c s IH]; intros [|n] H; cbn in *;
    try reflexivity; try lia.
  now rewrite IH by lia.
Qed.

(** The text of a source: the page when it has at most 300 characters,
    else its first 300 characters and an ellipsis. *)
Lemma source_entry_content doc :
  exists s,
    source_entry doc =
      PDict [("content", PStr s); ("metadata", metadata doc)] /\
    String.length s <= 303 /\
    (String.length (page_content doc) <= 300 -> s = page_content doc) /\
    (300 < String.length (page_content doc) ->
     s = take 300 (page_content doc) +:+ "...").
Proof.
  unfold source_entry. eexists. split; [reflexivity|].
  destruct (Nat.ltb_spec 300 (String.length (page_content doc))) as [Hlt|Hle].
  - split; [|split; [lia|reflexivity]].
    rewrite length_app, take_length.
    change (String.length "...") with 3. lia.
  - rewrite (take_all 300) by exact Hle.
    split; [|split; [intros _|lia]].
    + rewrite length_app. change (String.length "") with 0. lia.
    + apply StrFacts.app_nil_r.
Qed.

Section WithBackends.
Variable B : Backends.
Variable self : RAGService.

(** Answering reads the registry and the index and writes neither. *)
Lemma answer_run_stored query ns uid k w r w' :
  answer_run B self query ns uid k w r w' ->
  db w' = db w /\ vectors w' = vectors w.
Proof. intros H. now destruct H. Qed.

(** The result of [query_documents] is one of its two dictionaries. *)
Lemma answer_run_result query ns uid k w r w' :
  answer_run B self query ns uid k w r w' ->
  (exists msg, r = Return (failure_dict msg)) \/
  (exists result ds,
      r = Return (answer_dict ns result) /\
      qa_invoke B (vectors w) (index_name self) ns k query = Return result /\
      document_sets (db w) !! ns = Some ds /\ user_id ds = uid).
Proof.
  intros H. destruct H as [msg _|ds e _ _ _|ds e _ _ _ _|ds result Hds Hu _ Hqa].
  - left. now exists msg.
  - left. eexists. reflexivity.
  - left. eexists. reflexivity.
  - right. exists result, ds. now repeat split.
Qed.

(** What the [/rag/query] route makes of a call. *)
Lemma query_route_run ns query k uid w r w' :
  RagRoutes.query_documents B self ns query k uid w = (r, w') ->
  (truthy (strip query) = false /\
   r = HTTPException 400 (PStr "Query cannot be empty") /\ w' = w) \/
  (truthy (strip query) = true /\
   exists r0,
     query_documents B self query ns uid (Z.min k 10) w = (r0, w') /\
     ((exists msg, r0 = Return (failure_dict msg) /\
                   r = HTTPException 400 (PStr msg)) \/
      (exists result ds,
          r0 = Return (answer_dict ns result) /\
          qa_invoke B (vectors w) (index_name self) ns (Z.min k 10) query =
            Return result /\
          document_sets (db w) !! ns = Some ds /\ user_id ds = uid /\
          r = Response
                (PDict [("success", PBool true);
                        ("answer", PStr (fst result));
                        ("sources",
                         PList (map source_entry (snd result)));
                        ("namespace", PStr ns);
                        ("query", PStr query)])))).
Proof.
  unfold RagRoutes.query_documents. intros H.
  destruct (truthy (strip query)); cbn [negb] in H.
  2:{ left. inversion H; subst. now repeat split. }
  right. split; [reflexivity|].
  destruct (query_documents B self query ns uid (Z.min k 10) w)
    as [r0 w0] eqn:Hrun.
  pose proof (query_documents_run _ _ _ _ _ _ _ _ _ Hrun) as Hr.
  apply answer_run_result in Hr
    as [(msg & ->)|(result & ds & -> & Hqa & Hds & Hu)]; cbn in H;
    inversion H; subst r w'.
  - eexists. split; [reflexivity|]. left. now exists msg.
  - eexists. split; [reflexivity|]. right. now exists result, ds.
Qed.

End WithBackends.

(** ** The registry *)

Lemma delete_owner ns uid w ds :
  document_sets (db w) !! ns = Some ds -> user_id ds = uid ->
  delete_document_set ns uid w =
    (Return (PDict [("success", PBool true);
                    ("message", PStr "Document set deleted successfully")]),
     mkWorld (mkJSONDatabase (users (db w))
                             (delete ns (document_sets (db w))))
             (vectors w) (trace w)).
Proof.
  intros Hds Hu. unfold delete_document_set, try_except, bind, read_db,
    write_db, ret, JsonDb.get_document_set, JsonDb.delete_document_set.
  rewrite Hds. subst uid. now rewrite String.eqb_refl.
Qed.

Lemma delete_denied ns uid w :
  not_owner (db w) ns uid ->
  delete_document_set ns uid w =
    (Return (failure_dict "Document set not found or access denied"), w).
Proof.
  intros H. unfold delete_document_set, try_except, bind, read_db,
    write_db, ret, JsonDb.get_document_set.
  destruct (document_sets (db w) !! ns) as [ds|] eqn:E; [|reflexivity].
  destruct (String.eqb_spec (user_id ds) uid) as [Heq|Hne]; [|reflexivity].
  now destruct (H ds E).
Qed.

(** A namespace has an owner or it has not. *)
Lemma owner_or_not d ns uid :
  (exists ds, document_sets d !! ns = Some ds /\ user_id ds = uid) \/
  not_owner d ns uid.
Proof.
  destruct (document_sets d !! ns) as [ds|] eqn:E.
  - destruct (String.eqb_spec (user_id ds) uid) as [Heq|Hne].
    + left. now exists ds.
    + right. intros ds' Hds'. congruence.
  - right. intros ds' Hds'. congruence.
Qed.

(** The sets listed for a user are the records that name the user. *)
Lemma in_get_user_document_sets d uid ds :
  In ds (JsonDb.get_user_document_sets d uid) <->
  exists ns, document_sets d !! ns = Some ds /\ user_id ds = uid.
Proof.
  unfold JsonDb.get_user_document_sets. rewrite List.filter_In.
  rewrite List.in_map_iff. split.
  - intros [([ns ds'] & Heq & Hin) Hu]. cbn in Heq. subst ds'.
    exists ns. split.
    + apply elem_of_map_to_list. now apply list_elem_of_In.
    + now apply String.eqb_eq.
  - intros (ns & Hds & Hu). split.
    + exists (ns, ds). split; [reflexivity|].
      apply list_elem_of_In. now apply elem_of_map_to_list.
    + now apply String.eqb_eq.
Qed.

(** ** File names *)

Lemma basename_no_sep p : Posix.has_sep (Posix.basename p) = false.
Proof.
  induction p as [|c rest IH]; [reflexivity|]. cbn [Posix.basename].
  destruct (Posix.has_sep rest) eqn:Hrest; [exact IH|].
  destruct (Posix.is_sep c) eqn:Hc; [exact Hrest|].
  cbn [Posix.has_sep]. now rewrite Hc, Hrest.
Qed.

Lemma basename_suffix p : exists dir, p = dir +:+ Posix.basename p.
Proof.
  induction p as [|c rest [dir IH]]; [now exists ""|]. cbn [Posix.basename].
  destruct (Posix.has_sep rest).
  - exists (String c dir). rewrite StrFacts.app_cons. now rewrite <- IH.
  - destruct (Posix.is_sep c).
    + exists (String c ""). reflexivity.
    + exists "". reflexivity.
Qed.

End RouteFacts.

Module ListingFacts.
Import Py RagService RouteFacts.

Lemma filter_map_snd {X Y} (f : Y -> bool) (l : list (X * Y)) :
  List.filter f (map snd l) = map snd (List.filter (fun p => f (snd p)) l).
Proof.
  induction l as [|[x y] l IH]; [reflexivity|]. cbn [map List.filter snd].
  destruct (f y); cbn [map snd]; now rewrite IH.
Qed.

Lemma NoDup_fst_filter {X Y} (g : X * Y -> bool) (l : list (X * Y)) :
  List.NoDup (map fst l) -> List.NoDup (map fst (List.filter g l)).
Proof.
  induction l as [|p l IH]; intros Hnd; [constructor|].
  cbn [map List.filter] in *. inversion Hnd as [|? ? Hnin Hrest]; subst.
  destruct (g p); [|now apply IH].
  cbn [map]. constructor; [|now apply IH].
  intros Hin. apply Hnin. apply List.in_map_iff in Hin as (q & Hq & Hin).
  apply List.filter_In in Hin as [Hin _].
  apply List.in_map_iff. now exists q.
Qed.

Lemma NoDup_fst_map_to_list_map (m : gmap string DocumentSet) :
  List.NoDup (map fst (map_to_list m)).
Proof.
  pose proof (proj1 (NoDup_ListNoDup _) (NoDup_fst_map_to_list m)) as H.
  replace (map fst (map_to_list m)) with ((map_to_list m).*1); [exact H|].
  clear H. induction (map_to_list m) as [|p l IH]; [reflexivity|].
  cbn [map]. rewrite fmap_cons. now rewrite IH.
Qed.

(** The sets of a user are listed once each: the list is that of the
    records under the namespaces of a duplicate-free enumeration of the
    registry entries that name the user. *)
Lemma get_user_document_sets_listed d uid :
  exists listed : list (string * DocumentSet),
    JsonDb.get_user_document_sets d uid = map snd listed /\
    List.NoDup (map fst listed) /\
    forall ns ds, In (ns, ds) listed <->
                  document_sets d !! ns = Some ds /\ user_id ds = uid.
Proof.
  exists (List.filter (fun p => String.eqb (user_id (snd p)) uid)
                      (map_to_list (document_sets d))).
  split; [|split].
  - unfold JsonDb.get_user_document_sets.
    apply (filter_map_snd (fun ds => String.eqb (user_id ds) uid)).
  - apply NoDup_fst_filter, NoDup_fst_map_to_list_map.
  - intros ns ds. rewrite List.filter_In. cbn [snd].
    rewrite String.eqb_eq, <- list_elem_of_In, elem_of_map_to_list.
    reflexivity.
Qed.

End ListingFacts.


(* ===================================================================== *)
(** * Answering: what it returns and what it leaves                       *)
(* ===================================================================== *)

Section AnsweringProperties.
Import Py StrFacts MonadFacts RagService QueryFacts AnswerFacts FinalFacts.
Import RegistryFacts RouteFacts.

(** X10. Answering a question never writes: the method of the service,
    the [/rag/query] route and the stand-alone [retrieve_and_answer]
    leave the registry, the users and the index as they found them. *)
Theorem answering_writes_nothing (B : Backends) :
  (forall self query ns uid k w,
      let w' := snd (query_documents B self query ns uid k w) in
      db w' = db w /\ vectors w' = vectors w) /\
  (forall service ns query k uid w,
      let w' := snd (RagRoutes.query_documents B service ns query k uid w) in
      db w' = db w /\ vectors w' = vectors w) /\
  (forall query ns w,
      let w' := snd (Final.retrieve_and_answer B query ns w) in
      db w' = db w /\ vectors w' = vectors w).
Proof.
  assert (Hservice : forall self query ns uid k w,
             db (snd (query_documents B self query ns uid k w)) = db w /\
             vectors (snd (query_documents B self query ns uid k w))
               = vectors w).
  { intros self query ns uid k w.
    destruct (query_documents B self query ns uid k w) as [r w'] eqn:Hrun.
    apply query_documents_run in Hrun.
    exact (answer_run_stored _ _ _ _ _ _ _ _ _ Hrun). }
  split; [exact Hservice|]. split.
  - intros service ns query k uid w. cbv zeta.
    destruct (RagRoutes.query_documents B service ns query k uid w)
      as [r w'] eqn:Hrun. cbn [snd].
    apply query_route_run in Hrun as [(_ & _ & ->)|(_ & r0 & Hrun & _)];
      [now split|].
    specialize (Hservice service query ns uid (Z.min k 10) w).
    now rewrite Hrun in Hservice.
  - intros query ns w. cbv zeta.
    destruct (from_existing_index_failure B Final.INDEX_NAME ns) as [e|] eqn:H.
    + rewrite (retrieve_and_answer_offline _ _ _ _ _ H). now split.
    + rewrite (retrieve_and_answer_online _ _ _ _ H).
      destruct (qa_invoke B (vectors w) Final.INDEX_NAME ns 5 query);
        now split.
Qed.

(** X11. A successful answer carries the answer of the chain and one
    source per retrieved chunk, in the order of retrieval: the metadata
    of the chunk and its text, whole when it has at most 300 characters,
    else cut to its first 300 characters followed by an ellipsis. *)
Theorem answer_cites_bounded_snippets
        (B : Backends) (self : RAGService) (query ns uid : string) (k : Z)
        (w w' : World) (d : pyval) :
  query_documents B self query ns uid k w = (Return d, w') ->
  dict_get "success" d = Some (PBool true) ->
  exists answer docs sources,
    qa_invoke B (vectors w) (index_name self) ns k query =
      Return (answer, docs) /\
    dict_get "answer" d = Some (PStr answer) /\
    dict_get "sources" d = Some (PList sources) /\
    Forall2 (fun doc source =>
               exists s,
                 source = PDict [("content", PStr s);
                                 ("metadata", metadata doc)] /\
                 String.length s <= 303 /\
                 (String.length (page_content doc) <= 300 ->
                  s = page_content doc) /\
                 (300 < String.length (page_content doc) ->
                  s = take 300 (page_content doc) +:+ "..."))
            docs sources.
Proof.
  intros Hrun Hsuccess. apply query_documents_run in Hrun.
  apply answer_run_result in Hrun
    as [(msg & Hr)|([answer docs] & ds & Hr & Hqa & _)];
    inversion Hr; subst d; [discriminate|].
  exists answer, docs, (map source_entry docs).
  split; [exact Hqa|]. split; [reflexivity|]. split; [reflexivity|].
  clear. induction docs as [|doc docs IH]; constructor; [|exact IH].
  destruct (source_entry_content doc) as (s & Hs & Hlen & Hshort & Hlong).
  now exists s.
Qed.

(** The two chunks of alice's lease, of 150 characters each, are cited
    whole. *)
Lemma answer_cites_bounded_snippets_witness :
  exists answer docs sources,
    qa_invoke Examples.backends (vectors Examples.alice_world)
              "legalai-index" "user_alice_89abcdef" 5
              "Who signs the lease?" = Return (answer, docs) /\
    sources = [PDict [("content", PStr (replicate 150 "a"));
                      ("metadata", PNone)];
               PDict [("content", PStr (replicate 150 "b"));
                      ("metadata", PNone)]] /\
    Forall2 (fun doc source =>
               exists s,
                 source = PDict [("content", PStr s);
                                 ("metadata", metadata doc)] /\
                 String.length s <= 303)
            docs sources.
Proof.
  destruct (answer_cites_bounded_snippets
              Examples.backends Examples.service "Who signs the lease?"
              "user_alice_89abcdef" "alice" 5 Examples.alice_world
              (snd (query_documents
                      Examples.backends Examples.service
                      "Who signs the lease?" "user_alice_89abcdef" "alice" 5
                      Examples.alice_world))
              (answer_dict "user_alice_89abcdef"
                 ("answer", [Examples.page (replicate 150 "a");
                             Examples.page (replicate 150 "b")])))
    as (answer & docs & sources & Hqa & _ & Hsources & Hall).
  - vm_compute. reflexivity.
  - reflexivity.
  - exists answer, docs, sources. split; [exact Hqa|]. split.
    + vm_compute in Hsources. inversion Hsources. reflexivity.
    + eapply List.Forall2_impl; [|exact Hall].
      intros doc source (s & Hs & Hlen & _). now exists s.
Defined.

(** X12. The function of the [/rag/query] route, for a request that the
    framework hands to it: the caller is the user [uid] that
    [get_current_user] has identified, and the form fields [namespace]
    and [query], which are required, are not empty.  (The framework
    answers the other requests by itself, with 401 or 422, and the
    function does not run.)  [service] is the object that
    [get_rag_service()] returns.  The function returns a response or raises
    an HTTP 400 with a text; no other exception leaves it.  A response is
    given only to the owner of the namespace and for a query that has
    more than white space; it repeats the query and the namespace and
    carries what the service answered with at most 10 chunks retrieved.
    A query of white space only is refused with "Query cannot be empty"
    before the service is called. *)
Theorem query_route_outcomes
        (B : Backends) (service : RAGService) (ns query : string) (k : Z)
        (uid : string) (w w' : World) (r : route_result) :
  ns <> "" -> query <> "" ->
  RagRoutes.query_documents B service ns query k uid w = (r, w') ->
  match r with
  | Response body =>
      truthy (strip query) = true /\
      (exists ds, document_sets (db w) !! ns = Some ds /\ user_id ds = uid) /\
      exists answer docs,
        qa_invoke B (vectors w) (index_name service) ns (Z.min k 10) query =
          Return (answer, docs) /\
        body = PDict [("success", PBool true);
                      ("answer", PStr answer);
                      ("sources", PList (map source_entry docs));
                      ("namespace", PStr ns);
                      ("query", PStr query)]
  | HTTPException status_code detail =>
      status_code = 400%Z /\
      exists msg, detail = PStr msg /\
                  (truthy (strip query) = false ->
                   msg = "Query cannot be empty" /\ w' = w)
  | Propagated _ => False
  end.
Proof.
  intros _ _ Hrun.
  apply query_route_run in Hrun
    as [(Hq & -> & ->)
       |(Hq & r0 & Hrun &
         [(msg & -> & ->)|([answer docs] & ds & -> & Hqa & Hds & Hu & ->)])].
  - split; [reflexivity|]. eexists. split; [reflexivity|]. now intros _.
  - split; [reflexivity|]. exists msg. split; [reflexivity|]. congruence.
  - split; [exact Hq|]. split; [now exists ds|].
    exists answer, docs. now split.
Qed.

(** Alice asks about her lease with [k = 50]; bob sends three spaces. *)
Lemma query_route_outcomes_witness :
  fst (RagRoutes.query_documents
         Examples.backends Examples.service "user_alice_89abcdef"
         "Who signs the lease?" 50 "alice" Examples.alice_world) =
  Response
    (PDict [("success", PBool true);
            ("answer", PStr "answer");
            ("sources",
             PList [PDict [("content", PStr (replicate 150 "a"));
                           ("metadata", PNone)];
                    PDict [("content", PStr (replicate 150 "b"));
                           ("metadata", PNone)]]);
            ("namespace", PStr "user_alice_89abcdef");
            ("query", PStr "Who signs the lease?")]) /\
  RagRoutes.query_documents
    Examples.backends Examples.service "user_alice_89abcdef"
    "   " 5 "bob" Examples.alice_world =
  (HTTPException 400 (PStr "Query cannot be empty"), Examples.alice_world).
Proof.
  split.
  - assert (Hns : "user_alice_89abcdef" <> "") by discriminate.
    assert (Hq : "Who signs the lease?" <> "") by discriminate.
    pose proof (query_route_outcomes
                  Examples.backends Examples.service "user_alice_89abcdef"
                  "Who signs the lease?" 50 "alice" Examples.alice_world
                  _ _ Hns Hq (surjective_pairing _)) as H.
    destruct (fst (RagRoutes.query_documents
                     Examples.backends Examples.service
                     "user_alice_89abcdef" "Who signs the lease?" 50
                     "alice" Examples.alice_world))
      as [body|status_code detail|e] eqn:Hr.
    + destruct H as (_ & _ & answer & docs & Hqa & ->).
      vm_compute in Hqa. inversion Hqa; subst answer docs.
      vm_compute. reflexivity.
    + vm_compute in Hr. discriminate.
    + destruct H.
  - reflexivity.
Defined.

(** X13. When [retrieve_and_answer] of [Final/main.py] returns, its
    result is the error object of a failed chain, or the answer of the
    chain with one snippet per retrieved chunk, in the order of
    retrieval: the text of the chunk, whole when it has at most 200
    characters, else its first 200 characters followed by an ellipsis. *)
Theorem final_answer_cites_bounded_snippets
        (B : Backends) (query ns : string) (w w' : World) (d : pyval) :
  Final.retrieve_and_answer B query ns w = (Return d, w') ->
  (exists e,
      qa_invoke B (vectors w) Final.INDEX_NAME ns 5 query = Raise e /\
      d = PDict [("answer", PNone); ("sources", PList []);
                 ("error", PStr (str_exn e))]) \/
  (exists answer docs sources,
      qa_invoke B (vectors w) Final.INDEX_NAME ns 5 query =
        Return (answer, docs) /\
      d = PDict [("answer", PStr answer); ("sources", PList sources)] /\
      Forall2 (fun doc source =>
                 exists s,
                   source = PDict [("snippet", PStr s)] /\
                   String.length s <= 203 /\
                   (String.length (page_content doc) <= 200 ->
                    s = page_content doc) /\
                   (200 < String.length (page_content doc) ->
                    s = take 200 (page_content doc) +:+ "..."))
              docs sources).
Proof.
  intros Hrun.
  destruct (from_existing_index_failure B Final.INDEX_NAME ns) as [e|] eqn:H.
  { rewrite (retrieve_and_answer_offline _ _ _ _ _ H) in Hrun.
    discriminate. }
  rewrite (retrieve_and_answer_online _ _ _ _ H) in Hrun.
  destruct (qa_invoke B (vectors w) Final.INDEX_NAME ns 5 query)
    as [e|[answer docs]]; inversion Hrun; subst d w'.
  - left. now exists e.
  - right. exists answer, docs, (map (Final.source_entry) docs).
    split; [reflexivity|]. split; [reflexivity|].
    clear. induction docs as [|doc docs IH]; constructor; [|exact IH].
    unfold Final.source_entry. eexists. split; [reflexivity|].
    destruct (Nat.ltb_spec 200 (String.length (page_content doc)))
      as [Hlt|Hle].
    + split; [|split; [lia|reflexivity]].
      rewrite length_app, take_length.
      change (String.length "...") with 3. lia.
    + rewrite (take_all 200) by exact Hle.
      split; [|split; [intros _|lia]].
      * rewrite length_app. change (String.length "") with 0. lia.
      * apply StrFacts.app_nil_r.
Qed.

(** The two chunks of alice's lease, of 150 characters each. *)
Lemma final_answer_cites_bounded_snippets_witness :
  fst (Final.retrieve_and_answer
         Examples.backends "Who signs the lease?" "user_alice_89abcdef"
         (mkWorld (db Examples.alice_world)
                  {[ (Final.INDEX_NAME, "user_alice_89abcdef") :=
                       [Examples.page (replicate 150 "a");
                        Examples.page (replicate 150 "b")] ]}
                  [])) =
  Return (PDict [("answer", PStr "answer");
                 ("sources",
                  PList [PDict [("snippet", PStr (replicate 150 "a"))];
                         PDict [("snippet", PStr (replicate 150 "b"))]])]).
Proof.
  set (w := mkWorld _ _ _).
  destruct (Final.retrieve_and_answer
              Examples.backends "Who signs the lease?" "user_alice_89abcdef"
              w) as [r w'] eqn:Hrun.
  assert (Hr : r = Return
                     (PDict [("answer", PStr "answer");
                             ("sources",
                              PList [PDict [("snippet",
                                             PStr (replicate 150 "a"))];
                                     PDict [("snippet",
                                             PStr (replicate 150 "b"))]])]))
    by (apply (f_equal fst) in Hrun; vm_compute in Hrun; now subst r).
  subst r.
  destruct (final_answer_cites_bounded_snippets _ _ _ _ _ _ Hrun)
    as [(e & Hqa & _)|(answer & docs & sources & _ & Hd & _)].
  - vm_compute in Hqa. discriminate.
  - reflexivity.
Defined.

End AnsweringProperties.


(* ===================================================================== *)
(** * The registry: deleting and listing                                  *)
(* ===================================================================== *)

Section RegistryProperties.
Import Py StrFacts MonadFacts RagService QueryFacts AnswerFacts.
Import IngestFacts BatchFacts IndexFacts RegistryFacts RouteFacts.
Import ListingFacts.

(** X14. The [DELETE /rag/document-sets/{namespace}] route ends in a
    response or in an HTTP 400.  It answers with a response only to the
    owner of the namespace, and then the record of that namespace is
    gone; anyone else gets the one message "Document set not found or
    access denied" and the server stays as it was.  In every case the
    records of the other namespaces, the users, and the index are
    untouched. *)
Theorem delete_route_outcomes
        (ns uid : string) (w w' : World) (r : route_result) :
  RegistryRoutes.delete_document_set ns uid w = (r, w') ->
  users (db w') = users (db w) /\
  vectors w' = vectors w /\
  (forall key, key <> ns ->
               document_sets (db w') !! key = document_sets (db w) !! key) /\
  match r with
  | Response body =>
      (exists ds, document_sets (db w) !! ns = Some ds /\ user_id ds = uid) /\
      document_sets (db w') !! ns = None /\
      body = PDict [("success", PBool true);
                    ("message", PStr "Document set deleted successfully")]
  | HTTPException status_code detail =>
      status_code = 400%Z /\
      detail = PStr "Document set not found or access denied" /\
      not_owner (db w) ns uid /\
      w' = w
  | Propagated _ => False
  end.
Proof.
  unfold RegistryRoutes.delete_document_set. intros Hrun.
  destruct (owner_or_not (db w) ns uid) as [(ds & Hds & Hu)|Hnot].
  - rewrite (delete_owner ns uid w ds Hds Hu) in Hrun. cbn in Hrun.
    inversion Hrun; subst r w'. cbn [db users document_sets vectors].
    split; [reflexivity|]. split; [reflexivity|]. split.
    + intros key Hkey. now rewrite lookup_delete_ne.
    + split; [now exists ds|]. split; [apply lookup_delete_eq|reflexivity].
  - rewrite (delete_denied ns uid w Hnot) in Hrun. cbn in Hrun.
    inversion Hrun; subst r w'. now repeat split.
Qed.

(** Bob asks to delete the set of alice. *)
Lemma delete_route_outcomes_witness :
  RegistryRoutes.delete_document_set "user_alice_89abcdef" "bob"
                                     Examples.alice_world =
  (HTTPException 400 (PStr "Document set not found or access denied"),
   Examples.alice_world).
Proof.
  pose proof (delete_route_outcomes
                "user_alice_89abcdef" "bob" Examples.alice_world
                _ _ (surjective_pairing _)) as (_ & _ & _ & H).
  destruct (RegistryRoutes.delete_document_set
              "user_alice_89abcdef" "bob" Examples.alice_world)
    as [r w'] eqn:Hr. cbn [fst snd] in H.
  destruct r as [body|status_code detail|e].
  - destruct H as ((ds & Hds & Hu) & _). vm_compute in Hds.
    inversion Hds; subst ds. discriminate.
  - destruct H as (-> & -> & _ & ->). reflexivity.
  - destruct H.
Defined.

(** X15. Deleting a document set removes its record and nothing else:
    the chunks stay in the index under the namespace, and the owner who
    asks about them afterwards is told "Document set not found or access
    denied". *)
Theorem deleted_set_stays_indexed
        (B : Backends) (self : RAGService) (ns uid query : string) (k : Z)
        (w : World) (ds : DocumentSet) :
  document_sets (db w) !! ns = Some ds ->
  user_id ds = uid ->
  pc self = true -> embeddings self = true -> llm self = true ->
  let w1 := snd (delete_document_set ns uid w) in
  JsonDb.get_document_set (db w1) ns = None /\
  stored_under (vectors w1) (index_name self) ns =
    stored_under (vectors w) (index_name self) ns /\
  query_documents B self query ns uid k w1 =
    (Return (failure_dict "Document set not found or access denied"), w1).
Proof.
  intros Hds Hu Hpc Hemb Hllm w1. subst w1.
  rewrite (delete_owner ns uid w ds Hds Hu). cbn [snd db vectors].
  set (w1 := mkWorld _ _ _).
  assert (Hnone : document_sets (db w1) !! ns = None)
    by apply lookup_delete_eq.
  split; [exact Hnone|]. split; [reflexivity|].
  assert (Hnot : not_owner (db w1) ns uid)
    by (intros ds' Hds'; congruence).
  destruct (query_denied B self query ns uid k w1 Hnot) as (msg & Hq & Hmsg).
  now rewrite Hq, (Hmsg Hpc Hemb Hllm).
Qed.

(** Alice deletes her set: its two chunks are still in the index. *)
Lemma deleted_set_stays_indexed_witness :
  let w1 := snd (delete_document_set "user_alice_89abcdef" "alice"
                                     Examples.alice_world) in
  JsonDb.get_document_set (db w1) "user_alice_89abcdef" = None /\
  stored_under (vectors w1) "legalai-index" "user_alice_89abcdef" =
    [Examples.page (replicate 150 "a"); Examples.page (replicate 150 "b")].
Proof.
  destruct (deleted_set_stays_indexed
              Examples.backends Examples.service "user_alice_89abcdef"
              "alice" "Who signs the lease?" 5 Examples.alice_world
              Examples.alice_set)
    as (Hnone & Hstored & _); try reflexivity.
  split; [exact Hnone|].
  etransitivity; [exact Hstored|]. vm_compute. reflexivity.
Defined.

(** X16. Registering and deleting are inverse on the registry: when an
    ingestion under a fresh namespace succeeds and its owner deletes the
    set, the database is again what it was before the ingestion. *)
Theorem ingest_then_delete_restores_registry
        (B : Backends) (self : RAGService) (draw : Draw)
        (file_paths : list string) (uid : string) (batch_size : Z)
        (w w1 : World) (d : pyval) :
  process_and_store_documents_try B self draw file_paths uid batch_size w =
    (Return d, w1) ->
  dict_get "success" d = Some (PBool true) ->
  document_sets (db w) !! namespace_of uid draw = None ->
  let ns := namespace_of uid draw in
  exists w2,
    delete_document_set ns uid w1 =
      (Return (PDict [("success", PBool true);
                      ("message", PStr "Document set deleted successfully")]),
       w2) /\
    db w2 = db w /\
    vectors w2 = vectors w1.
Proof.
  intros Hrun Hsuccess Hfresh ns.
  apply try_of_body in Hrun as (o & wb & Hbody & Ho).
  destruct o as [e|d0].
  { destruct Ho as (Hr & _). inversion Hr; subst d. discriminate. }
  destruct Ho as (Hr & Hw). subst wb. inversion Hr; subst d0. clear Hr.
  apply body_return in Hbody as (docs & w0 & _ & _ & Hdb & _).
  set (record := mkDocumentSet _ _ _ _ _ _) in Hdb.
  assert (Hds : document_sets (db w1) !! ns = Some record).
  { rewrite Hdb. unfold JsonDb.store_document_set.
    cbn [fst document_sets]. apply lookup_insert_eq. }
  eexists. split; [exact (delete_owner ns uid w1 record Hds eq_refl)|].
  cbn [db vectors]. split; [|reflexivity].
  rewrite Hdb. unfold JsonDb.store_document_set.
  cbn [fst users document_sets id record].
  fold ns. rewrite delete_insert_id by exact Hfresh.
  now destruct (db w).
Qed.

(** Alice uploads a lease and deletes the set. *)
Lemma ingest_then_delete_restores_registry_witness :
  let w1 := snd (process_and_store_documents_try
                   Examples.backends Examples.service Examples.draw
                   ["uploads/user_alice/lease.pdf"] "alice" 64
                   Examples.empty_world) in
  exists w2,
    snd (delete_document_set "user_alice_01234567" "alice" w1) = w2 /\
    db w2 = db Examples.empty_world /\
    vectors w2 = vectors w1.
Proof.
  destruct (ingest_then_delete_restores_registry
              Examples.backends Examples.service Examples.draw
              ["uploads/user_alice/lease.pdf"] "alice" 64
              Examples.empty_world
              (snd (process_and_store_documents_try
                      Examples.backends Examples.service Examples.draw
                      ["uploads/user_alice/lease.pdf"] "alice" 64
                      Examples.empty_world))
              (PDict [("success", PBool true);
                      ("namespace", PStr "user_alice_01234567");
                      ("chunks_created", PInt 2);
                      ("message",
                       PStr "Documents successfully processed and indexed")]))
    as (w2 & Hdel & Hdb & Hv).
  - vm_compute. reflexivity.
  - reflexivity.
  - reflexivity.
  - exists w2. split; [|split; [exact Hdb|exact Hv]].
    change (namespace_of "alice" Examples.draw)
      with "user_alice_01234567" in Hdel.
    now rewrite Hdel.
Defined.


End RegistryProperties.


(* ===================================================================== *)
(** * The upload route: the loop over the files                           *)
(* ===================================================================== *)

Module UploadFacts.
Import Py MonadFacts RagService GateFacts UploadRoute.

Section WithBackends.
Variable H : Host.
Variable B : Backends.
Variable service : outcome RAGService.

(** The removals touch the listed paths only, never add a file, and
    empty the path of a file whose removal cannot fail. *)
Lemma remove_all_lookup (uploaded_files : list string) (d : Disk) p :
  (remove_all H uploaded_files d !! p = None \/
   remove_all H uploaded_files d !! p = d !! p) /\
  (In p uploaded_files -> (forall d', remove_failure H d' p = false) ->
   remove_all H uploaded_files d !! p = None) /\
  (~ In p uploaded_files -> remove_all H uploaded_files d !! p = d !! p).
Proof.
  revert d. induction uploaded_files as [|x l IH]; intros d.
  - split; [now right|]. split; [intros []|reflexivity].
  - unfold remove_all in *. cbn [fold_left].
    set (d1 := if remove_failure H d x then d else delete x d).
    destruct (IH d1) as (IHany & IHin & IHout).
    assert (Hd1 : d1 !! p = None \/ d1 !! p = d !! p).
    { subst d1. destruct (remove_failure H d x); [now right|].
      destruct (decide (x = p)) as [->|Hne].
      - left. apply lookup_delete_eq.
      - right. now apply lookup_delete_ne. }
    split; [|split].
    + destruct IHany as [Hn|He]; [now left|]. rewrite He. exact Hd1.
    + intros Hin Hok.
      destruct (List.in_dec string_dec p l) as [Hl|Hnl];
        [now apply IHin|].
      destruct Hin as [->|Hin]; [|contradiction].
      rewrite (IHout Hnl). subst d1. rewrite Hok. apply lookup_delete_eq.
    + intros Hnin. rewrite IHout by (intros Hin; apply Hnin; now right).
      subst d1. destruct (remove_failure H d x); [reflexivity|].
      apply lookup_delete_ne. intros ->. apply Hnin. now left.
Qed.

(** The loop adds paths to [uploaded_files], each one made of the
    directory and of a name that was sent, and changes the disk under
    such paths only. *)
Lemma save_files_run dir files uploaded_files d e uploaded_files' d' :
  save_files H B dir files uploaded_files d = (e, uploaded_files', d') ->
  exists saved,
    uploaded_files' = uploaded_files ++ saved /\
    Forall (sent_path H dir files) saved /\
    forall p, ~ sent_path H dir files p -> d' !! p = d !! p.
Proof.
  revert uploaded_files d.
  induction files as [|file rest IH]; intros ups d Hrun.
  - inversion Hrun; subst. exists []. rewrite List.app_nil_r.
    split; [reflexivity|]. split; [constructor|reflexivity].
  - cbn [save_files] in Hrun.
    assert (Hweaken : forall p, sent_path H dir rest p ->
                                sent_path H dir (file :: rest) p).
    { intros p (file0 & name & Hin & Hname & Hp).
      exists file0, name. split; [now right|now split]. }
    assert (Hskip : forall ups0 d0,
               (forall p, ~ sent_path H dir (file :: rest) p ->
                          d0 !! p = d !! p) ->
               save_files H B dir rest ups0 d0 = (e, uploaded_files', d') ->
               exists saved,
                 uploaded_files' = ups0 ++ saved /\
                 Forall (sent_path H dir (file :: rest)) saved /\
                 forall p, ~ sent_path H dir (file :: rest) p ->
                           d' !! p = d !! p).
    { intros ups0 d0 Hd0 Hrest.
      apply IH in Hrest as (saved & Hups & Hall & Hd).
      exists saved. split; [exact Hups|]. split.
      - eapply List.Forall_impl; [|exact Hall]. exact Hweaken.
      - intros p Hp. rewrite Hd by (intros Hs; apply Hp; now apply Hweaken).
        now apply Hd0. }
    assert (Hstop : (e, uploaded_files', d') = (e, ups, d') ->
                    (forall p, ~ sent_path H dir (file :: rest) p ->
                               d' !! p = d !! p) ->
                    exists saved,
                      uploaded_files' = ups ++ saved /\
                      Forall (sent_path H dir (file :: rest)) saved /\
                      forall p, ~ sent_path H dir (file :: rest) p ->
                                d' !! p = d !! p).
    { intros Heq Hd. inversion Heq; subst. exists [].
      rewrite List.app_nil_r. split; [reflexivity|].
      split; [constructor|exact Hd]. }
    destruct (filename file) as [name|] eqn:Hname;
      [|now apply (Hskip ups d)].
    destruct (truthy name); cbn [negb] in Hrun; [|now apply (Hskip ups d)].
    destruct (existsb (String.eqb (splitext_lower B name))
                      allowed_extensions); cbn [negb] in Hrun.
    2:{ inversion Hrun; subst. now apply Hstop. }
    assert (Hsent : sent_path H dir (file :: rest) (joinpath H dir name)).
    { exists file, name. split; [now left|now split]. }
    assert (Hins : forall v p, ~ sent_path H dir (file :: rest) p ->
                     <[joinpath H dir name := v]> d !! p = d !! p).
    { intros v p Hp. apply lookup_insert_ne. intros Heq. apply Hp.
      now rewrite <- Heq. }
    destruct (open_failure H d (joinpath H dir name)) as [e0|].
    { inversion Hrun; subst. now apply Hstop. }
    destruct (transfer_failure H (<[joinpath H dir name := ""]> d)
                (joinpath H dir name) (content file)) as [[e0 partial]|].
    { inversion Hrun; subst. apply Hstop; [reflexivity|]. apply Hins. }
    apply Hskip in Hrun as (saved & Hups & Hall & Hd); [|apply Hins].
    exists (joinpath H dir name :: saved). split; [|split].
    + rewrite Hups, <- List.app_assoc. reflexivity.
    + constructor; assumption.
    + exact Hd.
Qed.

(** The service refuses every upload, so what the route makes of its
    answer is an exception. *)
Lemma process_uploaded_raises draw uploaded_files uid w :
  exists e,
    process_uploaded H B service draw uploaded_files uid w = (Raise e, w).
Proof.
  unfold process_uploaded.
  destruct service as [e|rag_service]; [now exists e|].
  rewrite process_and_store_documents_gate.
  pose proof (check_feature_access_document_upload (db w) uid) as Hno.
  destruct (Subscription.check_feature_access (db w) uid "document_upload")
    as [e|[|]].
  - now exists e.
  - now contradiction Hno.
  - cbn. eexists. reflexivity.
Qed.

(** The body of the [try] always raises, and leaves the services as
    they were. *)
Lemma upload_documents_body_raises draw files uid s :
  exists e saved d,
    upload_documents_body H B service draw files uid s =
      (Raise e, saved, mkSite (world s) d) /\
    Forall (sent_path H ("uploads/user_" +:+ uid) files) saved /\
    forall p, ~ sent_path H ("uploads/user_" +:+ uid) files p ->
              d !! p = disk s !! p.
Proof.
  unfold upload_documents_body.
  destruct (mkdir_failure H ("uploads/user_" +:+ uid)) as [e|].
  { exists e, [], (disk s). destruct s. now repeat split. }
  destruct (save_files H B ("uploads/user_" +:+ uid) files [] (disk s))
    as [[e saved] d] eqn:Hsave.
  apply save_files_run in Hsave as (saved' & Hups & Hall & Hd).
  cbn [app] in Hups. subst saved'.
  destruct e as [e|].
  { exists e, saved, d. now repeat split. }
  destruct saved as [|p0 saved].
  { eexists _, [], d. now repeat split. }
  destruct (process_uploaded_raises draw (p0 :: saved) uid (world s))
    as [e He].
  rewrite He. exists e, (p0 :: saved), d. now repeat split.
Qed.

End WithBackends.
End UploadFacts.


(* ===================================================================== *)
(** * The upload route: every request fails                               *)
(* ===================================================================== *)

Section UploadProperties.
Import Py UploadRoute UploadFacts.


End UploadProperties.


(* ===================================================================== *)
(** * The weekly limits: counting                                         *)
(* ===================================================================== *)

Module LimitFacts.
Import Subscription Limits.

Lemma remaining_positive weekly_limit used_count :
  (0 <? Z.max 0 (Z.of_nat weekly_limit - Z.of_nat used_count))%Z =
  (used_count <? weekly_limit).
Proof.
  destruct (Nat.ltb_spec used_count weekly_limit);
    [apply Z.ltb_lt|apply Z.ltb_ge]; lia.
Qed.

(** The dictionary of a count allows when the count is below the
    limit. *)
Lemma usage_dict_allowed c weekly_limit records :
  dict_get "allowed" (usage_dict c weekly_limit records) =
  Some (PBool (length records <? weekly_limit)).
Proof. rewrite <- remaining_positive. reflexivity. Qed.

Lemma check_feature_access_tier d uid feature tier :
  tier_of d uid = Some tier ->
  check_feature_access d uid feature =
  Return (contains feature (features (TIER_LIMITS tier))).
Proof.
  unfold tier_of, check_feature_access, JsonDb.get_user_by_id.
  destruct (users d !! uid) as [user|]; [|discriminate].
  destruct (SubscriptionTier_of _) as [e|t]; [discriminate|].
  now intros [= ->].
Qed.


End LimitFacts.


(* ===================================================================== *)
(** * The feature gate and the weekly limits                              *)
(* ===================================================================== *)

Section LimitProperties.
Import Subscription Limits LimitFacts.

(** X19. The feature gate grants a feature only to a registered user
    and only under one of the five names of the tiers; every user whose
    stored tier is one of the four has ["chat_advice"], and has the
    limited or the unlimited kind of case study, never both. *)
Theorem feature_gate_grants (d : JSONDatabase) (uid feature : string) :
  check_feature_access d uid feature = Return true ->
  (exists user, users d !! uid = Some user) /\
  In feature ["chat_advice"; "case_study_limited"; "case_study_unlimited";
              "expert_advice_limited"; "expert_advice_unlimited"] /\
  check_feature_access d uid "chat_advice" = Return true /\
  exists limited unlimited,
    check_feature_access d uid "case_study_limited" = Return limited /\
    check_feature_access d uid "case_study_unlimited" = Return unlimited /\
    limited = negb unlimited.
Proof.
  unfold check_feature_access, JsonDb.get_user_by_id.
  destruct (users d !! uid) as [user|]; [|discriminate].
  destruct (SubscriptionTier_of _) as [e|tier]; [discriminate|].
  intros [= Hin]. split; [now exists user|].
  split.
  - unfold contains in Hin. apply existsb_exists in Hin as (x & Hx & Heq).
    apply String.eqb_eq in Heq. subst x.
    destruct tier; cbn in Hx; intuition (subst; cbn; tauto).
  - split; [now destruct tier|].
    destruct tier; (do 2 eexists); repeat split.
Qed.

(** alice is a Platinum user. *)
Lemma feature_gate_grants_witness :
  check_feature_access (db Examples.empty_world) "alice"
                       "expert_advice_unlimited" = Return true /\
  check_feature_access (db Examples.empty_world) "alice"
                       "chat_advice" = Return true.
Proof.
  destruct (feature_gate_grants (db Examples.empty_world) "alice"
                                "expert_advice_unlimited")
    as (_ & _ & Hchat & _).
  - vm_compute. reflexivity.
  - split; [vm_compute; reflexivity|exact Hchat].
Defined.

(** X20. Expert advice is allowed exactly to the Platinum users, and to
    the Premium users who made fewer than 3 bookings in the last seven
    days; these are users to whom the feature gate grants an expert
    advice feature.  Basic and Standard users are refused whatever they
    booked. *)
Theorem expert_advice_allowed_iff
        (d : JSONDatabase) (u : Usage) (c : Clock) (uid : string)
        (r : pyval) :
  check_expert_advice_limit d u c uid = Return r ->
  (dict_get "allowed" r = Some (PBool true) <->
   (tier_of d uid = Some PLATINUM \/
    (tier_of d uid = Some PREMIUM /\
     exists recent_bookings,
       recent c (get_user_bookings u uid) = Return recent_bookings /\
       length recent_bookings < 3))) /\
  (dict_get "allowed" r = Some (PBool true) ->
   check_feature_access d uid "expert_advice_limited" = Return true \/
   check_feature_access d uid "expert_advice_unlimited" = Return true).
Proof.
  intros Hrun.
  assert (Hiff : dict_get "allowed" r = Some (PBool true) <->
   (tier_of d uid = Some PLATINUM \/
    (tier_of d uid = Some PREMIUM /\
     exists recent_bookings,
       recent c (get_user_bookings u uid) = Return recent_bookings /\
       length recent_bookings < 3))).
  { revert Hrun.
    unfold check_expert_advice_limit, tier_of, JsonDb.get_user_by_id.
    destruct (users d !! uid) as [user|].
    2:{ intros [= <-]. cbn. split; [discriminate|].
        intros [?|[? _]]; discriminate. }
    destruct (SubscriptionTier_of _) as [e|tier]; [discriminate|].
    destruct tier; cbn [TIER_LIMITS expert_advice_weekly_limit].
    - intros [= <-]. cbn. split; [discriminate|].
      intros [?|[? _]]; discriminate.
    - intros [= <-]. cbn. split; [discriminate|].
      intros [?|[? _]]; discriminate.
    - destruct (recent c (get_user_bookings u uid)) as [e|l]; [discriminate|].
      intros [= <-]. rewrite usage_dict_allowed. split.
      + intros [= Hlt]. right. split; [reflexivity|].
        exists l. split; [reflexivity|]. now apply Nat.ltb_lt.
      + intros [?|[_ (l' & [= <-] & Hlt)]]; [discriminate|].
        apply Nat.ltb_lt in Hlt. now rewrite Hlt.
    - intros [= <-]. split; [now left|reflexivity]. }
  split; [exact Hiff|].
  intros Hallowed. apply Hiff in Hallowed as [Ht|[Ht _]];
    rewrite !(check_feature_access_tier _ _ _ _ Ht); [now right|now left].
Qed.

(** carol, a Premium user, booked twice in the last seven days. *)
Lemma expert_advice_allowed_iff_witness :
  check_expert_advice_limit LimitExamples.database LimitExamples.usage
                            LimitExamples.clock "carol" =
    Return (PDict [("allowed", PBool true);
                   ("remaining", PInt 1);
                   ("used", PInt 2);
                   ("limit", PInt 3);
                   ("resets_at", PStr "day 107")]) /\
  check_feature_access LimitExamples.database "carol"
                       "expert_advice_limited" = Return true.
Proof.
  assert (Hrun : check_expert_advice_limit
                   LimitExamples.database LimitExamples.usage
                   LimitExamples.clock "carol" =
                 Return (PDict [("allowed", PBool true);
                                ("remaining", PInt 1);
                                ("used", PInt 2);
                                ("limit", PInt 3);
                                ("resets_at", PStr "day 107")]))
    by (vm_compute; reflexivity).
  split; [exact Hrun|].
  destruct (expert_advice_allowed_iff _ _ _ _ _ Hrun) as [_ Hgate].
  destruct (Hgate eq_refl) as [Hl|Hu]; [exact Hl|].
  vm_compute in Hu. discriminate.
Defined.

(** X21. A case study is allowed exactly to the users of a tier other
    than Basic, and to the Basic users who made fewer than 5 case studies
    in the last seven days. *)
Theorem case_study_allowed_iff
        (d : JSONDatabase) (u : Usage) (c : Clock) (uid : string)
        (r : pyval) :
  check_case_study_limit d u c uid = Return r ->
  (dict_get "allowed" r = Some (PBool true) <->
   exists tier,
     tier_of d uid = Some tier /\
     (tier <> BASIC \/
      exists recent_studies,
        recent c (get_user_case_studies u uid) = Return recent_studies /\
        length recent_studies < 5)).
Proof.
  unfold check_case_study_limit, tier_of, JsonDb.get_user_by_id.
  destruct (users d !! uid) as [user|].
  2:{ intros [= <-]. cbn. split; [discriminate|].
      intros (tier & ? & _). discriminate. }
  destruct (SubscriptionTier_of _) as [e|tier]; [discriminate|].
  destruct tier; cbn [TIER_LIMITS case_study_weekly_limit].
  - destruct (recent c (get_user_case_studies u uid)) as [e|l];
      [discriminate|].
    intros [= <-]. rewrite usage_dict_allowed. split.
    + intros [= Hlt]. exists BASIC. split; [reflexivity|]. right.
      exists l. split; [reflexivity|]. now apply Nat.ltb_lt.
    + intros (tier & [= <-] & [Hne|(l' & [= <-] & Hlt)]); [congruence|].
      apply Nat.ltb_lt in Hlt. now rewrite Hlt.
  - intros [= <-]. split; [|reflexivity]. intros _.
    exists STANDARD. split; [reflexivity|]. now left.
  - intros [= <-]. split; [|reflexivity]. intros _.
    exists PREMIUM. split; [reflexivity|]. now left.
  - intros [= <-]. split; [|reflexivity]. intros _.
    exists PLATINUM. split; [reflexivity|]. now left.
Qed.

(** dave, a Basic user, made five case studies this week: the sixth is
    refused. *)
Lemma case_study_allowed_iff_witness :
  check_case_study_limit LimitExamples.database LimitExamples.usage
                         LimitExamples.clock "dave" =
    Return (PDict [("allowed", PBool false);
                   ("remaining", PInt 0);
                   ("used", PInt 5);
                   ("limit", PInt 5);
                   ("resets_at", PStr "day 107")]) /\
  ~ exists recent_studies,
      recent LimitExamples.clock
             (get_user_case_studies LimitExamples.usage "dave") =
        Return recent_studies /\
      length recent_studies < 5.
Proof.
  assert (Hrun : check_case_study_limit
                   LimitExamples.database LimitExamples.usage
                   LimitExamples.clock "dave" =
                 Return (PDict [("allowed", PBool false);
                                ("remaining", PInt 0);
                                ("used", PInt 5);
                                ("limit", PInt 5);
                                ("resets_at", PStr "day 107")]))
    by (vm_compute; reflexivity).
  split; [exact Hrun|].
  destruct (case_study_allowed_iff _ _ _ _ _ Hrun) as [_ Hback].
  intros Hrecent.
  assert (Hallowed : dict_get "allowed"
                       (PDict [("allowed", PBool false);
                               ("remaining", PInt 0);
                               ("used", PInt 5);
                               ("limit", PInt 5);
                               ("resets_at", PStr "day 107")]) =
                     Some (PBool true)).
  { apply Hback. exists BASIC. split; [vm_compute; reflexivity|].
    right. exact Hrecent. }
  discriminate Hallowed.
Defined.

End LimitProperties.
